(** * IDT 8T49N24x clock generator driver (clk-idt24x.c)

    A shallow embedding of the divider calculation, the masked register
    writes, the output enable bookkeeping and the set-rate entry point of
    the driver, of its bulk writes, its probe-time read-back of the shadow
    registers, its dump of the configuration registers and its clock
    notifier, together with the properties established about them.

    Integers of the C source are modelled as [Z] with the wrap-around of
    their C type written out ([u8], [u16], [u32], [u64]).  The driver data
    ([struct clk_idt24x]), the register file behind the regmap, the
    outcomes of the pending bus transactions and the kernel log are
    threaded through a small state monad; a division by zero and an
    exhausted loop budget are faults of that monad. *)

From Stdlib Require Import ZArith Lia Bool List Ascii.
From stdpp Require Import base gmap list.

Local Open Scope Z_scope.

(** ** Machine integers *)

Definition u8 (x : Z) : Z := x mod 2 ^ 8.
Definition u16 (x : Z) : Z := x mod 2 ^ 16.
Definition u32 (x : Z) : Z := x mod 2 ^ 32.
Definition u64 (x : Z) : Z := x mod 2 ^ 64.

(** ** Register map and limits (the #define block of the source) *)

Definition IDT24x_REG_DBL_DIS : Z := 0x6C.
Definition IDT24x_REG_DBL_DIS_MASK : Z := 0x01.
Definition IDT24x_REG_DSM_INT_8 : Z := 0x25.
Definition IDT24x_REG_DSM_INT_8_MASK : Z := 0x01.
Definition IDT24x_REG_DSM_INT_7_0 : Z := 0x26.
Definition IDT24x_REG_DSMFRAC_20_16 : Z := 0x28.
Definition IDT24x_REG_DSMFRAC_20_16_MASK : Z := 0x1F.
Definition IDT24x_REG_DSMFRAC_15_8 : Z := 0x29.
Definition IDT24x_REG_DSMFRAC_7_0 : Z := 0x2A.
Definition IDT24x_REG_OUTEN : Z := 0x39.
Definition IDT24x_REG_Q_DIS : Z := 0x6F.

Definition IDT24x_REG_OUTEN0_MASK : Z := 0x01.
Definition IDT24x_REG_Q0_DIS_MASK : Z := 0x01.
Definition IDT24x_REG_NS1_Q0 : Z := 0x3F.
Definition IDT24x_REG_NS1_Q0_MASK : Z := 0x03.
Definition IDT24x_REG_NS2_Q0_15_8 : Z := 0x40.
Definition IDT24x_REG_NS2_Q0_7_0 : Z := 0x41.

Definition IDT24x_REG_OUTEN1_MASK : Z := 0x02.
Definition IDT24x_REG_Q1_DIS_MASK : Z := 0x02.
Definition IDT24x_REG_N_Q1_17_16 : Z := 0x42.
Definition IDT24x_REG_N_Q1_17_16_MASK : Z := 0x03.
Definition IDT24x_REG_N_Q1_15_8 : Z := 0x43.
Definition IDT24x_REG_N_Q1_7_0 : Z := 0x44.
Definition IDT24x_REG_NFRAC_Q1_27_24 : Z := 0x57.
Definition IDT24x_REG_NFRAC_Q1_27_24_MASK : Z := 0x0F.
Definition IDT24x_REG_NFRAC_Q1_23_16 : Z := 0x58.
Definition IDT24x_REG_NFRAC_Q1_15_8 : Z := 0x59.
Definition IDT24x_REG_NFRAC_Q1_7_0 : Z := 0x5A.

Definition IDT24x_REG_OUTEN2_MASK : Z := 0x04.
Definition IDT24x_REG_Q2_DIS_MASK : Z := 0x04.
Definition IDT24x_REG_N_Q2_17_16 : Z := 0x45.
Definition IDT24x_REG_N_Q2_17_16_MASK : Z := 0x03.
Definition IDT24x_REG_N_Q2_15_8 : Z := 0x46.
Definition IDT24x_REG_N_Q2_7_0 : Z := 0x47.
Definition IDT24x_REG_NFRAC_Q2_27_24 : Z := 0x5B.
Definition IDT24x_REG_NFRAC_Q2_27_24_MASK : Z := 0x0F.
Definition IDT24x_REG_NFRAC_Q2_23_16 : Z := 0x5C.
Definition IDT24x_REG_NFRAC_Q2_15_8 : Z := 0x5D.
Definition IDT24x_REG_NFRAC_Q2_7_0 : Z := 0x5E.

Definition IDT24x_REG_OUTEN3_MASK : Z := 0x08.
Definition IDT24x_REG_Q3_DIS_MASK : Z := 0x08.
Definition IDT24x_REG_N_Q3_17_16 : Z := 0x48.
Definition IDT24x_REG_N_Q3_17_16_MASK : Z := 0x03.
Definition IDT24x_REG_N_Q3_15_8 : Z := 0x49.
Definition IDT24x_REG_N_Q3_7_0 : Z := 0x4A.
Definition IDT24x_REG_NFRAC_Q3_27_24 : Z := 0x5F.
Definition IDT24x_REG_NFRAC_Q3_27_24_MASK : Z := 0x0F.
Definition IDT24x_REG_NFRAC_Q3_23_16 : Z := 0x60.
Definition IDT24x_REG_NFRAC_Q3_15_8 : Z := 0x61.
Definition IDT24x_REG_NFRAC_Q3_7_0 : Z := 0x62.

Definition IDT24x_MIN_FREQ : Z := 1000000.
Definition IDT24x_MAX_FREQ : Z := 300000000.

Definition IDT24x_VCO_MIN : Z := 2999997000.
Definition IDT24x_VCO_MAX : Z := 4000004000.
Definition IDT24x_VCO_OPT : Z := 3500000000.
Definition IDT24x_MIN_INT_DIVIDER : Z := 6.

Definition EINVAL : Z := 22.

(** ** Data structures *)

(** [struct clk_idt24x], restricted to the fields the modelled functions
    read or write.  The arrays [frequencies], [regN_Qx_17_16] and
    [regNFRAC_Qx_27_24] are lists indexed from 0. *)
Record clk_idt24x := {
  min_freq : Z;
  max_freq : Z;
  input_clk_freq : Z;
  xtal_freq : Z;
  doubler_disabled : bool;
  frequencies : list Z;
  debugfs_frequencies : list Z;
  regDSM_INT_8 : Z;
  regDSMFRAC_20_16 : Z;
  regOUTENx : Z;
  regQxDIS : Z;
  regNS1_Q0 : Z;
  regN_Qx_17_16 : list Z;
  regNFRAC_Qx_27_24 : list Z
}.

Record clk_register_offsets := {
  oe_offset : Z;
  oe_mask : Z;
  dis_offset : Z;
  dis_mask : Z;
  n_17_16_offset : Z;
  n_17_16_mask : Z;
  n_15_8_offset : Z;
  n_7_0_offset : Z;
  nfrac_27_24_offset : Z;
  nfrac_27_24_mask : Z;
  nfrac_23_16_offset : Z;
  nfrac_15_8_offset : Z;
  nfrac_7_0_offset : Z;
  ns1_offset : Z;
  ns1_offset_mask : Z;
  ns2_15_8_offset : Z;
  ns2_7_0_offset : Z
}.

Record idt24x_dividers := {
  dsmint : Z;
  dsmfrac : Z;
  ns1_q0 : Z;
  ns2_q0 : Z;
  nint : list Z;
  nfrac : list Z
}.

(** ** The machine: driver data, register file, bus, kernel log *)

(** Lines of the kernel log that the model keeps: the transaction line
    that [i2cwrite] prints for every register write it is asked to do, and
    the [dev_err] diagnostics of [idt24x_calc_divs].  The remaining
    [dev_info]/[dev_err] lines of the driver carry no state and are left
    out. *)
Inductive kmsg :=
| I2C_write (reg val : Z)
| Q0_NOT_IMPLEMENTED
| Q1_NOT_IMPLEMENTED
| Q3_NOT_IMPLEMENTED
| Q2_NOT_SPECIFIED
| NO_DIVIDER_IN_RANGE.

(** [bus_errors] holds the return codes of the bus transactions still to
    come, oldest first; once it is used up every transaction succeeds. *)
Record world := {
  data : clk_idt24x;
  regs : gmap Z Z;
  bus_errors : list Z;
  klog : list kmsg
}.

Inductive fault := DivideByZero | LoopFuel.

Inductive result (A : Type) :=
| Ok (a : A)
| Fault (f : fault).
Arguments Ok {A} a.
Arguments Fault {A} f.

Definition M (A : Type) : Type := world -> result (A * world).

Definition ret {A} (a : A) : M A := fun w => Ok (a, w).

Definition bind {A B} (m : M A) (k : A -> M B) : M B :=
  fun w => match m w with
           | Ok (a, w') => k a w'
           | Fault f => Fault f
           end.

Notation "'let!' x ':=' m 'in' k" := (bind m (fun x => k))
  (at level 10, x name, m at level 100, k at level 200).

(** [err = m; if (err) return err; k] *)
Notation "'try!' m 'in' k" :=
  (bind m (fun err => if negb (err =? 0) then (fun w => Ok (err, w)) else k))
  (at level 10, m at level 100, k at level 200).

Definition raise {A} (f : fault) : M A := fun _ => Fault f.

Definition get_data : M clk_idt24x := fun w => Ok (data w, w).

Definition put_data (d : clk_idt24x) : M unit := fun w =>
  Ok (tt, {| data := d; regs := regs w; bus_errors := bus_errors w;
             klog := klog w |}).

Definition printk (m : kmsg) : M unit := fun w =>
  Ok (tt, {| data := data w; regs := regs w; bus_errors := bus_errors w;
             klog := klog w ++ [m] |}).

Definition when (b : bool) (m : M unit) : M unit :=
  if b then m else ret tt.

(** ** Bit helpers *)

(** [bits_to_shift]: [mask] and [c] are [unsigned int]. *)
Definition bits_to_shift (mask : Z) : Z :=
  let c := 32 in
  let mask := Z.land mask (u32 (u32 (Z.lnot mask) + 1)) in
  let c := if mask =? 0 then c else c - 1 in
  let c := if Z.land mask 0x0000FFFF =? 0 then c else c - 16 in
  let c := if Z.land mask 0x00FF00FF =? 0 then c else c - 8 in
  let c := if Z.land mask 0x0F0F0F0F =? 0 then c else c - 4 in
  let c := if Z.land mask 0x33333333 =? 0 then c else c - 2 in
  let c := if Z.land mask 0x55555555 =? 0 then c else c - 1 in
  c.

(** The number of trailing zero bits of an 8-bit mask, by its definition:
    the position of the lowest set bit (8 when there is none). *)
Fixpoint ctz_from (n : nat) (i : Z) (m : Z) : Z :=
  match n with
  | O => i
  | S n' => if Z.testbit m i then i else ctz_from n' (i + 1) m
  end.

Definition trailing_zeros (m : Z) : Z := ctz_from 8 0 m.

(** ** Divider calculation *)

(** [div64_u64] and [div64_u64_rem]: unsigned 64-bit division; the kernel
    faults on a zero divisor. *)
Definition div64_u64 (dividend divisor : Z) : M Z :=
  if u64 divisor =? 0 then raise DivideByZero
  else ret (u64 dividend / u64 divisor).

Definition div64_u64_rem (dividend divisor : Z) : M (Z * Z) :=
  if u64 divisor =? 0 then raise DivideByZero
  else ret (u64 dividend / u64 divisor, u64 dividend mod u64 divisor).

(** The locals of [idt24x_calc_divs] that the [while] loop updates. *)
Record walk_state := {
  walk : Z;
  div : Z;
  is_lower_vco : bool;
  best_vco : Z
}.

(** One pass through the body of the loop. *)
Definition walk_step (freq : Z) (s : walk_state) : walk_state :=
  let vco := u32 (freq * walk s) in
  let s1 :=
    if (IDT24x_VCO_MIN <=? vco) && (vco <=? IDT24x_VCO_MAX) then
      if vco <=? IDT24x_VCO_OPT then
        if (best_vco s <? vco) || negb (is_lower_vco s) then
          {| walk := walk s; div := walk s; is_lower_vco := true;
             best_vco := vco |}
        else s
      else if negb (is_lower_vco s) then
        if best_vco s <? vco then
          {| walk := walk s; div := walk s;
             is_lower_vco := is_lower_vco s; best_vco := vco |}
        else s
      else s
    else s in
  {| walk := u32 (walk s1 + 2); div := div s1;
     is_lower_vco := is_lower_vco s1; best_vco := best_vco s1 |}.

(** [while (walk <= max_div) { ... }], with a budget of iterations. *)
Fixpoint walk_loop (fuel : nat) (freq max_div : Z) (s : walk_state)
  : option walk_state :=
  match fuel with
  | O => None
  | S n =>
      if walk s <=? max_div then walk_loop n freq max_div (walk_step freq s)
      else Some s
  end.

Definition walk_init : walk_state :=
  {| walk := IDT24x_MIN_INT_DIVIDER; div := 0; is_lower_vco := false;
     best_vco := 0 |}.

(** The budget handed to the loop; [walk] grows by 2 from 6 on every
    pass, so [max_div] passes are more than the loop can make. *)
Definition walk_fuel (max_div : Z) : nat := S (Z.to_nat max_div).

(** The divider search of [idt24x_calc_divs]: [max_div] and the loop. *)
Definition calc_divs_search (freq : Z) : M walk_state :=
  let! q := div64_u64 IDT24x_VCO_MAX (u32 (freq * 2)) in
  let max_div := u32 (u64 (q * 2)) in
  match walk_loop (walk_fuel max_div) freq max_div walk_init with
  | Some s => ret s
  | None => raise LoopFuel
  end.

(** The phase detector frequency, a [u32] product. *)
Definition pfd_of (d : clk_idt24x) : Z :=
  u32 ((if input_clk_freq d =? 0 then xtal_freq d else input_clk_freq d)
       * (if doubler_disabled d then 1 else 2)).

Definition idt24x_calc_divs (divs : idt24x_dividers)
  : M (Z * idt24x_dividers) :=
  let! d := get_data in
  let! _ := when (negb (frequencies d !!! 0%nat =? 0))
                 (printk Q0_NOT_IMPLEMENTED) in
  let! _ := when (negb (frequencies d !!! 1%nat =? 0))
                 (printk Q1_NOT_IMPLEMENTED) in
  let! _ := when (negb (frequencies d !!! 3%nat =? 0))
                 (printk Q3_NOT_IMPLEMENTED) in
  let freq := frequencies d !!! 2%nat in
  if freq =? 0 then
    let! _ := printk Q2_NOT_SPECIFIED in
    ret (- EINVAL, divs)
  else
    let divs := {| dsmint := 0; dsmfrac := 0; ns1_q0 := 0; ns2_q0 := 0;
                   nint := nint divs; nfrac := nfrac divs |} in
    let! s := calc_divs_search freq in
    if negb (div s =? 0) then
      let! half := div64_u64 (div s) 2 in
      let nint' := <[1%nat := u32 half]> (nint divs) in
      let nfrac' := <[1%nat := 0]> (nfrac divs) in
      let vco := u32 (div s * freq) in
      let pfd := pfd_of d in
      let! qr := div64_u64_rem vco pfd in
      let rem := snd qr in
      let! frac := div64_u64 (u64 (Z.shiftl (u64 (rem * 1)) 21)) pfd in
      ret (0, {| dsmint := u16 (fst qr); dsmfrac := u32 frac;
                 ns1_q0 := 0; ns2_q0 := 0;
                 nint := nint'; nfrac := nfrac' |})
    else
      let! _ := printk NO_DIVIDER_IN_RANGE in
      ret (- EINVAL, divs).

(** ** Register access layer *)

(** One bus transaction of the regmap: it takes the next pending return
    code; the register file changes only when the transaction succeeds. *)
Definition regmap_write (reg val : Z) : M Z := fun w =>
  match bus_errors w with
  | e :: rest =>
      if e =? 0 then
        Ok (0, {| data := data w; regs := <[reg := val]> (regs w);
                  bus_errors := rest; klog := klog w |})
      else
        Ok (e, {| data := data w; regs := regs w;
                  bus_errors := rest; klog := klog w |})
  | [] =>
      Ok (0, {| data := data w; regs := <[reg := val]> (regs w);
                bus_errors := []; klog := klog w |})
  end.

(** The [do ... while (count++ <= maxAttempts)] loop: one attempt, then
    one more for each of [count = 1 .. maxAttempts] while the write
    fails. *)
Fixpoint write_attempts (retries : nat) (offset val : Z) : M Z :=
  let! err := regmap_write offset val in
  if err =? 0 then ret 0
  else match retries with
       | O => ret err
       | S r => write_attempts r offset val
       end.

Definition regmapWriteWithRetry (offset val maxAttempts : Z) : M Z :=
  write_attempts (Z.to_nat maxAttempts) offset val.

Definition i2cwrite (reg val : Z) : M Z :=
  let reg := u32 reg in
  let val := u32 val in
  let! _ := printk (I2C_write reg val) in
  regmapWriteWithRetry reg val 5.

(** [val], [original] and [mask] are [u8] parameters; the expression is
    evaluated on [int].  For a zero mask the shift count is 32, where C
    leaves the shift undefined; its result is then and-ed with 0. *)
Definition i2cwritewithmask (reg val original mask : Z) : M Z :=
  let val := u8 val in
  let original := u8 original in
  let mask := u8 mask in
  i2cwrite reg
    (Z.lor (Z.land (Z.shiftl val (bits_to_shift mask)) mask)
           (Z.land original (Z.lnot mask))).

(** [idt24x_get_offsets] fills in the fields of the caller's structure
    that belong to the output and leaves the others as they were. *)
Definition idt24x_get_offsets (output_num : Z) (o : clk_register_offsets)
  : Z * clk_register_offsets :=
  let output_num := u8 output_num in
  if output_num =? 0 then
    (0, {| oe_offset := IDT24x_REG_OUTEN; oe_mask := IDT24x_REG_OUTEN0_MASK;
           dis_offset := IDT24x_REG_Q_DIS; dis_mask := IDT24x_REG_Q0_DIS_MASK;
           n_17_16_offset := n_17_16_offset o;
           n_17_16_mask := n_17_16_mask o;
           n_15_8_offset := n_15_8_offset o;
           n_7_0_offset := n_7_0_offset o;
           nfrac_27_24_offset := nfrac_27_24_offset o;
           nfrac_27_24_mask := nfrac_27_24_mask o;
           nfrac_23_16_offset := nfrac_23_16_offset o;
           nfrac_15_8_offset := nfrac_15_8_offset o;
           nfrac_7_0_offset := nfrac_7_0_offset o;
           ns1_offset := IDT24x_REG_NS1_Q0;
           ns1_offset_mask := IDT24x_REG_NS1_Q0_MASK;
           ns2_15_8_offset := IDT24x_REG_NS2_Q0_15_8;
           ns2_7_0_offset := IDT24x_REG_NS2_Q0_7_0 |})
  else if output_num =? 1 then
    (0, {| oe_offset := IDT24x_REG_OUTEN; oe_mask := IDT24x_REG_OUTEN1_MASK;
           dis_offset := IDT24x_REG_Q_DIS; dis_mask := IDT24x_REG_Q1_DIS_MASK;
           n_17_16_offset := IDT24x_REG_N_Q1_17_16;
           n_17_16_mask := IDT24x_REG_N_Q1_17_16_MASK;
           n_15_8_offset := IDT24x_REG_N_Q1_15_8;
           n_7_0_offset := IDT24x_REG_N_Q1_7_0;
           nfrac_27_24_offset := IDT24x_REG_NFRAC_Q1_27_24;
           nfrac_27_24_mask := IDT24x_REG_NFRAC_Q1_27_24_MASK;
           nfrac_23_16_offset := IDT24x_REG_NFRAC_Q1_23_16;
           nfrac_15_8_offset := IDT24x_REG_NFRAC_Q1_15_8;
           nfrac_7_0_offset := IDT24x_REG_NFRAC_Q1_7_0;
           ns1_offset := ns1_offset o;
           ns1_offset_mask := ns1_offset_mask o;
           ns2_15_8_offset := ns2_15_8_offset o;
           ns2_7_0_offset := ns2_7_0_offset o |})
  else if output_num =? 2 then
    (0, {| oe_offset := IDT24x_REG_OUTEN; oe_mask := IDT24x_REG_OUTEN2_MASK;
           dis_offset := IDT24x_REG_Q_DIS; dis_mask := IDT24x_REG_Q2_DIS_MASK;
           n_17_16_offset := IDT24x_REG_N_Q2_17_16;
           n_17_16_mask := IDT24x_REG_N_Q2_17_16_MASK;
           n_15_8_offset := IDT24x_REG_N_Q2_15_8;
           n_7_0_offset := IDT24x_REG_N_Q2_7_0;
           nfrac_27_24_offset := IDT24x_REG_NFRAC_Q2_27_24;
           nfrac_27_24_mask := IDT24x_REG_NFRAC_Q2_27_24_MASK;
           nfrac_23_16_offset := IDT24x_REG_NFRAC_Q2_23_16;
           nfrac_15_8_offset := IDT24x_REG_NFRAC_Q2_15_8;
           nfrac_7_0_offset := IDT24x_REG_NFRAC_Q2_7_0;
           ns1_offset := ns1_offset o;
           ns1_offset_mask := ns1_offset_mask o;
           ns2_15_8_offset := ns2_15_8_offset o;
           ns2_7_0_offset := ns2_7_0_offset o |})
  else if output_num =? 3 then
    (0, {| oe_offset := IDT24x_REG_OUTEN; oe_mask := IDT24x_REG_OUTEN3_MASK;
           dis_offset := IDT24x_REG_Q_DIS; dis_mask := IDT24x_REG_Q3_DIS_MASK;
           n_17_16_offset := IDT24x_REG_N_Q3_17_16;
           n_17_16_mask := IDT24x_REG_N_Q3_17_16_MASK;
           n_15_8_offset := IDT24x_REG_N_Q3_15_8;
           n_7_0_offset := IDT24x_REG_N_Q3_7_0;
           nfrac_27_24_offset := IDT24x_REG_NFRAC_Q3_27_24;
           nfrac_27_24_mask := IDT24x_REG_NFRAC_Q3_27_24_MASK;
           nfrac_23_16_offset := IDT24x_REG_NFRAC_Q3_23_16;
           nfrac_15_8_offset := IDT24x_REG_NFRAC_Q3_15_8;
           nfrac_7_0_offset := IDT24x_REG_NFRAC_Q3_7_0;
           ns1_offset := ns1_offset o;
           ns1_offset_mask := ns1_offset_mask o;
           ns2_15_8_offset := ns2_15_8_offset o;
           ns2_7_0_offset := ns2_7_0_offset o |})
  else (- EINVAL, o).

(** Field updates of [struct clk_idt24x]. *)
Definition set_enable_regs (outen qdis : Z) (d : clk_idt24x) : clk_idt24x :=
  {| min_freq := min_freq d; max_freq := max_freq d;
     input_clk_freq := input_clk_freq d; xtal_freq := xtal_freq d;
     doubler_disabled := doubler_disabled d;
     frequencies := frequencies d;
     debugfs_frequencies := debugfs_frequencies d;
     regDSM_INT_8 := regDSM_INT_8 d;
     regDSMFRAC_20_16 := regDSMFRAC_20_16 d;
     regOUTENx := outen; regQxDIS := qdis;
     regNS1_Q0 := regNS1_Q0 d;
     regN_Qx_17_16 := regN_Qx_17_16 d;
     regNFRAC_Qx_27_24 := regNFRAC_Qx_27_24 d |}.

Definition set_frequencies (fs dfs : list Z) (d : clk_idt24x) : clk_idt24x :=
  {| min_freq := min_freq d; max_freq := max_freq d;
     input_clk_freq := input_clk_freq d; xtal_freq := xtal_freq d;
     doubler_disabled := doubler_disabled d;
     frequencies := fs;
     debugfs_frequencies := dfs;
     regDSM_INT_8 := regDSM_INT_8 d;
     regDSMFRAC_20_16 := regDSMFRAC_20_16 d;
     regOUTENx := regOUTENx d; regQxDIS := regQxDIS d;
     regNS1_Q0 := regNS1_Q0 d;
     regN_Qx_17_16 := regN_Qx_17_16 d;
     regNFRAC_Qx_27_24 := regNFRAC_Qx_27_24 d |}.

(** ** Output programmer and set-rate entry point *)

Section Driver.

(** The contents of the local [struct clk_register_offsets offsets] and
    [struct idt24x_dividers divs] when a function is entered: the source
    does not initialise them. *)
Variable stack_offsets : clk_register_offsets.
Variable stack_divs : idt24x_dividers.

Definition idt24x_enable_output (output : Z) (enable : bool) : M Z :=
  let (err, offsets) := idt24x_get_offsets output stack_offsets in
  if negb (err =? 0) then ret err
  else
    let! d := get_data in
    let outen := u8 (Z.land (regOUTENx d) (Z.lnot (oe_mask offsets))) in
    let outen :=
      if enable
      then u8 (Z.lor outen (Z.shiftl 1 (bits_to_shift (oe_mask offsets))))
      else outen in
    let qdis := u8 (Z.land (regQxDIS d) (Z.lnot (dis_mask offsets))) in
    let qdis :=
      if negb enable
      then u8 (Z.lor qdis (Z.shiftl 1 (bits_to_shift (dis_mask offsets))))
      else qdis in
    let! _ := put_data (set_enable_regs outen qdis d) in
    try! i2cwrite IDT24x_REG_OUTEN outen in
    try! i2cwrite IDT24x_REG_Q_DIS qdis in
    ret 0.

(** The body of the [for (x = 1; x <= 3; x++)] loop of
    [idt24x_update_device]; a non-zero result is returned by the
    function. *)
Definition update_output (divs : idt24x_dividers) (x : Z) : M Z :=
  let i := Z.to_nat (x - 1) in
  let! d := get_data in
  try! (if negb (frequencies d !!! Z.to_nat x =? 0) then
          let (err, offsets) := idt24x_get_offsets x stack_offsets in
          if negb (err =? 0) then ret err
          else
            try! i2cwritewithmask (n_17_16_offset offsets)
                   (Z.land (Z.shiftr (nint divs !!! i) 16)
                           (n_17_16_mask offsets))
                   (regN_Qx_17_16 d !!! i) (n_17_16_mask offsets) in
            try! i2cwrite (n_15_8_offset offsets)
                   (Z.land (Z.shiftr (nint divs !!! i) 8) 0xFF) in
            try! i2cwrite (n_7_0_offset offsets)
                   (Z.land (nint divs !!! i) 0xFF) in
            try! i2cwritewithmask (nfrac_27_24_offset offsets)
                   (Z.land (Z.shiftr (nfrac divs !!! i) 24)
                           (nfrac_27_24_mask offsets))
                   (regNFRAC_Qx_27_24 d !!! i) (nfrac_27_24_mask offsets) in
            try! i2cwrite (nfrac_23_16_offset offsets)
                   (Z.land (Z.shiftr (nfrac divs !!! i) 16) 0xFF) in
            try! i2cwrite (nfrac_15_8_offset offsets)
                   (Z.land (Z.shiftr (nfrac divs !!! i) 8) 0xFF) in
            try! i2cwrite (nfrac_7_0_offset offsets)
                   (Z.land (nfrac divs !!! i) 0xFF) in
            ret 0
        else ret 0) in
  let! d := get_data in
  let! _ := idt24x_enable_output x (negb (frequencies d !!! Z.to_nat x =? 0)) in
  ret 0.

Fixpoint update_outputs (divs : idt24x_dividers) (xs : list Z) : M Z :=
  match xs with
  | [] => ret 0
  | x :: rest =>
      try! update_output divs x in
      update_outputs divs rest
  end.

Definition idt24x_update_device (divs : idt24x_dividers) : M Z :=
  let! d := get_data in
  try! i2cwritewithmask IDT24x_REG_DSM_INT_8
         (Z.land (Z.shiftr (dsmint divs) 8) IDT24x_REG_DSM_INT_8_MASK)
         (regDSM_INT_8 d) IDT24x_REG_DSM_INT_8_MASK in
  try! i2cwrite IDT24x_REG_DSM_INT_7_0 (Z.land (dsmint divs) 0xFF) in
  try! i2cwritewithmask IDT24x_REG_DSMFRAC_20_16
         (Z.land (Z.shiftr (dsmfrac divs) 16) IDT24x_REG_DSMFRAC_20_16_MASK)
         (regDSM_INT_8 d) IDT24x_REG_DSMFRAC_20_16_MASK in
  try! i2cwrite IDT24x_REG_DSMFRAC_15_8
         (Z.land (Z.shiftr (dsmfrac divs) 8) 0xFF) in
  try! i2cwrite IDT24x_REG_DSMFRAC_7_0 (Z.land (dsmfrac divs) 0xFF) in
  try! i2cwritewithmask IDT24x_REG_NS1_Q0
         (Z.land (Z.shiftr (ns1_q0 divs) 8) IDT24x_REG_NS1_Q0_MASK)
         (regNS1_Q0 d) IDT24x_REG_NS1_Q0_MASK in
  try! i2cwrite IDT24x_REG_NS2_Q0_15_8
         (Z.land (Z.shiftr (ns2_q0 divs) 8) 0xFF) in
  try! i2cwrite IDT24x_REG_NS2_Q0_7_0 (Z.land (ns2_q0 divs) 0xFF) in
  let! _ := idt24x_enable_output 0 (negb (frequencies d !!! 0%nat =? 0)) in
  update_outputs divs [1; 2; 3].

Definition idt24x_set_frequency : M Z :=
  let! d := get_data in
  if frequencies d !!! 2%nat =? 0 then
    let! _ := idt24x_enable_output 2 false in
    ret 0
  else if (input_clk_freq d =? 0) && (xtal_freq d =? 0) then
    ret (- EINVAL)
  else
    let! r := idt24x_calc_divs stack_divs in
    if negb (fst r =? 0) then ret (fst r)
    else
      try! idt24x_update_device (snd r) in
      ret 0.

Definition idt24x_get_output_num : Z := 2.

Definition idt24x_set_rate (rate parent_rate : Z) : M Z :=
  let! d := get_data in
  let output_num := idt24x_get_output_num in
  if (rate <? min_freq d) || (max_freq d <? rate) then ret (- EINVAL)
  else
    let! _ := put_data
      (set_frequencies
         (<[Z.to_nat output_num := u32 rate]> (frequencies d))
         (<[Z.to_nat output_num := u64 rate]> (debugfs_frequencies d)) d) in
    idt24x_set_frequency.

End Driver.

(** ** Reading registers, bulk writes, probe-time read-back *)

(** [mask_and_shift]: [value] is a [u32], [mask] a [u8]; the field of
    [value] under [mask], moved down to bit 0.  For a zero mask the value
    is 0 and the shift count 32. *)
Definition mask_and_shift (value mask : Z) : Z :=
  let mask := u8 mask in
  let value := Z.land (u32 value) mask in
  Z.shiftr value (bits_to_shift mask).

(** The register file read at an address: a register the map does not
    hold reads as 0. *)
Definition reg_value (m : gmap Z Z) (reg : Z) : Z :=
  default 0 (m !! reg).

(** One read transaction of the regmap: it takes the next pending return
    code; the value comes back only when the transaction succeeds (the
    source writes [*val] only then), the error code otherwise. *)
Definition regmap_read (reg : Z) : M (Z + Z) := fun w =>
  match bus_errors w with
  | e :: rest =>
      if e =? 0 then
        Ok (inr (reg_value (regs w) reg),
            {| data := data w; regs := regs w; bus_errors := rest;
               klog := klog w |})
      else
        Ok (inl e, {| data := data w; regs := regs w; bus_errors := rest;
                      klog := klog w |})
  | [] => Ok (inr (reg_value (regs w) reg), w)
  end.

(** [err = regmap_read(map, reg, &tmp); if (err) return err; k tmp] *)
Notation "'read!' x ':=' reg 'in' k" :=
  (bind (regmap_read reg)
        (fun r => match r with
                  | inl err => (fun w => Ok (err, w))
                  | inr x => k
                  end))
  (at level 10, x name, reg at level 100, k at level 200).

(** The registers [offset], [offset + 1], ... after the bytes [vals]
    were stored in them. *)
Fixpoint store_block (offset : Z) (vals : list Z) (m : gmap Z Z)
  : gmap Z Z :=
  match vals with
  | [] => m
  | v :: rest => store_block (offset + 1) rest (<[offset := v]> m)
  end.

(** One bulk write transaction of the regmap. *)
Definition regmap_bulk_write (offset : Z) (vals : list Z) : M Z := fun w =>
  match bus_errors w with
  | e :: rest =>
      if e =? 0 then
        Ok (0, {| data := data w; regs := store_block offset vals (regs w);
                  bus_errors := rest; klog := klog w |})
      else
        Ok (e, {| data := data w; regs := regs w;
                  bus_errors := rest; klog := klog w |})
  | [] =>
      Ok (0, {| data := data w; regs := store_block offset vals (regs w);
                bus_errors := []; klog := klog w |})
  end.

(** The [do ... while (count++ <= maxAttempts)] loop of
    [regmapBulkWriteWithRetry]. *)
Fixpoint bulk_attempts (retries : nat) (offset : Z) (vals : list Z) : M Z :=
  let! err := regmap_bulk_write offset vals in
  if err =? 0 then ret 0
  else match retries with
       | O => ret err
       | S r => bulk_attempts r offset vals
       end.

(** [val] holds the first [val_count] bytes of the caller's array. *)
Definition regmapBulkWriteWithRetry (offset : Z) (val : list Z)
    (val_count maxAttempts : Z) : M Z :=
  bulk_attempts (Z.to_nat maxAttempts) offset
    (take (Z.to_nat val_count) val).

Definition NUM_CONFIG_REGISTERS : Z := 0x317.
Definition WRITE_BLOCK_SIZE : Z := 32.

(** The locals of [i2cwritebulk] that its [for] loop updates. *)
Record bulk_state := {
  bulk_err : Z;
  block : list Z;
  currentOffset : Z;
  blockOffset : Z
}.

(** The [for (x = 0; x < val_count; x++)] loop of [i2cwritebulk] over the
    bytes still to be copied; [x] is the index of the first of them.  The
    loop is left at the first block that cannot be written. *)
Fixpoint bulk_loop (vals : list Z) (x : Z) (s : bulk_state) : M bulk_state :=
  match vals with
  | [] => ret s
  | v :: rest =>
      let block' := <[Z.to_nat (currentOffset s) := u8 v]> (block s) in
      let cur := currentOffset s + 1 in
      if (0 <? x) && ((x + 1) mod WRITE_BLOCK_SIZE =? 0) then
        let! err := regmapBulkWriteWithRetry (blockOffset s) block'
                      WRITE_BLOCK_SIZE 5 in
        if negb (err =? 0) then
          ret {| bulk_err := err; block := block'; currentOffset := cur;
                 blockOffset := blockOffset s |}
        else
          bulk_loop rest (x + 1)
            {| bulk_err := err; block := block'; currentOffset := 0;
               blockOffset := u32 (blockOffset s + WRITE_BLOCK_SIZE) |}
      else
        bulk_loop rest (x + 1)
          {| bulk_err := bulk_err s; block := block'; currentOffset := cur;
             blockOffset := blockOffset s |}
  end.

(** [i2cwritebulk]: [val] is the array of [val_count] bytes; [stack_block]
    is what the local [block] holds when the function is entered.  The
    hex dump the function prints is left out. *)
Definition i2cwritebulk (stack_block : list Z) (reg : Z) (val : list Z)
  : M Z :=
  let! s := bulk_loop val 0
              {| bulk_err := 0; block := stack_block; currentOffset := 0;
                 blockOffset := u32 reg |} in
  if (bulk_err s =? 0) && (0 <? currentOffset s) then
    regmapBulkWriteWithRetry (blockOffset s) (block s) (currentOffset s) 5
  else ret (bulk_err s).

(** Field updates of [struct clk_idt24x], continued. *)
Definition set_input_clk_freq (f : Z) (d : clk_idt24x) : clk_idt24x :=
  {| min_freq := min_freq d; max_freq := max_freq d;
     input_clk_freq := f; xtal_freq := xtal_freq d;
     doubler_disabled := doubler_disabled d;
     frequencies := frequencies d;
     debugfs_frequencies := debugfs_frequencies d;
     regDSM_INT_8 := regDSM_INT_8 d;
     regDSMFRAC_20_16 := regDSMFRAC_20_16 d;
     regOUTENx := regOUTENx d; regQxDIS := regQxDIS d;
     regNS1_Q0 := regNS1_Q0 d;
     regN_Qx_17_16 := regN_Qx_17_16 d;
     regNFRAC_Qx_27_24 := regNFRAC_Qx_27_24 d |}.

Definition set_doubler_disabled (b : bool) (d : clk_idt24x) : clk_idt24x :=
  {| min_freq := min_freq d; max_freq := max_freq d;
     input_clk_freq := input_clk_freq d; xtal_freq := xtal_freq d;
     doubler_disabled := b;
     frequencies := frequencies d;
     debugfs_frequencies := debugfs_frequencies d;
     regDSM_INT_8 := regDSM_INT_8 d;
     regDSMFRAC_20_16 := regDSMFRAC_20_16 d;
     regOUTENx := regOUTENx d; regQxDIS := regQxDIS d;
     regNS1_Q0 := regNS1_Q0 d;
     regN_Qx_17_16 := regN_Qx_17_16 d;
     regNFRAC_Qx_27_24 := regNFRAC_Qx_27_24 d |}.

(** The shadow registers replaced, everything else kept. *)
Definition set_shadows (dsm_int_8 dsmfrac_20_16 outen qdis ns1 : Z)
    (n_17_16 nfrac_27_24 : list Z) (d : clk_idt24x) : clk_idt24x :=
  {| min_freq := min_freq d; max_freq := max_freq d;
     input_clk_freq := input_clk_freq d; xtal_freq := xtal_freq d;
     doubler_disabled := doubler_disabled d;
     frequencies := frequencies d;
     debugfs_frequencies := debugfs_frequencies d;
     regDSM_INT_8 := dsm_int_8;
     regDSMFRAC_20_16 := dsmfrac_20_16;
     regOUTENx := outen; regQxDIS := qdis;
     regNS1_Q0 := ns1;
     regN_Qx_17_16 := n_17_16;
     regNFRAC_Qx_27_24 := nfrac_27_24 |}.

Definition set_regDSM_INT_8 (v : Z) (d : clk_idt24x) : clk_idt24x :=
  set_shadows v (regDSMFRAC_20_16 d) (regOUTENx d) (regQxDIS d)
    (regNS1_Q0 d) (regN_Qx_17_16 d) (regNFRAC_Qx_27_24 d) d.

Definition set_regDSMFRAC_20_16 (v : Z) (d : clk_idt24x) : clk_idt24x :=
  set_shadows (regDSM_INT_8 d) v (regOUTENx d) (regQxDIS d)
    (regNS1_Q0 d) (regN_Qx_17_16 d) (regNFRAC_Qx_27_24 d) d.

Definition set_regOUTENx (v : Z) (d : clk_idt24x) : clk_idt24x :=
  set_shadows (regDSM_INT_8 d) (regDSMFRAC_20_16 d) v (regQxDIS d)
    (regNS1_Q0 d) (regN_Qx_17_16 d) (regNFRAC_Qx_27_24 d) d.

Definition set_regQxDIS (v : Z) (d : clk_idt24x) : clk_idt24x :=
  set_shadows (regDSM_INT_8 d) (regDSMFRAC_20_16 d) (regOUTENx d) v
    (regNS1_Q0 d) (regN_Qx_17_16 d) (regNFRAC_Qx_27_24 d) d.

Definition set_regNS1_Q0 (v : Z) (d : clk_idt24x) : clk_idt24x :=
  set_shadows (regDSM_INT_8 d) (regDSMFRAC_20_16 d) (regOUTENx d)
    (regQxDIS d) v (regN_Qx_17_16 d) (regNFRAC_Qx_27_24 d) d.

Definition set_regN_Qx_17_16 (i : nat) (v : Z) (d : clk_idt24x)
  : clk_idt24x :=
  set_shadows (regDSM_INT_8 d) (regDSMFRAC_20_16 d) (regOUTENx d)
    (regQxDIS d) (regNS1_Q0 d) (<[i := v]> (regN_Qx_17_16 d))
    (regNFRAC_Qx_27_24 d) d.

Definition set_regNFRAC_Qx_27_24 (i : nat) (v : Z) (d : clk_idt24x)
  : clk_idt24x :=
  set_shadows (regDSM_INT_8 d) (regDSMFRAC_20_16 d) (regOUTENx d)
    (regQxDIS d) (regNS1_Q0 d) (regN_Qx_17_16 d)
    (<[i := v]> (regNFRAC_Qx_27_24 d)) d.

(** [data->field = v] *)
Definition update_data (f : clk_idt24x -> clk_idt24x) : M unit :=
  let! d := get_data in put_data (f d).

Section Probe.

(** The contents of the local [struct clk_register_offsets offsets] of the
    loop of [idt24x_read_from_hw] when an iteration starts. *)
Variable stack_offsets : clk_register_offsets.

(** The body of the [for (output = 1; output <= 3; output++)] loop of
    [idt24x_read_from_hw]; a non-zero result is returned by the
    function. *)
Definition read_output_shadows (output : Z) : M Z :=
  let i := Z.to_nat (u8 output - 1) in
  let (err, offsets) := idt24x_get_offsets output stack_offsets in
  if negb (err =? 0) then ret err
  else
    read! tmp := n_17_16_offset offsets in
    let! _ := update_data (set_regN_Qx_17_16 i (u8 tmp)) in
    read! tmp := nfrac_27_24_offset offsets in
    let! _ := update_data (set_regNFRAC_Qx_27_24 i (u8 tmp)) in
    ret 0.

Fixpoint read_outputs_shadows (outputs : list Z) : M Z :=
  match outputs with
  | [] => ret 0
  | output :: rest =>
      try! read_output_shadows output in
      read_outputs_shadows rest
  end.

Definition idt24x_read_from_hw : M Z :=
  read! tmp := IDT24x_REG_DSM_INT_8 in
  let! _ := update_data (set_regDSM_INT_8 (u8 tmp)) in
  read! tmp := IDT24x_REG_DSMFRAC_20_16_MASK in
  let! _ := update_data (set_regDSMFRAC_20_16 (u8 tmp)) in
  read! tmp := IDT24x_REG_OUTEN in
  let! _ := update_data (set_regOUTENx (u8 tmp)) in
  read! tmp := IDT24x_REG_Q_DIS in
  let! _ := update_data (set_regQxDIS (u8 tmp)) in
  read! tmp := IDT24x_REG_NS1_Q0 in
  let! _ := update_data (set_regNS1_Q0 (u8 tmp)) in
  try! read_outputs_shadows [1; 2; 3] in
  let! d := get_data in
  if xtal_freq d =? 0 then ret 0
  else
    read! tmp := IDT24x_REG_DBL_DIS in
    let! _ := update_data
                (set_doubler_disabled
                   (negb (mask_and_shift tmp IDT24x_REG_DBL_DIS_MASK =? 0))) in
    ret 0.

End Probe.

(** ** Dump of the configuration registers *)

(** One bulk read transaction of the regmap: the bytes of the registers
    [offset], ..., [offset + count - 1], or the error code. *)
Definition regmap_bulk_read (offset count : Z) : M (Z + list Z) := fun w =>
  let vals := map (fun i => u8 (reg_value (regs w) (offset + i)))
                  (seqZ 0 count) in
  match bus_errors w with
  | e :: rest =>
      if e =? 0 then
        Ok (inr vals, {| data := data w; regs := regs w; bus_errors := rest;
                         klog := klog w |})
      else
        Ok (inl e, {| data := data w; regs := regs w; bus_errors := rest;
                      klog := klog w |})
  | [] => Ok (inr vals, w)
  end.

Definition hex_digit (n : Z) : ascii :=
  match n with
  | 0 => "0" | 1 => "1" | 2 => "2" | 3 => "3" | 4 => "4" | 5 => "5"
  | 6 => "6" | 7 => "7" | 8 => "8" | 9 => "9" | 10 => "a" | 11 => "b"
  | 12 => "c" | 13 => "d" | 14 => "e" | _ => "f"
  end%char.

(** [sprintf(dbg, "%02x ", b)] for a byte [b]: the characters written
    before the terminator. *)
Definition sprintf_02x (b : Z) : list ascii :=
  [hex_digit (u8 b / 16); hex_digit (u8 b mod 16); " "%char].

(** The [for (x = 0; x < ARRAY_SIZE(settings); x++)] loop of
    [idt24x_read_all_settings] over the bytes still to be printed;
    [output_buffer] is the string in the caller's buffer.  [strlen] is a
    [size_t], so the [int count] is converted to 64 bits unsigned in the
    comparison. *)
Fixpoint dump_loop (settings : list Z) (count : Z) (output_buffer : list ascii)
  : Z * list ascii :=
  match settings with
  | [] => (0, output_buffer)
  | b :: rest =>
      if u64 count <? u64 (Z.of_nat (length output_buffer) + 4)
      then (- EINVAL, output_buffer)
      else dump_loop rest count (output_buffer ++ sprintf_02x b)
  end.

(** [idt24x_read_all_settings]: the result and the string left in
    [output_buffer]. *)
Definition idt24x_read_all_settings (output_buffer : list ascii) (count : Z)
  : M (Z * list ascii) :=
  let! r := regmap_bulk_read 0 NUM_CONFIG_REGISTERS in
  match r with
  | inl err => ret (err, output_buffer)
  | inr settings => ret (dump_loop settings count [])
  end.

(** ** Clock operations and the rate-change notifier *)

(** The value of an [unsigned long] returned as a [long] of [bits] bits
    (64 on arm64, 32 on arm): it wraps to the signed range. *)
Definition to_long (bits x : Z) : Z :=
  (x + 2 ^ (bits - 1)) mod 2 ^ bits - 2 ^ (bits - 1).

(** [rate] is an [unsigned long], the result a [long]. *)
Definition idt24x_round_rate (bits : Z) (rate parent_rate : Z) : Z :=
  to_long bits rate.

Definition idt24x_recalc_rate (parent_rate : Z) : M Z :=
  let! d := get_data in
  ret (frequencies d !!! 2%nat).

(** The events of the clock notifier chain and the answers of a
    callback; their numeric values are the kernel's. *)
Inductive clk_event :=
| PRE_RATE_CHANGE
| POST_RATE_CHANGE
| ABORT_RATE_CHANGE
| OTHER_EVENT.

Inductive notify_result := NOTIFY_OK | NOTIFY_DONE.

Section Notifier.

Variable stack_offsets : clk_register_offsets.
Variable stack_divs : idt24x_dividers.

(** [new_rate] is [ndata->new_rate]. *)
Definition idt24x_clk_notifier_cb (event : clk_event) (new_rate : Z)
  : M notify_result :=
  match event with
  | PRE_RATE_CHANGE => ret NOTIFY_OK
  | POST_RATE_CHANGE =>
      let! _ := update_data (set_input_clk_freq (u32 new_rate)) in
      let! _ := idt24x_set_frequency stack_offsets stack_divs in
      ret NOTIFY_OK
  | ABORT_RATE_CHANGE => ret NOTIFY_OK
  | OTHER_EVENT => ret NOTIFY_DONE
  end.

End Notifier.

(** ** Vocabulary of the statements *)

(** The VCO frequency the loop computes for a candidate divider. *)
Definition vco_at (freq w : Z) : Z := u32 (freq * w).

(** A candidate whose VCO is inside the legal range. *)
Definition legal (freq w : Z) : Prop :=
  IDT24x_VCO_MIN <= vco_at freq w <= IDT24x_VCO_MAX.

(** The candidates of the search: the even dividers from 6 to [max_div]. *)
Definition candidate (max_div w : Z) : Prop :=
  6 <= w <= max_div /\ w mod 2 = 0.

(** [max_div] as [idt24x_calc_divs] computes it. *)
Definition max_div_of (freq : Z) : Z :=
  u32 (u64 (u64 IDT24x_VCO_MAX / u64 (u32 (freq * 2)) * 2)).

(** The tie-break policy of the specification: [d] is a legal candidate;
    either its VCO is at most the optimum and no legal candidate at or
    below the optimum has a higher VCO, or every legal candidate is above
    the optimum and none has a higher VCO. *)
Definition chosen (freq max_div d : Z) : Prop :=
  candidate max_div d /\ legal freq d /\
  ((vco_at freq d <= IDT24x_VCO_OPT /\
    forall w, candidate max_div w -> legal freq w ->
              vco_at freq w <= IDT24x_VCO_OPT -> vco_at freq w <= vco_at freq d)
   \/
   ((forall w, candidate max_div w -> legal freq w ->
               IDT24x_VCO_OPT < vco_at freq w) /\
    forall w, candidate max_div w -> legal freq w ->
              vco_at freq w <= vco_at freq d)).

(** Rounding to nearest, in the specification's sense: [q] is an integer
    nearest to [num / den]. *)
Definition rounds_to_nearest (q num den : Z) : Prop :=
  2 * Z.abs (q * den - num) <= den.

(** The byte the specification describes for a masked write:
    [((V << tz(M)) & M) | (S & ~M)]. *)
Definition masked_byte (V S M : Z) : Z :=
  Z.lor (Z.land (Z.shiftl V (trailing_zeros M)) M) (Z.land S (Z.lnot M)).

(** The world after some lines were added to the kernel log. *)
Definition logged (l : list kmsg) (w : world) : world :=
  {| data := data w; regs := regs w; bus_errors := bus_errors w;
     klog := klog w ++ l |}.

(** The machine with the requested frequencies replaced. *)
Definition with_frequencies (fs : list Z) (w : world) : world :=
  {| data := set_frequencies fs (debugfs_frequencies (data w)) (data w);
     regs := regs w; bus_errors := bus_errors w; klog := klog w |}.

(** The value a run returns, if it returns. *)
Definition returned {A} (r : result (A * world)) : option A :=
  match r with
  | Ok (a, _) => Some a
  | Fault _ => None
  end.

(** The lines [idt24x_calc_divs] prints for the outputs it does not
    handle. *)
Definition unimplemented_log (d : clk_idt24x) : list kmsg :=
  (if negb (frequencies d !!! 0%nat =? 0) then [Q0_NOT_IMPLEMENTED] else [])
  ++ (if negb (frequencies d !!! 1%nat =? 0) then [Q1_NOT_IMPLEMENTED] else [])
  ++ (if negb (frequencies d !!! 3%nat =? 0) then [Q3_NOT_IMPLEMENTED] else []).

(** The dividers [idt24x_calc_divs] hands back when no divider is in
    range, and when divider [d] was selected. *)
Definition divs_cleared (divs : idt24x_dividers) : idt24x_dividers :=
  {| dsmint := 0; dsmfrac := 0; ns1_q0 := 0; ns2_q0 := 0;
     nint := nint divs; nfrac := nfrac divs |}.

Definition divs_found (freq pfd d : Z) (divs : idt24x_dividers)
  : idt24x_dividers :=
  {| dsmint := (vco_at freq d / pfd) mod 2 ^ 16;
     dsmfrac := (vco_at freq d mod pfd) * 2 ^ 21 / pfd;
     ns1_q0 := 0; ns2_q0 := 0;
     nint := <[1%nat := d / 2]> (nint divs);
     nfrac := <[1%nat := 0]> (nfrac divs) |}.

(** [m] leaves the registers at the addresses in [P] as they are. *)
Definition preserves {A} (P : Z -> Prop) (m : M A) : Prop :=
  forall w r w', m w = Ok (r, w') ->
                 forall a, P a -> regs w' !! a = regs w !! a.

(** The registers of the VCO feedback divider and of output 0's
    two-stage divider: 0x25 to 0x41 without the output-enable register. *)
Definition pll_reg (a : Z) : Prop :=
  (IDT24x_REG_DSM_INT_8 <=? a) && (a <=? IDT24x_REG_NS2_Q0_7_0)
  && negb (a =? IDT24x_REG_OUTEN) = true.

(** ** Invariant of the search loop *)

(** The candidates the loop has been through when [walk] has value [hi]. *)
Definition scanned (hi w : Z) : Prop :=
  6 <= w < hi /\ w mod 2 = 0.

(** The selection policy, stated on the locals of the loop. *)
Definition selected (freq hi max_div : Z) (s : walk_state) : Prop :=
  scanned hi (div s) /\ div s <= max_div /\ legal freq (div s) /\
  best_vco s = vco_at freq (div s) /\
  if is_lower_vco s then
    best_vco s <= IDT24x_VCO_OPT /\
    forall w, scanned hi w -> legal freq w ->
              vco_at freq w <= IDT24x_VCO_OPT -> vco_at freq w <= best_vco s
  else
    forall w, scanned hi w -> legal freq w ->
              IDT24x_VCO_OPT < vco_at freq w <= best_vco s.

Definition nothing_found (freq hi : Z) (s : walk_state) : Prop :=
  div s = 0 /\ is_lower_vco s = false /\ best_vco s = 0 /\
  forall w, scanned hi w -> ~ legal freq w.

Definition walk_inv (freq max_div : Z) (s : walk_state) : Prop :=
  walk s mod 2 = 0 /\ 6 <= walk s <= Z.max 6 (max_div + 2) /\
  (nothing_found freq (walk s) s \/ selected freq (walk s) max_div s).

(** What the loop has established when it is left. *)
Definition search_post (freq max_div : Z) (s : walk_state) : Prop :=
  (div s = 0 /\ forall w, candidate max_div w -> ~ legal freq w)
  \/ (div s <> 0 /\ chosen freq max_div (div s)).

(** ** Example machines *)

(** What the uninitialised locals hold in the examples. *)
Definition example_offsets : clk_register_offsets :=
  {| oe_offset := 0xAAAA; oe_mask := 0xAA; dis_offset := 0xAAAA;
     dis_mask := 0xAA; n_17_16_offset := 0xAAAA; n_17_16_mask := 0xAA;
     n_15_8_offset := 0xAAAA; n_7_0_offset := 0xAAAA;
     nfrac_27_24_offset := 0xAAAA; nfrac_27_24_mask := 0xAA;
     nfrac_23_16_offset := 0xAAAA; nfrac_15_8_offset := 0xAAAA;
     nfrac_7_0_offset := 0xAAAA; ns1_offset := 0xAAAA;
     ns1_offset_mask := 0xAA; ns2_15_8_offset := 0xAAAA;
     ns2_7_0_offset := 0xAAAA |}.

Definition example_divs : idt24x_dividers :=
  {| dsmint := 0xBEEF; dsmfrac := 0xDEAD; ns1_q0 := 0xA5; ns2_q0 := 0x5A5A;
     nint := [0x1111; 0x2222; 0x3333]; nfrac := [0x4444; 0x5555; 0x6666] |}.

(** A device as probe leaves it (frequency bounds 1 MHz and 300 MHz, a
    crystal as reference), with the requested frequencies [fs]; the
    shadow of DSM_INT_8 is 0x40 and the shadow of DSMFRAC_20_16 is 0xE0. *)
Definition example_data (fs : list Z) (xtal : Z) (dbl_dis : bool)
  : clk_idt24x :=
  {| min_freq := IDT24x_MIN_FREQ; max_freq := IDT24x_MAX_FREQ;
     input_clk_freq := 0; xtal_freq := xtal; doubler_disabled := dbl_dis;
     frequencies := fs; debugfs_frequencies := fs;
     regDSM_INT_8 := 0x40; regDSMFRAC_20_16 := 0xE0;
     regOUTENx := 0x00; regQxDIS := 0x0F; regNS1_Q0 := 0xFD;
     regN_Qx_17_16 := [0; 0; 0]; regNFRAC_Qx_27_24 := [0; 0; 0] |}.

Definition example_world (fs : list Z) (xtal : Z) (dbl_dis : bool) : world :=
  {| data := example_data fs xtal dbl_dis; regs := ∅; bus_errors := [];
     klog := [] |}.

(** The machine after probe, before any rate was set. *)
Definition world_idle : world :=
  example_world [0; 0; 0; 0] 25000000 false.

(** 125 MHz on Q2 from a 25 MHz crystal with the doubler enabled. *)
Definition world_125MHz : world :=
  example_world [0; 0; 125000000; 0] 25000000 false.

(** 125 MHz on Q2 from a 26 kHz reference with the doubler disabled. *)
Definition world_26kHz : world :=
  example_world [0; 0; 125000000; 0] 26000 true.

(** 125 MHz on Q2 while 25 MHz is also requested on Q0. *)
Definition world_q0_requested : world :=
  example_world [25000000; 0; 125000000; 0] 25000000 false.

(** The dividers [idt24x_calc_divs] returns for [world_125MHz]. *)
Definition divs_125MHz : idt24x_dividers :=
  {| dsmint := 70; dsmfrac := 0; ns1_q0 := 0; ns2_q0 := 0;
     nint := <[1%nat := 14]> (nint example_divs);
     nfrac := <[1%nat := 0]> (nfrac example_divs) |}.

(** The machine after the dividers of [world_125MHz] were applied. *)
Definition world_125MHz_applied : world :=
  match idt24x_update_device example_offsets divs_125MHz world_125MHz with
  | Ok (_, w) => w
  | Fault _ => world_125MHz
  end.

(** ** Vocabulary of the further properties *)

(** The divider the search ends with, in closed form: the largest even
    divider whose VCO is at most the optimum when that VCO is legal,
    otherwise the largest even divider whose VCO is at most the
    maximum. *)
Definition nearest_divider (f : Z) : Z :=
  let d0 := 2 * (IDT24x_VCO_OPT / (2 * f)) in
  if IDT24x_VCO_MIN <=? f * d0 then d0 else 2 * (IDT24x_VCO_MAX / (2 * f)).

(** The world with other pending bus return codes. *)
Definition with_bus (errs : list Z) (w : world) : world :=
  {| data := data w; regs := regs w; bus_errors := errs; klog := klog w |}.

(** The world after a register was written. *)
Definition with_reg (reg val : Z) (w : world) : world :=
  {| data := data w; regs := <[reg := val]> (regs w);
     bus_errors := bus_errors w; klog := klog w |}.

(** [m] changes nothing of the driver data but the shadows of the
    output-enable and output-disable registers. *)
Definition keeps_config {A} (m : M A) : Prop :=
  forall w r w', m w = Ok (r, w') ->
                 exists o q, data w' = set_enable_regs o q (data w).

(** A device as probe leaves it, with no reference: neither an upstream
    clock nor a crystal frequency. *)
Definition world_no_reference : world :=
  example_world [0; 0; 0; 0] 0 false.

(** A run from [w] to [w'] with result [r] that only read registers, at
    most [n] of them: the register file and the log are as before, the
    transactions used all succeeded except, when [r] is not zero, the
    last one, whose return code is [r]. *)
Definition stopped_at_first_error (n : nat) (w : world) (r : Z) (w' : world)
  : Prop :=
  regs w' = regs w /\ klog w' = klog w /\
  exists pre,
    Forall (fun e => e = 0) pre /\
    bus_errors w = pre ++ (if r =? 0 then [] else [r]) ++ bus_errors w' /\
    (length pre + (if (r =? 0)%Z then 0 else 1) <= n)%nat.

Definition reads_only (n : nat) (m : M Z) : Prop :=
  forall w r w', m w = Ok (r, w') -> stopped_at_first_error n w r w'.

(** The shadow registers as [idt24x_read_from_hw] fills them from the
    register file [m]. *)
Definition shadows_read (m : gmap Z Z) (d : clk_idt24x) : clk_idt24x :=
  set_shadows
    (u8 (reg_value m IDT24x_REG_DSM_INT_8))
    (u8 (reg_value m IDT24x_REG_DSMFRAC_20_16_MASK))
    (u8 (reg_value m IDT24x_REG_OUTEN))
    (u8 (reg_value m IDT24x_REG_Q_DIS))
    (u8 (reg_value m IDT24x_REG_NS1_Q0))
    (<[2%nat := u8 (reg_value m IDT24x_REG_N_Q3_17_16)]>
       (<[1%nat := u8 (reg_value m IDT24x_REG_N_Q2_17_16)]>
          (<[0%nat := u8 (reg_value m IDT24x_REG_N_Q1_17_16)]>
             (regN_Qx_17_16 d))))
    (<[2%nat := u8 (reg_value m IDT24x_REG_NFRAC_Q3_27_24)]>
       (<[1%nat := u8 (reg_value m IDT24x_REG_NFRAC_Q2_27_24)]>
          (<[0%nat := u8 (reg_value m IDT24x_REG_NFRAC_Q1_27_24)]>
             (regNFRAC_Qx_27_24 d))))
    d.

(** The content of a register after [i2cwritewithmask reg V S M]
    succeeded. *)
Definition written_byte (V S M : Z) : Z :=
  u32 (Z.lor (Z.land (Z.shiftl (u8 V) (bits_to_shift (u8 M))) (u8 M))
             (Z.land (u8 S) (Z.lnot (u8 M)))).

(** The registers of the divider of output [x], for [x] from 1 to 3:
    N_Qx_17_16 to N_Qx_7_0 and NFRAC_Qx_27_24 to NFRAC_Qx_7_0. *)
Definition divider_reg (x a : Z) : Prop :=
  ((IDT24x_REG_N_Q1_17_16 + 3 * (x - 1) <=? a)
   && (a <=? IDT24x_REG_N_Q1_7_0 + 3 * (x - 1))
   || (IDT24x_REG_NFRAC_Q1_27_24 + 4 * (x - 1) <=? a)
      && (a <=? IDT24x_REG_NFRAC_Q1_7_0 + 4 * (x - 1))) = true.

(** The seven registers of an output divider as the writes of
    [idt24x_update_device] leave them for the integer value [n] and the
    fraction [f], [sn] and [sf] being the shadow bytes of the two masked
    registers. *)
Definition divider_written (m : gmap Z Z) (o : clk_register_offsets)
    (n f sn sf : Z) : Prop :=
  m !! n_17_16_offset o
  = Some (written_byte (Z.land (Z.shiftr n 16) (n_17_16_mask o)) sn
            (n_17_16_mask o)) /\
  m !! n_15_8_offset o = Some (u32 (Z.land (Z.shiftr n 8) 0xFF)) /\
  m !! n_7_0_offset o = Some (u32 (Z.land n 0xFF)) /\
  m !! nfrac_27_24_offset o
  = Some (written_byte (Z.land (Z.shiftr f 24) (nfrac_27_24_mask o)) sf
            (nfrac_27_24_mask o)) /\
  m !! nfrac_23_16_offset o = Some (u32 (Z.land (Z.shiftr f 16) 0xFF)) /\
  m !! nfrac_15_8_offset o = Some (u32 (Z.land (Z.shiftr f 8) 0xFF)) /\
  m !! nfrac_7_0_offset o = Some (u32 (Z.land f 0xFF)).

(** The registers of output [x]'s divider hold the integer value [n] and
    the fraction [f] in the register file [m]: the masked top bits are
    read with the driver's [mask_and_shift]. *)
Definition output_divider_in (m : gmap Z Z) (o : clk_register_offsets)
    (n f : Z) : Prop :=
  mask_and_shift (reg_value m (n_17_16_offset o)) (n_17_16_mask o) * 2 ^ 16
  + reg_value m (n_15_8_offset o) * 2 ^ 8
  + reg_value m (n_7_0_offset o) = n /\
  mask_and_shift (reg_value m (nfrac_27_24_offset o)) (nfrac_27_24_mask o)
    * 2 ^ 24
  + reg_value m (nfrac_23_16_offset o) * 2 ^ 16
  + reg_value m (nfrac_15_8_offset o) * 2 ^ 8
  + reg_value m (nfrac_7_0_offset o) = f.

(** Dividers that use every bit of their fields, and one bit more. *)
Definition divs_wide : idt24x_dividers :=
  {| dsmint := 0x3A5; dsmfrac := 0x3ABCDE; ns1_q0 := 0; ns2_q0 := 0;
     nint := [0; 0x6BEEF; 0];
     nfrac := [0; 0x1F123456; 0] |}.

(** The bytes of the local [block] of [i2cwritebulk] that were copied and
    not yet written. *)
Definition pending (s : bulk_state) : list Z :=
  take (Z.to_nat (currentOffset s)) (block s).

(** A chip whose registers hold bits outside the fields of the driver,
    with 125 MHz requested on Q2. *)
Definition world_foreign_bits : world :=
  with_reg IDT24x_REG_DSM_INT_8 0xA4
    (with_reg IDT24x_REG_NS1_Q0 0xFC
       (with_reg IDT24x_REG_N_Q2_17_16 0xF1
          (with_reg IDT24x_REG_NFRAC_Q2_27_24 0xA5
             (with_frequencies [0; 0; 125000000; 0] world_idle)))).

(** On a bus whose transactions all succeed, [m] returns 0 and leaves
    the bus as it is. *)
Definition succeeds (m : M Z) : Prop :=
  forall w, bus_errors w = [] ->
            exists w', m w = Ok (0, w') /\ bus_errors w' = [].

(** [m] returns on every machine: it neither divides by zero nor runs
    out of loop fuel. *)
Definition returns {A} (m : M A) : Prop :=
  forall w, exists r w', m w = Ok (r, w').

(** The reference frequency [idt24x_calc_divs] uses: the upstream clock
    when there is one, the crystal otherwise. *)
Definition reference_of (d : clk_idt24x) : Z :=
  if input_clk_freq d =? 0 then xtal_freq d else input_clk_freq d.

(** Byte [a] of the settings array of the device tree. *)
Definition setting (settings : list Z) (a : Z) : Z :=
  u8 (settings !!! Z.to_nat a).

(** The bytes [idt24x_read_all_settings] reads from the register file. *)
Definition config_bytes (m : gmap Z Z) : list Z :=
  map (fun i => u8 (reg_value m (0 + i))) (seqZ 0 NUM_CONFIG_REGISTERS).

(** The dump of the first [k] of some bytes. *)
Definition dump_of (k : nat) (bytes : list Z) : list ascii :=
  concat (map sprintf_02x (take k bytes)).

(** The machine after the notifier stored a new input rate. *)
Definition with_input_clk (f : Z) (w : world) : world :=
  {| data := set_input_clk_freq f (data w); regs := regs w;
     bus_errors := bus_errors w; klog := klog w |}.

(** * Properties *)

(** ** The divider search *)

(** Conjunctions of closed facts, each settled by evaluation. *)
Ltac eval_conj :=
  repeat lazymatch goal with
         | |- _ /\ _ => split
         end;
  vm_compute; reflexivity.

(** Linear arithmetic with division and remainder by constants. *)
Ltac dlia := Z.to_euclidean_division_equations; lia.

Lemma u32_small x : 0 <= x < 2 ^ 32 -> u32 x = x.
Proof. intros H. unfold u32. apply Z.mod_small. exact H. Qed.

Lemma u64_small x : 0 <= x < 2 ^ 64 -> u64 x = x.
Proof. intros H. unfold u64. apply Z.mod_small. exact H. Qed.

Lemma u32_range x : 0 <= u32 x < 2 ^ 32.
Proof. unfold u32. apply Z.mod_pos_bound. lia. Qed.

Lemma u32_double_even freq : u32 (freq * 2) mod 2 = 0.
Proof.
  unfold u32. change (2 ^ 32) with (2 ^ 31 * 2).
  rewrite Z.mul_mod_distr_r by lia.
  apply Z.mod_mul. lia.
Qed.

Lemma max_div_of_eq freq :
  u32 (freq * 2) <> 0 ->
  max_div_of freq = IDT24x_VCO_MAX / u32 (freq * 2) * 2.
Proof.
  intros Hnz. unfold max_div_of.
  pose proof (u32_range (freq * 2)) as Hr.
  pose proof (u32_double_even freq) as He.
  assert (Hd : 2 <= u32 (freq * 2)) by dlia.
  rewrite (u64_small IDT24x_VCO_MAX) by (unfold IDT24x_VCO_MAX; lia).
  rewrite (u64_small (u32 (freq * 2))) by lia.
  assert (Hq : 0 <= IDT24x_VCO_MAX / u32 (freq * 2) <= 2000002000).
  { split.
    - apply Z.div_pos; unfold IDT24x_VCO_MAX; lia.
    - apply Z.div_le_upper_bound; unfold IDT24x_VCO_MAX; lia. }
  rewrite u64_small by lia.
  apply u32_small. lia.
Qed.

Lemma max_div_of_bound freq :
  u32 (freq * 2) <> 0 -> 0 <= max_div_of freq <= 4000004000.
Proof.
  intros Hnz. rewrite max_div_of_eq by exact Hnz.
  pose proof (u32_range (freq * 2)) as Hr.
  pose proof (u32_double_even freq) as He.
  assert (Hq : 0 <= IDT24x_VCO_MAX / u32 (freq * 2) <= 2000002000).
  { split.
    - apply Z.div_pos; unfold IDT24x_VCO_MAX; lia.
    - apply Z.div_le_upper_bound; unfold IDT24x_VCO_MAX; dlia. }
  lia.
Qed.

Lemma scanned_next hi w :
  hi mod 2 = 0 -> (scanned (hi + 2) w <-> scanned hi w \/ (w = hi /\ 6 <= hi)).
Proof. unfold scanned. dlia. Qed.

Lemma walk_inv_init freq max_div : walk_inv freq max_div walk_init.
Proof.
  unfold walk_inv, walk_init, nothing_found, scanned, IDT24x_MIN_INT_DIVIDER.
  simpl. split; [reflexivity |]. split; [lia |].
  left. repeat split; lia.
Qed.

Ltac split_bound :=
  lazymatch goal with
  | |- _ /\ _ => split; [lia |]
  | _ => idtac
  end.

(** Extends a statement about the scanned candidates to the candidate
    that was just examined. *)
Ltac scan_cases Hsc :=
  let w := fresh "w" in
  let Hw := fresh "Hw" in
  let Hlg := fresh "Hlg" in
  intros w Hw Hlg; apply Hsc in Hw as [Hw | ->];
  [ repeat match goal with
           | H : forall v, scanned _ v -> _ |- _ =>
               pose proof (H _ Hw Hlg); clear H
           end
  | ];
  try lia; try tauto.

Lemma walk_step_inv freq max_div s :
  max_div <= 4000004000 ->
  walk_inv freq max_div s -> walk s <= max_div ->
  walk_inv freq max_div (walk_step freq s).
Proof.
  intros Hmax (Hev & Hw & Hst) Hle.
  assert (Hnext : u32 (walk s + 2) = walk s + 2) by (apply u32_small; lia).
  assert (Hsc : forall w, scanned (walk s + 2) w <->
                          scanned (walk s) w \/ w = walk s).
  { intros w. rewrite scanned_next by exact Hev. intuition lia. }
  assert (Hnew : scanned (walk s + 2) (walk s)) by (apply Hsc; now right).
  unfold walk_step. fold (vco_at freq (walk s)).
  unfold walk_inv, nothing_found, selected, legal in *.
  destruct Hst as [(Hd & Hl & Hb0 & Hnone) | (Hsd & Hdm & Hleg & Hbest & Hpol)].
  - (* nothing selected so far *)
    rewrite Hl, Hb0.
    destruct (Z.leb_spec IDT24x_VCO_MIN (vco_at freq (walk s))) as [Hlo | Hlo];
      destruct (Z.leb_spec (vco_at freq (walk s)) IDT24x_VCO_MAX) as [Hhi | Hhi];
      destruct (Z.leb_spec (vco_at freq (walk s)) IDT24x_VCO_OPT) as [Hopt | Hopt];
      destruct (Z.ltb_spec 0 (vco_at freq (walk s))) as [Hb | Hb];
      cbn [andb orb negb walk div is_lower_vco best_vco];
      rewrite ?Hl, ?Hb0, ?Hnext;
      (split; [dlia |]); (split; [lia |]);
      try (unfold IDT24x_VCO_MIN in Hlo; lia);
      first
        [ left; refine (conj Hd (conj eq_refl (conj eq_refl _)));
          scan_cases Hsc; eapply Hnone; eauto
        | right;
          refine (conj Hnew (conj Hle (conj (conj Hlo Hhi) (conj eq_refl _))));
          split_bound; scan_cases Hsc;
          try (exfalso; eapply Hnone; eauto) ].
  - (* a divider is selected *)
    assert (Hsd' : scanned (walk s + 2) (div s)) by (apply Hsc; now left).
    destruct (is_lower_vco s) eqn:Hl;
      [ destruct Hpol as [Hbo Hpol] | ];
      destruct (Z.leb_spec IDT24x_VCO_MIN (vco_at freq (walk s))) as [Hlo | Hlo];
      destruct (Z.leb_spec (vco_at freq (walk s)) IDT24x_VCO_MAX) as [Hhi | Hhi];
      destruct (Z.leb_spec (vco_at freq (walk s)) IDT24x_VCO_OPT) as [Hopt | Hopt];
      destruct (Z.ltb_spec (best_vco s) (vco_at freq (walk s))) as [Hb | Hb];
      cbn [andb orb negb walk div is_lower_vco best_vco];
      rewrite ?Hl, ?Hnext;
      (split; [dlia |]); (split; [lia |]); right;
      first
        [ refine (conj Hsd' (conj Hdm (conj Hleg (conj Hbest _))));
          split_bound; scan_cases Hsc
        | refine (conj Hnew (conj Hle (conj (conj Hlo Hhi) (conj eq_refl _))));
          split_bound; scan_cases Hsc ].
Qed.

Lemma walk_loop_inv freq max_div :
  max_div <= 4000004000 ->
  forall fuel s,
    walk_inv freq max_div s ->
    max_div - walk s < 2 * Z.of_nat fuel ->
    exists s', walk_loop (S fuel) freq max_div s = Some s' /\
               walk_inv freq max_div s' /\ max_div < walk s'.
Proof.
  intros Hmax fuel. induction fuel as [| n IH]; intros s Hinv Hfuel.
  - exists s. simpl.
    destruct (Z.leb_spec (walk s) max_div) as [Hle | Hgt]; [lia |].
    auto.
  - cbn [walk_loop].
    destruct (Z.leb_spec (walk s) max_div) as [Hle | Hgt].
    + apply IH.
      * apply walk_step_inv; assumption.
      * assert (Hstep : walk (walk_step freq s) = walk s + 2).
        { destruct Hinv as (_ & Hw & _).
          unfold walk_step.
          repeat match goal with
                 | |- context [if ?b then _ else _] => destruct b
                 end; cbn [walk]; apply u32_small; lia. }
        lia.
    + exists s. auto.
Qed.

Lemma walk_loop_post freq max_div :
  max_div <= 4000004000 ->
  exists s,
    walk_loop (walk_fuel max_div) freq max_div walk_init = Some s /\
    search_post freq max_div s.
Proof.
  intros Hmax.
  destruct (walk_loop_inv freq max_div Hmax (Z.to_nat max_div) walk_init)
    as (s & Hrun & (Hev & Hw & Hst) & Hexit).
  - apply walk_inv_init.
  - unfold walk_init, IDT24x_MIN_INT_DIVIDER. cbn [walk]. lia.
  - exists s. split; [exact Hrun |].
    assert (Hcs : forall w, candidate max_div w -> scanned (walk s) w).
    { unfold candidate, scanned. intros w. lia. }
    unfold search_post, chosen.
    destruct Hst as [(Hd & _ & _ & Hnone) | (Hsd & Hdm & Hleg & Hbest & Hpol)].
    + left. split; [exact Hd |]. intros w Hc. apply Hnone, Hcs, Hc.
    + right.
      assert (Hcd : candidate max_div (div s)).
      { unfold candidate, scanned in *. lia. }
      split; [unfold candidate in Hcd; lia |].
      split; [exact Hcd |]. split; [exact Hleg |].
      rewrite <- Hbest.
      destruct (is_lower_vco s).
      * left. destruct Hpol as [Hbo Hpol]. split; [exact Hbo |].
        intros w Hc. apply Hpol, Hcs, Hc.
      * right. split; intros w Hc Hl; apply (Hpol w (Hcs w Hc) Hl).
Qed.

Lemma calc_divs_search_run freq w :
  u32 (freq * 2) <> 0 ->
  exists s, calc_divs_search freq w = Ok (s, w) /\
            search_post freq (max_div_of freq) s.
Proof.
  intros Hnz.
  destruct (walk_loop_post freq (max_div_of freq)) as (s & Hrun & Hpost).
  { apply max_div_of_bound, Hnz. }
  exists s. split; [| exact Hpost].
  unfold calc_divs_search, div64_u64, bind, ret.
  assert (Hd : u64 (u32 (freq * 2)) <> 0).
  { rewrite u64_small; [exact Hnz |].
    pose proof (u32_range (freq * 2)). lia. }
  apply Z.eqb_neq in Hd. rewrite Hd.
  fold (max_div_of freq). rewrite Hrun. reflexivity.
Qed.

Lemma calc_divs_search_fault freq w :
  u32 (freq * 2) = 0 -> calc_divs_search freq w = Fault DivideByZero.
Proof.
  intros Hz. unfold calc_divs_search, div64_u64, bind, raise.
  rewrite Hz. reflexivity.
Qed.

(** ** The divider calculation as a whole *)

Lemma logged_nil w : logged [] w = w.
Proof. destruct w. unfold logged. cbn. rewrite app_nil_r. reflexivity. Qed.

Lemma logged_logged l1 l2 w : logged l2 (logged l1 w) = logged (l1 ++ l2) w.
Proof. unfold logged. cbn. rewrite app_assoc. reflexivity. Qed.

Lemma printk_run m w : printk m w = Ok (tt, logged [m] w).
Proof. reflexivity. Qed.

Lemma when_printk b m w :
  when b (printk m) w = Ok (tt, logged (if b then [m] else []) w).
Proof. destruct b; cbn; [reflexivity | now rewrite logged_nil]. Qed.

Lemma bind_ok {A B} (m : M A) (k : A -> M B) w a w' :
  m w = Ok (a, w') -> bind m k w = k a w'.
Proof. intros H. unfold bind. rewrite H. reflexivity. Qed.

Lemma bind_fault {A B} (m : M A) (k : A -> M B) w f :
  m w = Fault f -> bind m k w = Fault f.
Proof. intros H. unfold bind. rewrite H. reflexivity. Qed.

Lemma calc_divs_no_freq divs w :
  frequencies (data w) !!! 2%nat = 0 ->
  idt24x_calc_divs divs w =
  Ok ((- EINVAL, divs),
      logged (unimplemented_log (data w) ++ [Q2_NOT_SPECIFIED]) w).
Proof.
  intros Hf. unfold idt24x_calc_divs.
  erewrite bind_ok by reflexivity.
  erewrite bind_ok by apply when_printk.
  erewrite bind_ok by apply when_printk.
  erewrite bind_ok by apply when_printk.
  cbn [data logged]. rewrite Hf. cbn [Z.eqb].
  erewrite bind_ok by apply printk_run.
  unfold ret, unimplemented_log.
  rewrite !logged_logged, <- !app_assoc. reflexivity.
Qed.

Lemma u64_u32 x : u64 (u32 x) = u32 x.
Proof. apply u64_small. pose proof (u32_range x). lia. Qed.

Lemma dsmfrac_arith vco pfd :
  0 <= vco < 2 ^ 32 -> 0 < pfd < 2 ^ 32 ->
  u32 (u64 (u64 (Z.shiftl (u64 (u64 vco mod u64 pfd * 1)) 21)) / u64 pfd)
  = vco mod pfd * 2 ^ 21 / pfd.
Proof.
  intros Hv Hp.
  rewrite (u64_small vco), (u64_small pfd) by lia.
  pose proof (Z.mod_pos_bound vco pfd ltac:(lia)) as Hr.
  rewrite Z.mul_1_r, (u64_small (vco mod pfd)) by lia.
  rewrite Z.shiftl_mul_pow2 by lia.
  assert (Hs : 0 <= vco mod pfd * 2 ^ 21 < 2 ^ 53) by lia.
  rewrite !(u64_small (vco mod pfd * 2 ^ 21)) by lia.
  apply u32_small. split.
  - apply Z.div_pos; lia.
  - apply Z.div_lt_upper_bound; lia.
Qed.

Lemma calc_divs_search_indep freq w1 w2 s1 s2 w1' w2' :
  calc_divs_search freq w1 = Ok (s1, w1') ->
  calc_divs_search freq w2 = Ok (s2, w2') ->
  s1 = s2.
Proof.
  unfold calc_divs_search, bind, div64_u64, ret, raise.
  destruct (u64 (u32 (freq * 2)) =? 0); [discriminate |].
  destruct (walk_loop _ _ _ _); [| discriminate].
  congruence.
Qed.

Lemma calc_divs_fault divs w :
  frequencies (data w) !!! 2%nat <> 0 ->
  u32 (frequencies (data w) !!! 2%nat * 2) = 0 ->
  idt24x_calc_divs divs w = Fault DivideByZero.
Proof.
  intros Hf Hz. unfold idt24x_calc_divs.
  erewrite bind_ok by reflexivity.
  erewrite bind_ok by apply when_printk.
  erewrite bind_ok by apply when_printk.
  erewrite bind_ok by apply when_printk.
  cbn [data logged].
  apply Z.eqb_neq in Hf. rewrite Hf.
  erewrite bind_fault by (apply calc_divs_search_fault; exact Hz).
  reflexivity.
Qed.

Lemma calc_divs_run divs w :
  let d := data w in
  let freq := frequencies d !!! 2%nat in
  freq <> 0 -> u32 (freq * 2) <> 0 ->
  exists s,
    calc_divs_search freq w = Ok (s, w) /\
    search_post freq (max_div_of freq) s /\
    idt24x_calc_divs divs w =
    if div s =? 0 then
      Ok ((- EINVAL, divs_cleared divs),
          logged (unimplemented_log d ++ [NO_DIVIDER_IN_RANGE]) w)
    else if pfd_of d =? 0 then Fault DivideByZero
    else
      Ok ((0, divs_found freq (pfd_of d) (div s) divs),
          logged (unimplemented_log d) w).
Proof.
  intros d freq Hf Hnz.
  destruct (calc_divs_search_run freq (logged (unimplemented_log d) w) Hnz)
    as (s & Hrun & Hpost).
  destruct (calc_divs_search_run freq w Hnz) as (s0 & Hrun0 & _).
  assert (s0 = s) by (eapply calc_divs_search_indep; eassumption).
  subst s0.
  exists s. split; [exact Hrun0 |]. split; [exact Hpost |].
  unfold idt24x_calc_divs.
  erewrite bind_ok by reflexivity.
  erewrite bind_ok by apply when_printk.
  erewrite bind_ok by apply when_printk.
  erewrite bind_ok by apply when_printk.
  cbn [data logged]. fold d. fold freq.
  apply Z.eqb_neq in Hf. rewrite Hf.
  rewrite !logged_logged.
  change ((if negb (frequencies d !!! 0%nat =? 0) then [Q0_NOT_IMPLEMENTED] else [])
          ++ (if negb (frequencies d !!! 1%nat =? 0) then [Q1_NOT_IMPLEMENTED] else [])
          ++ (if negb (frequencies d !!! 3%nat =? 0) then [Q3_NOT_IMPLEMENTED] else []))
    with (unimplemented_log d).
  erewrite bind_ok by exact Hrun.
  destruct (Z.eqb_spec (div s) 0) as [Hz | Hd]; cbn [negb].
  - erewrite bind_ok by apply printk_run.
    unfold ret. rewrite logged_logged. reflexivity.
  - assert (Hrange : 6 <= div s <= 4000004000).
    { destruct Hpost as [[Hz _] | [_ ((Hc & _) & _)]]; [contradiction |].
      pose proof (max_div_of_bound freq Hnz). lia. }
    unfold div64_u64 at 1. change (u64 2 =? 0) with false. cbv iota.
    erewrite bind_ok by reflexivity.
    unfold div64_u64_rem. rewrite u64_u32.
    fold (pfd_of d). unfold pfd_of at 1 2. rewrite u64_u32. fold (pfd_of d).
    destruct (Z.eqb_spec (pfd_of d) 0) as [Hp0 | Hp].
    + reflexivity.
    + erewrite bind_ok by reflexivity.
      unfold div64_u64. unfold pfd_of at 1. rewrite u64_u32. fold (pfd_of d).
      apply Z.eqb_neq in Hp as Hp'. rewrite Hp'.
      erewrite bind_ok by reflexivity.
      unfold ret, divs_found, vco_at. cbn [fst snd nint nfrac].
      rewrite (Z.mul_comm (div s) freq).
      assert (Hpr : 0 < pfd_of d < 2 ^ 32).
      { pose proof (u32_range ((if input_clk_freq d =? 0 then xtal_freq d
                                else input_clk_freq d)
                               * (if doubler_disabled d then 1 else 2))).
        unfold pfd_of in *. lia. }
      pose proof (u32_range (freq * div s)) as Hvr.
      do 3 f_equal. f_equal.
      * rewrite <- (dsmfrac_arith (u32 (freq * div s)) (pfd_of d)) by assumption.
        rewrite (u64_small (u32 (freq * div s))) by lia. reflexivity.
      * f_equal. rewrite (u64_small (div s)) by lia.
        change (u64 2) with 2. apply u32_small.
        split; [apply Z.div_pos; lia | apply Z.div_lt_upper_bound; lia].
Qed.

(** The budget of the loop is never used up: the calculation returns,
    or stops on a division by zero. *)
Lemma calc_divs_terminates divs w :
  idt24x_calc_divs divs w <> Fault LoopFuel.
Proof.
  destruct (Z.eq_dec (frequencies (data w) !!! 2%nat) 0) as [Hf0 | Hf0].
  { rewrite (calc_divs_no_freq divs w Hf0). discriminate. }
  destruct (Z.eq_dec (u32 (frequencies (data w) !!! 2%nat * 2)) 0)
    as [Hz | Hnz].
  { rewrite (calc_divs_fault divs w Hf0 Hz). discriminate. }
  destruct (calc_divs_run divs w Hf0 Hnz) as (s & _ & _ & Hrun).
  rewrite Hrun.
  destruct (div s =? 0); [discriminate |].
  destruct (pfd_of (data w) =? 0); discriminate.
Qed.

(** Every reference between 1 Hz and 2^31 - 1 Hz, from the upstream
    clock or from the crystal, gives a phase detector frequency that is
    not zero. *)
Lemma pfd_of_nonzero d :
  0 < (if input_clk_freq d =? 0 then xtal_freq d else input_clk_freq d)
    < 2 ^ 31 ->
  pfd_of d <> 0.
Proof.
  intros Href. unfold pfd_of.
  rewrite u32_small; destruct (doubler_disabled d); lia.
Qed.

(** Inside the supported output range nothing wraps: [max_div] is twice
    the quotient of [VCO_MAX] by twice the frequency, and the VCO of a
    candidate is the exact product. *)
Lemma max_div_in_range f :
  IDT24x_MIN_FREQ <= f <= IDT24x_MAX_FREQ ->
  u32 (f * 2) = f * 2 /\ max_div_of f = IDT24x_VCO_MAX / (f * 2) * 2.
Proof.
  unfold IDT24x_MIN_FREQ, IDT24x_MAX_FREQ. intros Hf.
  assert (Hu : u32 (f * 2) = f * 2) by (apply u32_small; lia).
  split; [exact Hu |].
  rewrite max_div_of_eq by lia. rewrite Hu. reflexivity.
Qed.

Lemma vco_at_exact f w :
  IDT24x_MIN_FREQ <= f <= IDT24x_MAX_FREQ ->
  candidate (max_div_of f) w ->
  vco_at f w = f * w /\ f * w <= IDT24x_VCO_MAX.
Proof.
  intros Hf (Hw & Hev).
  destruct (max_div_in_range f Hf) as [_ Hmax]. rewrite Hmax in Hw.
  unfold IDT24x_MIN_FREQ, IDT24x_MAX_FREQ in Hf.
  assert (Hq : f * 2 * (IDT24x_VCO_MAX / (f * 2)) <= IDT24x_VCO_MAX).
  { apply Z.mul_div_le. lia. }
  assert (Hprod : f * w <= IDT24x_VCO_MAX) by nia.
  split; [| exact Hprod].
  unfold vco_at. apply u32_small. unfold IDT24x_VCO_MAX in Hprod. nia.
Qed.

(** C1: for a frequency [f] of output 2 between 1 MHz and 300 MHz,
    whenever [idt24x_calc_divs] returns, it returns [-EINVAL] or it
    returns 0 with the selected divider [d] (an even number from 6 on,
    stored halved in [nint[1]]) such that [f * d] lies in
    [[2999997000, 4000004000]]; and it does return when the reference
    gives a phase detector frequency that is not zero. *)
Theorem calc_divs_vco_in_range divs w :
  IDT24x_MIN_FREQ <= frequencies (data w) !!! 2%nat <= IDT24x_MAX_FREQ ->
  (forall e divs' w',
      idt24x_calc_divs divs w = Ok ((e, divs'), w') ->
      e = - EINVAL \/
      (e = 0 /\
       exists s,
         calc_divs_search (frequencies (data w) !!! 2%nat) w = Ok (s, w) /\
         nint divs' = <[1%nat := div s / 2]> (nint divs) /\
         6 <= div s /\ div s mod 2 = 0 /\
         IDT24x_VCO_MIN <= frequencies (data w) !!! 2%nat * div s
                        <= IDT24x_VCO_MAX)) /\
  (pfd_of (data w) <> 0 ->
   exists e divs' w', idt24x_calc_divs divs w = Ok ((e, divs'), w')).
Proof.
  intros Hf.
  destruct (max_div_in_range _ Hf) as [Hu _].
  assert (Hf0 : frequencies (data w) !!! 2%nat <> 0)
    by (unfold IDT24x_MIN_FREQ in Hf; lia).
  assert (Hnz : u32 (frequencies (data w) !!! 2%nat * 2) <> 0)
    by (rewrite Hu; lia).
  destruct (calc_divs_run divs w Hf0 Hnz) as (s & Hsearch & Hpost & Hrun).
  split.
  - intros e divs' w' Hret. rewrite Hret in Hrun.
    destruct (Z.eqb_spec (div s) 0) as [Hz | Hd].
    { injection Hrun as -> _ _. now left. }
    destruct (pfd_of (data w) =? 0); [discriminate Hrun |].
    injection Hrun as -> -> _. right. split; [reflexivity |].
    destruct Hpost as [[Hz _] | [_ (Hc & Hleg & _)]]; [contradiction |].
    destruct (vco_at_exact _ _ Hf Hc) as [Hex _].
    unfold legal in Hleg. rewrite Hex in Hleg.
    destruct Hc as [Hc1 Hc2].
    exists s. split; [exact Hsearch |]. cbn [divs_found nint].
    repeat split; lia.
  - intros Hpfd. apply Z.eqb_neq in Hpfd. rewrite Hpfd in Hrun.
    destruct (div s =? 0); eauto.
Qed.

Lemma calc_divs_vco_in_range_witness :
  (0 = - EINVAL \/
   (0 = 0 /\
    exists s,
      calc_divs_search 125000000 world_125MHz = Ok (s, world_125MHz) /\
      nint divs_125MHz = <[1%nat := div s / 2]> (nint example_divs) /\
      6 <= div s /\ div s mod 2 = 0 /\
      IDT24x_VCO_MIN <= 125000000 * div s <= IDT24x_VCO_MAX)) /\
  (exists e divs' w',
      idt24x_calc_divs example_divs world_125MHz = Ok ((e, divs'), w')).
Proof.
  destruct (calc_divs_vco_in_range example_divs world_125MHz)
    as [Hret Hruns].
  - vm_compute. split; discriminate.
  - split.
    + apply (Hret 0 divs_125MHz world_125MHz). vm_compute. reflexivity.
    + apply Hruns. vm_compute. discriminate.
Defined.

(** C2: whenever some candidate (an even divider from 6 to [max_div])
    has its VCO inside the legal range, [idt24x_calc_divs] succeeds and
    the divider it selects is a legal candidate such that: if its VCO is
    at most 3.5 GHz, no legal candidate at or below 3.5 GHz has a higher
    VCO; otherwise no legal candidate is at or below 3.5 GHz and none has
    a higher VCO.  "Candidates" are those that passed the range check. *)
Theorem calc_divs_tie_break divs w :
  u32 (frequencies (data w) !!! 2%nat * 2) <> 0 ->
  pfd_of (data w) <> 0 ->
  (exists c, candidate (max_div_of (frequencies (data w) !!! 2%nat)) c /\
             legal (frequencies (data w) !!! 2%nat) c) ->
  exists s divs' w',
    idt24x_calc_divs divs w = Ok ((0, divs'), w') /\
    calc_divs_search (frequencies (data w) !!! 2%nat) w = Ok (s, w) /\
    nint divs' = <[1%nat := div s / 2]> (nint divs) /\
    candidate (max_div_of (frequencies (data w) !!! 2%nat)) (div s) /\
    legal (frequencies (data w) !!! 2%nat) (div s) /\
    ((vco_at (frequencies (data w) !!! 2%nat) (div s) <= IDT24x_VCO_OPT /\
      forall c, candidate (max_div_of (frequencies (data w) !!! 2%nat)) c ->
                legal (frequencies (data w) !!! 2%nat) c ->
                vco_at (frequencies (data w) !!! 2%nat) c <= IDT24x_VCO_OPT ->
                vco_at (frequencies (data w) !!! 2%nat) c
                <= vco_at (frequencies (data w) !!! 2%nat) (div s))
     \/
     ((forall c, candidate (max_div_of (frequencies (data w) !!! 2%nat)) c ->
                 legal (frequencies (data w) !!! 2%nat) c ->
                 IDT24x_VCO_OPT < vco_at (frequencies (data w) !!! 2%nat) c) /\
      forall c, candidate (max_div_of (frequencies (data w) !!! 2%nat)) c ->
                legal (frequencies (data w) !!! 2%nat) c ->
                vco_at (frequencies (data w) !!! 2%nat) c
                <= vco_at (frequencies (data w) !!! 2%nat) (div s))).
Proof.
  intros Hnz Hpfd (c & Hc & Hleg).
  assert (Hf0 : frequencies (data w) !!! 2%nat <> 0).
  { intros E. rewrite E in Hnz. apply Hnz. reflexivity. }
  destruct (calc_divs_run divs w Hf0 Hnz) as (s & Hsearch & Hpost & Hrun).
  destruct Hpost as [[_ Hnone] | [Hd (Hcd & Hld & Hpol)]].
  - exfalso. exact (Hnone c Hc Hleg).
  - apply Z.eqb_neq in Hd, Hpfd. rewrite Hd, Hpfd in Hrun.
    eexists s, _, _. split; [exact Hrun |].
    split; [exact Hsearch |]. cbn [divs_found nint].
    split; [reflexivity |]. split; [exact Hcd |]. split; [exact Hld |].
    exact Hpol.
Qed.

Lemma calc_divs_tie_break_witness :
  exists s divs' w',
    idt24x_calc_divs example_divs world_125MHz = Ok ((0, divs'), w') /\
    calc_divs_search 125000000 world_125MHz = Ok (s, world_125MHz) /\
    nint divs' = <[1%nat := div s / 2]> (nint example_divs) /\
    candidate (max_div_of 125000000) (div s) /\
    legal 125000000 (div s) /\
    ((vco_at 125000000 (div s) <= IDT24x_VCO_OPT /\
      forall c, candidate (max_div_of 125000000) c -> legal 125000000 c ->
                vco_at 125000000 c <= IDT24x_VCO_OPT ->
                vco_at 125000000 c <= vco_at 125000000 (div s))
     \/
     ((forall c, candidate (max_div_of 125000000) c -> legal 125000000 c ->
                 IDT24x_VCO_OPT < vco_at 125000000 c) /\
      forall c, candidate (max_div_of 125000000) c -> legal 125000000 c ->
                vco_at 125000000 c <= vco_at 125000000 (div s))).
Proof.
  apply (calc_divs_tie_break example_divs world_125MHz).
  - vm_compute. discriminate.
  - vm_compute. discriminate.
  - exists 24. split.
    + vm_compute. repeat split; discriminate.
    + vm_compute. split; discriminate.
Defined.

(** C3: 125 MHz on output 2 from a 25 MHz reference with the doubler
    enabled (pfd = 50 MHz): the search ends with divider 28, whose VCO is
    3500000000, and the calculation returns 0 with [dsmint = 70],
    [dsmfrac = 0] and [nint[1] = 14]. *)
Theorem calc_divs_125MHz divs :
  pfd_of (data world_125MHz) = 50000000 /\
  calc_divs_search 125000000 world_125MHz
  = Ok ({| walk := 34; div := 28; is_lower_vco := true;
           best_vco := 3500000000 |}, world_125MHz) /\
  vco_at 125000000 28 = 3500000000 /\
  idt24x_calc_divs divs world_125MHz
  = Ok ((0, {| dsmint := 70; dsmfrac := 0; ns1_q0 := 0; ns2_q0 := 0;
               nint := <[1%nat := 14]> (nint divs);
               nfrac := <[1%nat := 0]> (nfrac divs) |}), world_125MHz).
Proof.
  eval_conj.
Qed.

(** The two branches of the policy and the failure of the search, on
    concrete frequencies: at 300 MHz divider 10 (VCO 3.0 GHz) is the
    highest at or below the optimum; at 295 MHz no legal candidate is at
    or below the optimum and divider 12 (VCO 3.54 GHz) is taken; at
    700 MHz the loop is not entered. *)
Example search_300MHz :
  returned (calc_divs_search 300000000 world_idle)
  = Some {| walk := 14; div := 10; is_lower_vco := true;
            best_vco := 3000000000 |}.
Proof. vm_compute. reflexivity. Qed.

Example search_295MHz :
  returned (calc_divs_search 295000000 world_idle)
  = Some {| walk := 14; div := 12; is_lower_vco := false;
            best_vco := 3540000000 |}.
Proof. vm_compute. reflexivity. Qed.

Example search_700MHz :
  returned (calc_divs_search 700000000 world_idle)
  = Some {| walk := 6; div := 0; is_lower_vco := false; best_vco := 0 |}.
Proof. vm_compute. reflexivity. Qed.

(** C4, refuted as stated: with 125 MHz from a 26 kHz reference the VCO
    is 3500000000 and pfd is 26000; floor(vco / pfd) is 134615 but the
    16-bit field holds 3543, and the fractional field holds 806596 where
    the nearest integer to 10000 * 2^21 / 26000 is 806597. *)
Lemma calc_divs_dsm_fields_counterexample :
  exists s divs' w',
    idt24x_calc_divs example_divs world_26kHz = Ok ((0, divs'), w') /\
    calc_divs_search 125000000 world_26kHz = Ok (s, world_26kHz) /\
    vco_at 125000000 (div s) = 3500000000 /\
    pfd_of (data world_26kHz) = 26000 /\
    dsmint divs' <> 3500000000 / 26000 /\
    ~ rounds_to_nearest (dsmfrac divs') (3500000000 mod 26000 * 2 ^ 21) 26000.
Proof.
  eexists _, _, _.
  split; [vm_compute; reflexivity |].
  split; [vm_compute; reflexivity |].
  split; [vm_compute; reflexivity |].
  split; [vm_compute; reflexivity |].
  split; [vm_compute; discriminate |].
  unfold rounds_to_nearest. vm_compute. intros H. apply H. reflexivity.
Qed.

(** C4, amended: after a successful calculation with selected divider
    [d], [vco = freq * d] (as a u32) and [pfd > 0], [dsmint] holds
    [floor(vco / pfd)] reduced modulo 2^16 (the value itself when it is
    below 65536) and [dsmfrac] holds [floor((vco mod pfd) * 2^21 / pfd)]:
    the remainder is multiplied by 2^21 before the division, and the
    division truncates. *)
Theorem calc_divs_dsm_fields divs w divs' w' :
  idt24x_calc_divs divs w = Ok ((0, divs'), w') ->
  exists s,
    calc_divs_search (frequencies (data w) !!! 2%nat) w = Ok (s, w) /\
    0 < pfd_of (data w) /\
    dsmint divs'
    = (vco_at (frequencies (data w) !!! 2%nat) (div s) / pfd_of (data w))
      mod 2 ^ 16 /\
    (vco_at (frequencies (data w) !!! 2%nat) (div s) / pfd_of (data w)
     < 2 ^ 16 ->
     dsmint divs'
     = vco_at (frequencies (data w) !!! 2%nat) (div s) / pfd_of (data w)) /\
    dsmfrac divs'
    = vco_at (frequencies (data w) !!! 2%nat) (div s) mod pfd_of (data w)
      * 2 ^ 21 / pfd_of (data w).
Proof.
  intros Hrun.
  destruct (Z.eq_dec (frequencies (data w) !!! 2%nat) 0) as [Hf0 | Hf0].
  { rewrite (calc_divs_no_freq divs w Hf0) in Hrun. discriminate Hrun. }
  destruct (Z.eq_dec (u32 (frequencies (data w) !!! 2%nat * 2)) 0)
    as [Hz | Hnz].
  { rewrite (calc_divs_fault divs w Hf0 Hz) in Hrun. discriminate Hrun. }
  destruct (calc_divs_run divs w Hf0 Hnz) as (s & Hsearch & Hpost & Hrun').
  rewrite Hrun in Hrun'.
  destruct (div s =? 0); [discriminate Hrun' |].
  destruct (Z.eqb_spec (pfd_of (data w)) 0) as [Hp | Hp];
    [discriminate Hrun' |].
  injection Hrun' as -> _.
  exists s. split; [exact Hsearch |].
  assert (Hpos : 0 < pfd_of (data w)).
  { pose proof (u32_range ((if input_clk_freq (data w) =? 0
                            then xtal_freq (data w)
                            else input_clk_freq (data w))
                           * (if doubler_disabled (data w) then 1 else 2))).
    unfold pfd_of in *. lia. }
  split; [exact Hpos |]. cbn [divs_found dsmint dsmfrac].
  split; [reflexivity |]. split; [| reflexivity].
  intros Hsmall. apply Z.mod_small. split; [| exact Hsmall].
  apply Z.div_pos; [| exact Hpos].
  apply u32_range.
Qed.

Lemma calc_divs_dsm_fields_witness :
  exists s,
    calc_divs_search 125000000 world_125MHz = Ok (s, world_125MHz) /\
    0 < 50000000 /\
    70 = (vco_at 125000000 (div s) / 50000000) mod 2 ^ 16 /\
    (vco_at 125000000 (div s) / 50000000 < 2 ^ 16 ->
     70 = vco_at 125000000 (div s) / 50000000) /\
    0 = vco_at 125000000 (div s) mod 50000000 * 2 ^ 21 / 50000000.
Proof.
  apply (calc_divs_dsm_fields example_divs world_125MHz
           {| dsmint := 70; dsmfrac := 0; ns1_q0 := 0; ns2_q0 := 0;
              nint := <[1%nat := 14]> (nint example_divs);
              nfrac := <[1%nat := 0]> (nfrac example_divs) |}
           world_125MHz).
  vm_compute. reflexivity.
Defined.

(** C8, refuted as stated: with 25 MHz requested on Q0 next to 125 MHz
    on Q2 the calculation prints the Q0 line and returns 0 with the
    dividers of Q2. *)
Lemma calc_divs_unimplemented_counterexample :
  idt24x_calc_divs example_divs world_q0_requested
  = Ok ((0, {| dsmint := 70; dsmfrac := 0; ns1_q0 := 0; ns2_q0 := 0;
               nint := [0x1111; 14; 0x3333];
               nfrac := [0x4444; 0; 0x6666] |}),
        logged [Q0_NOT_IMPLEMENTED] world_q0_requested).
Proof. vm_compute. reflexivity. Qed.

(** C8, amended: a non-zero frequency on output 0, 1 or 3 makes
    [idt24x_calc_divs] print the NOT IMPLEMENTED line of that output and
    go on.  The value it returns is the one it returns for the same
    request with any other frequencies on outputs 0, 1 and 3; when it
    returns, the code is 0 or [-EINVAL] and the log has grown by the
    lines of [unimplemented_log] followed by the line of the error, if
    any. *)
Theorem calc_divs_unimplemented divs w :
  (forall fs,
      fs !!! 2%nat = frequencies (data w) !!! 2%nat ->
      returned (idt24x_calc_divs divs (with_frequencies fs w))
      = returned (idt24x_calc_divs divs w)) /\
  (forall e divs' w',
      idt24x_calc_divs divs w = Ok ((e, divs'), w') ->
      (e = 0 \/ e = - EINVAL) /\
      exists tail,
        w' = logged (unimplemented_log (data w) ++ tail) w /\
        (e = 0 -> tail = [])).
Proof.
  split.
  - intros fs Hfs.
    set (w2 := with_frequencies fs w).
    assert (Hf2 : frequencies (data w2) !!! 2%nat
                  = frequencies (data w) !!! 2%nat) by exact Hfs.
    assert (Hp2 : pfd_of (data w2) = pfd_of (data w)) by reflexivity.
    destruct (Z.eq_dec (frequencies (data w) !!! 2%nat) 0) as [Hf0 | Hf0].
    { rewrite (calc_divs_no_freq divs w Hf0).
      rewrite (calc_divs_no_freq divs w2) by (rewrite Hf2; exact Hf0).
      reflexivity. }
    destruct (Z.eq_dec (u32 (frequencies (data w) !!! 2%nat * 2)) 0)
      as [Hz | Hnz].
    { rewrite (calc_divs_fault divs w Hf0 Hz).
      rewrite (calc_divs_fault divs w2) by (rewrite Hf2; assumption).
      reflexivity. }
    destruct (calc_divs_run divs w Hf0 Hnz) as (s & Hs & _ & Hrun).
    destruct (calc_divs_run divs w2) as (s2 & Hs2 & _ & Hrun2);
      [rewrite Hf2; exact Hf0 | rewrite Hf2; exact Hnz |].
    rewrite Hf2 in Hs2, Hrun2. rewrite Hp2 in Hrun2.
    assert (s2 = s) by (eapply calc_divs_search_indep; eassumption).
    subst s2. rewrite Hrun, Hrun2.
    destruct (div s =? 0); [reflexivity |].
    destruct (pfd_of (data w) =? 0); reflexivity.
  - intros e divs' w' Hrun.
    destruct (Z.eq_dec (frequencies (data w) !!! 2%nat) 0) as [Hf0 | Hf0].
    { rewrite (calc_divs_no_freq divs w Hf0) in Hrun.
      injection Hrun as <- _ <-. split; [now right |].
      exists [Q2_NOT_SPECIFIED]. split; [reflexivity | discriminate]. }
    destruct (Z.eq_dec (u32 (frequencies (data w) !!! 2%nat * 2)) 0)
      as [Hz | Hnz].
    { rewrite (calc_divs_fault divs w Hf0 Hz) in Hrun. discriminate Hrun. }
    destruct (calc_divs_run divs w Hf0 Hnz) as (s & _ & _ & Hrun').
    rewrite Hrun in Hrun'.
    destruct (div s =? 0).
    { injection Hrun' as -> _ ->. split; [now right |].
      exists [NO_DIVIDER_IN_RANGE]. split; [reflexivity | discriminate]. }
    destruct (pfd_of (data w) =? 0); [discriminate Hrun' |].
    injection Hrun' as -> _ ->. split; [now left |].
    exists []. rewrite app_nil_r. split; reflexivity.
Qed.

Lemma calc_divs_unimplemented_witness :
  returned (idt24x_calc_divs example_divs
              (with_frequencies [0; 0; 125000000; 0] world_q0_requested))
  = returned (idt24x_calc_divs example_divs world_q0_requested) /\
  ((0 = 0 \/ 0 = - EINVAL) /\
   exists tail,
     logged [Q0_NOT_IMPLEMENTED] world_q0_requested
     = logged (unimplemented_log (data world_q0_requested) ++ tail)
         world_q0_requested /\
     (0 = 0 -> tail = [])).
Proof.
  destruct (calc_divs_unimplemented example_divs world_q0_requested)
    as [Hindep Hlog].
  split.
  - apply Hindep. vm_compute. reflexivity.
  - apply (Hlog 0 {| dsmint := 70; dsmfrac := 0; ns1_q0 := 0; ns2_q0 := 0;
                     nint := [0x1111; 14; 0x3333];
                     nfrac := [0x4444; 0; 0x6666] |}).
    vm_compute. reflexivity.
Defined.

(** ** Masked writes *)

Lemma forallb_seqZ (P : Z -> bool) lo n x :
  forallb P (seqZ lo n) = true -> lo <= x < lo + n -> P x = true.
Proof.
  intros Hall Hx. rewrite forallb_forall in Hall. apply Hall.
  apply list_elem_of_In, elem_of_seqZ. exact Hx.
Qed.

(** [bits_to_shift] computes the number of trailing zeros of every
    non-zero 8-bit mask. *)
Lemma bits_to_shift_trailing_zeros m :
  0 < m < 256 -> bits_to_shift m = trailing_zeros m.
Proof.
  intros Hm. apply Z.eqb_eq.
  apply (forallb_seqZ (fun m => bits_to_shift m =? trailing_zeros m) 1 255);
    [vm_compute; reflexivity | lia].
Qed.

(** [trailing_zeros] is the position of the lowest set bit. *)
Lemma trailing_zeros_lowest m :
  0 < m < 256 ->
  Z.testbit m (trailing_zeros m) = true /\
  forall i, 0 <= i < trailing_zeros m -> Z.testbit m i = false.
Proof.
  intros Hm.
  assert (H : Z.testbit m (trailing_zeros m)
              && forallb (fun i => negb (Z.testbit m i) || (trailing_zeros m <=? i))
                   (seqZ 0 8) = true).
  { apply (forallb_seqZ
             (fun m => Z.testbit m (trailing_zeros m)
                       && forallb (fun i => negb (Z.testbit m i)
                                            || (trailing_zeros m <=? i))
                            (seqZ 0 8)) 1 255);
      [vm_compute; reflexivity | lia]. }
  apply andb_true_iff in H as [Hbit Hlow]. split; [exact Hbit |].
  intros i Hi.
  assert (Hle : trailing_zeros m <= 8).
  { apply Z.leb_le.
    apply (forallb_seqZ (fun m => trailing_zeros m <=? 8) 1 255);
      [vm_compute; reflexivity | lia]. }
  pose proof (forallb_seqZ _ 0 8 i Hlow ltac:(lia)) as Hi'.
  apply orb_true_iff in Hi' as [Hi' | Hi'].
  - apply negb_true_iff, Hi'.
  - apply Z.leb_le in Hi'. lia.
Qed.

Lemma byte_high_bits x i : 0 <= x < 256 -> 8 <= i -> Z.testbit x i = false.
Proof.
  intros Hx Hi. rewrite <- (Z.mod_small x (2 ^ 8)) by lia.
  apply Z.mod_pow2_bits_high. lia.
Qed.

Lemma byte_of_bits x :
  0 <= x -> (forall i, 8 <= i -> Z.testbit x i = false) -> 0 <= x < 256.
Proof.
  intros Hx Hhigh.
  assert (E : x mod 2 ^ 8 = x).
  { apply Z.bits_inj'. intros i Hi.
    destruct (Z.lt_ge_cases i 8) as [Hlt | Hge].
    - apply Z.mod_pow2_bits_low. exact Hlt.
    - rewrite Z.mod_pow2_bits_high by lia. symmetry. apply Hhigh, Hge. }
  pose proof (Z.mod_pos_bound x (2 ^ 8) ltac:(lia)). lia.
Qed.

Lemma masked_byte_bits V S M i :
  0 <= i ->
  Z.testbit (masked_byte V S M) i
  = (Z.testbit (Z.shiftl V (trailing_zeros M)) i && Z.testbit M i)
    || (Z.testbit S i && negb (Z.testbit M i)).
Proof.
  intros Hi. unfold masked_byte.
  rewrite Z.lor_spec, !Z.land_spec, Z.lnot_spec by exact Hi. reflexivity.
Qed.

Lemma masked_byte_range V S M :
  0 <= S < 256 -> 0 <= M < 256 -> 0 <= masked_byte V S M < 256.
Proof.
  intros HS HM. apply byte_of_bits.
  - unfold masked_byte. apply Z.lor_nonneg. split.
    + apply Z.land_nonneg. right. lia.
    + apply Z.land_nonneg. left. lia.
  - intros i Hi. rewrite masked_byte_bits by lia.
    rewrite (byte_high_bits M i), (byte_high_bits S i) by lia.
    rewrite andb_false_r. reflexivity.
Qed.

(** ** Bus writes *)

Lemma write_attempts_spec n reg val w :
  exists e w',
    write_attempts n reg val w = Ok (e, w') /\
    data w' = data w /\ klog w' = klog w /\
    ((e = 0 /\ regs w' = <[reg := val]> (regs w)) \/
     (e <> 0 /\ regs w' = regs w)).
Proof.
  revert w. induction n as [| n IH]; intros w; cbn [write_attempts];
    unfold bind, regmap_write, ret;
    destruct (bus_errors w) as [| e rest]; cbn;
    try (eexists 0, _; split; [reflexivity |]; cbn; auto; fail);
    destruct (Z.eqb_spec e 0) as [-> | He]; cbn;
    try (eexists 0, _; split; [reflexivity |]; cbn; auto; fail).
  - apply Z.eqb_neq in He as He'. rewrite He'.
    eexists e, _. split; [reflexivity |]. cbn. auto.
  - apply Z.eqb_neq in He as He'. rewrite He'.
    destruct (IH {| data := data w; regs := regs w; bus_errors := rest;
                    klog := klog w |}) as (e2 & w2 & Hrun & Hd & Hk & Hr).
    exists e2, w2. auto.
Qed.

Lemma i2cwrite_spec reg val w :
  exists e w',
    i2cwrite reg val w = Ok (e, w') /\
    data w' = data w /\
    klog w' = klog w ++ [I2C_write (u32 reg) (u32 val)] /\
    ((e = 0 /\ regs w' = <[u32 reg := u32 val]> (regs w)) \/
     (e <> 0 /\ regs w' = regs w)).
Proof.
  unfold i2cwrite, regmapWriteWithRetry.
  erewrite bind_ok by apply printk_run.
  destruct (write_attempts_spec (Z.to_nat 5) (u32 reg) (u32 val)
              (logged [I2C_write (u32 reg) (u32 val)] w))
    as (e & w' & Hrun & Hd & Hk & Hr).
  exists e, w'. auto.
Qed.

(** The retry loop gives up after the sixth failed transaction. *)
Example i2cwrite_five_failures :
  returned (i2cwrite 0x26 70
              {| data := data world_idle; regs := ∅;
                 bus_errors := [-5; -5; -5; -5; -5]; klog := [] |})
  = Some 0.
Proof. vm_compute. reflexivity. Qed.

Example i2cwrite_six_failures :
  returned (i2cwrite 0x26 70
              {| data := data world_idle; regs := ∅;
                 bus_errors := [-5; -5; -5; -5; -5; -5]; klog := [] |})
  = Some (-5).
Proof. vm_compute. reflexivity. Qed.

(** C5: for 8-bit [S], [M] and [V], the masked-write helper hands
    [i2cwrite] the byte [((V << tz(M)) & M) | (S & ~M)], where [tz] is the
    number of trailing zeros of the mask; that byte is the one printed in
    the transaction line and, when the write succeeds, the one the
    register holds; it agrees with [S] on every bit that [M] does not
    cover. *)
Theorem i2cwritewithmask_preserves reg V S M w :
  0 <= S < 256 -> 0 <= M < 256 -> 0 <= V < 256 ->
  i2cwritewithmask reg V S M = i2cwrite reg (masked_byte V S M) /\
  (exists e w',
      i2cwritewithmask reg V S M w = Ok (e, w') /\
      klog w' = klog w ++ [I2C_write (u32 reg) (masked_byte V S M)] /\
      (e = 0 -> regs w' !! u32 reg = Some (masked_byte V S M))) /\
  (forall i, 0 <= i -> Z.testbit M i = false ->
             Z.testbit (masked_byte V S M) i = Z.testbit S i).
Proof.
  intros HS HM HV.
  assert (Heq : i2cwritewithmask reg V S M = i2cwrite reg (masked_byte V S M)).
  { unfold i2cwritewithmask, masked_byte, u8.
    rewrite !Z.mod_small by lia.
    destruct (Z.eq_dec M 0) as [-> | HM0].
    - rewrite !Z.land_0_r. reflexivity.
    - rewrite bits_to_shift_trailing_zeros by lia. reflexivity. }
  split; [exact Heq |]. split.
  - rewrite Heq.
    destruct (i2cwrite_spec reg (masked_byte V S M) w)
      as (e & w' & Hrun & _ & Hk & Hr).
    pose proof (masked_byte_range V S M HS HM) as Hb.
    rewrite (u32_small (masked_byte V S M)) in Hk, Hr by lia.
    exists e, w'. split; [exact Hrun |]. split; [exact Hk |].
    intros He. destruct Hr as [[_ Hr] | [Hne _]]; [| contradiction].
    rewrite Hr. apply lookup_insert_eq.
  - intros i Hi HMi. rewrite masked_byte_bits by exact Hi.
    rewrite HMi, andb_false_r, andb_true_r. reflexivity.
Qed.

Lemma i2cwritewithmask_preserves_witness :
  i2cwritewithmask IDT24x_REG_NS1_Q0 0x02 0xFD 0x03
  = i2cwrite IDT24x_REG_NS1_Q0 (masked_byte 0x02 0xFD 0x03) /\
  (exists e w',
      i2cwritewithmask IDT24x_REG_NS1_Q0 0x02 0xFD 0x03 world_125MHz
      = Ok (e, w') /\
      klog w' = klog world_125MHz
                ++ [I2C_write (u32 IDT24x_REG_NS1_Q0)
                      (masked_byte 0x02 0xFD 0x03)] /\
      (e = 0 -> regs w' !! u32 IDT24x_REG_NS1_Q0
                = Some (masked_byte 0x02 0xFD 0x03))) /\
  (forall i, 0 <= i -> Z.testbit 0x03 i = false ->
             Z.testbit (masked_byte 0x02 0xFD 0x03) i = Z.testbit 0xFD i).
Proof.
  apply (i2cwritewithmask_preserves IDT24x_REG_NS1_Q0 0x02 0xFD 0x03
           world_125MHz); lia.
Defined.

(** ** Output enable bookkeeping *)

Lemma get_offsets_masks so k :
  0 <= k <= 3 ->
  exists o, idt24x_get_offsets k so = (0, o) /\
            oe_mask o = 2 ^ k /\ dis_mask o = 2 ^ k /\
            bits_to_shift (2 ^ k) = k.
Proof.
  intros Hk.
  assert (Hcases : k = 0 \/ k = 1 \/ k = 2 \/ k = 3) by lia.
  destruct Hcases as [-> | [-> | [-> | ->]]];
    eexists; (split; [reflexivity |]); repeat split.
Qed.

(** Bit [b] of a shadow byte after bit [k] was cleared and, when [en]
    holds, set again. *)
Lemma merge_bit r k en b :
  0 <= k -> 0 <= b < 8 ->
  Z.testbit
    (if en : bool
     then u8 (Z.lor (u8 (Z.land r (Z.lnot (2 ^ k)))) (Z.shiftl 1 k))
     else u8 (Z.land r (Z.lnot (2 ^ k)))) b
  = if b =? k then en else Z.testbit r b.
Proof.
  intros Hk Hb. unfold u8.
  destruct en;
    rewrite ?Z.mod_pow2_bits_low, ?Z.lor_spec, ?Z.mod_pow2_bits_low,
      ?Z.land_spec, ?Z.lnot_spec, ?Z.shiftl_1_l, ?Z.pow2_bits_eqb by lia;
    rewrite (Z.eqb_sym k b); destruct (b =? k);
    cbn; rewrite ?andb_false_r, ?andb_true_r, ?orb_false_r; reflexivity.
Qed.

Lemma enable_output_spec so k en w :
  0 <= k <= 3 ->
  exists e w' tail,
    idt24x_enable_output so k en w = Ok (e, w') /\
    data w' = set_enable_regs (regOUTENx (data w')) (regQxDIS (data w'))
                (data w) /\
    (forall b, 0 <= b < 8 ->
       Z.testbit (regOUTENx (data w')) b
       = (if b =? k then en else Z.testbit (regOUTENx (data w)) b) /\
       Z.testbit (regQxDIS (data w')) b
       = (if b =? k then negb en else Z.testbit (regQxDIS (data w)) b)) /\
    klog w' = klog w
              ++ I2C_write IDT24x_REG_OUTEN (regOUTENx (data w')) :: tail /\
    (tail = [] \/
     tail = [I2C_write IDT24x_REG_Q_DIS (regQxDIS (data w'))]) /\
    (e = 0 ->
     regs w' !! IDT24x_REG_OUTEN = Some (regOUTENx (data w')) /\
     regs w' !! IDT24x_REG_Q_DIS = Some (regQxDIS (data w'))) /\
    (forall a, a <> IDT24x_REG_OUTEN -> a <> IDT24x_REG_Q_DIS ->
               regs w' !! a = regs w !! a).
Proof.
  intros Hk.
  destruct (get_offsets_masks so k Hk) as (o & Hget & Hoe & Hdis & Hshift).
  unfold idt24x_enable_output. rewrite Hget. cbn [Z.eqb negb].
  rewrite Hoe, Hdis, Hshift.
  erewrite bind_ok by reflexivity.
  set (outen := if en then _ else _).
  set (qdis := if negb en then _ else _).
  erewrite bind_ok by reflexivity.
  assert (Hbyte : forall x, u32 (u8 x) = u8 x).
  { intros x. apply u32_small. unfold u8.
    pose proof (Z.mod_pos_bound x (2 ^ 8) ltac:(lia)). lia. }
  assert (Ho32 : u32 outen = outen)
    by (subst outen; destruct en; apply Hbyte).
  assert (Hq32 : u32 qdis = qdis)
    by (subst qdis; destruct en; apply Hbyte).
  assert (Hbits : forall b, 0 <= b < 8 ->
            Z.testbit outen b
            = (if b =? k then en else Z.testbit (regOUTENx (data w)) b) /\
            Z.testbit qdis b
            = (if b =? k then negb en else Z.testbit (regQxDIS (data w)) b)).
  { intros b Hb. subst outen qdis. split; apply merge_bit; lia. }
  clearbody outen qdis.
  match goal with
  | |- context [bind (i2cwrite ?r ?v) ?k ?w0] =>
      destruct (i2cwrite_spec r v w0) as (e1 & w1 & Hrun1 & Hd1 & Hk1 & Hr1);
      erewrite (bind_ok (i2cwrite r v) k w0) by exact Hrun1
  end.
  change (u32 IDT24x_REG_OUTEN) with IDT24x_REG_OUTEN in *.
  rewrite Ho32 in *. cbn [klog data regs] in Hk1, Hd1, Hr1.
  destruct Hr1 as [[-> Hr1] | [He1 Hr1]].
  - cbn [Z.eqb negb].
    match goal with
    | |- context [bind (i2cwrite ?r ?v) ?k ?w0] =>
        destruct (i2cwrite_spec r v w0) as (e2 & w2 & Hrun2 & Hd2 & Hk2 & Hr2);
        erewrite (bind_ok (i2cwrite r v) k w0) by exact Hrun2
    end.
    change (u32 IDT24x_REG_Q_DIS) with IDT24x_REG_Q_DIS in *.
    rewrite Hq32 in *.
    assert (Hdata : data w2 = set_enable_regs outen qdis (data w))
      by congruence.
    assert (Hlog : klog w2 = klog w ++ [I2C_write IDT24x_REG_OUTEN outen;
                                        I2C_write IDT24x_REG_Q_DIS qdis]).
    { rewrite Hk2, Hk1, <- app_assoc. reflexivity. }
    destruct Hr2 as [[-> Hr2] | [He2 Hr2]]; cbn [Z.eqb negb]; unfold ret.
    + exists 0, w2, [I2C_write IDT24x_REG_Q_DIS qdis].
      rewrite Hdata. cbn [set_enable_regs regOUTENx regQxDIS].
      repeat split; try apply Hbits; try assumption; auto.
      * rewrite Hr2, Hr1.
        rewrite lookup_insert_ne by discriminate. apply lookup_insert_eq.
      * rewrite Hr2. apply lookup_insert_eq.
      * intros a Ha1 Ha2. rewrite Hr2, Hr1.
        rewrite !lookup_insert_ne by congruence. reflexivity.
    + apply Z.eqb_neq in He2 as He2'. rewrite He2'. cbn [negb].
      exists e2, w2, [I2C_write IDT24x_REG_Q_DIS qdis].
      rewrite Hdata. cbn [set_enable_regs regOUTENx regQxDIS].
      repeat split; try apply Hbits; try assumption; auto; try contradiction.
      intros a Ha1 Ha2. rewrite Hr2, Hr1.
      rewrite !lookup_insert_ne by congruence. reflexivity.
  - apply Z.eqb_neq in He1 as He1'. rewrite He1'. cbn [negb].
    exists e1, w1, [].
    assert (Hdata : data w1 = set_enable_regs outen qdis (data w))
      by congruence.
    rewrite Hdata. cbn [set_enable_regs regOUTENx regQxDIS].
    repeat split; try apply Hbits; try assumption; auto; try contradiction.
    intros a _ _. rewrite Hr1. reflexivity.
Qed.

(** C7: for distinct outputs [i] and [j], after [enable_output(i, true)]
    and then [enable_output(j, true)] bit [i] is set in the shadow
    output-enable register and in the byte the second call writes to the
    output-enable register; and a call of [enable_output] for output [k]
    leaves every other bit of both shadow registers, and so of the bytes
    it writes, as it found them, whatever the starting state. *)
Theorem enable_output_keeps_others so w :
  (forall i j,
      0 <= i <= 3 -> 0 <= j <= 3 -> i <> j ->
      exists e1 w1 e2 w2 tail,
        idt24x_enable_output so i true w = Ok (e1, w1) /\
        idt24x_enable_output so j true w1 = Ok (e2, w2) /\
        Z.testbit (regOUTENx (data w2)) i = true /\
        klog w2 = klog w1
                  ++ I2C_write IDT24x_REG_OUTEN (regOUTENx (data w2)) :: tail /\
        (e2 = 0 ->
         regs w2 !! IDT24x_REG_OUTEN = Some (regOUTENx (data w2)))) /\
  (forall k en,
      0 <= k <= 3 ->
      exists e w' tail,
        idt24x_enable_output so k en w = Ok (e, w') /\
        (forall b, 0 <= b < 8 -> b <> k ->
           Z.testbit (regOUTENx (data w')) b
           = Z.testbit (regOUTENx (data w)) b /\
           Z.testbit (regQxDIS (data w')) b
           = Z.testbit (regQxDIS (data w)) b) /\
        klog w' = klog w
                  ++ I2C_write IDT24x_REG_OUTEN (regOUTENx (data w')) :: tail /\
        (tail = [] \/
         tail = [I2C_write IDT24x_REG_Q_DIS (regQxDIS (data w'))])).
Proof.
  split.
  - intros i j Hi Hj Hij.
    destruct (enable_output_spec so i true w Hi)
      as (e1 & w1 & t1 & Hrun1 & _ & Hb1 & _).
    destruct (enable_output_spec so j true w1 Hj)
      as (e2 & w2 & t2 & Hrun2 & _ & Hb2 & Hlog2 & _ & Hregs2 & _).
    exists e1, w1, e2, w2, t2.
    split; [exact Hrun1 |]. split; [exact Hrun2 |].
    split.
    + destruct (Hb2 i ltac:(lia)) as [Hoe _]. rewrite Hoe.
      destruct (Z.eqb_spec i j) as [E | _]; [reflexivity |].
      destruct (Hb1 i ltac:(lia)) as [Hoe1 _]. rewrite Hoe1.
      rewrite Z.eqb_refl. reflexivity.
    + split; [exact Hlog2 |]. intros He. apply Hregs2, He.
  - intros k en Hk.
    destruct (enable_output_spec so k en w Hk)
      as (e & w' & tail & Hrun & _ & Hb & Hlog & Htail & _).
    exists e, w', tail. split; [exact Hrun |].
    split; [| split; assumption].
    intros b Hb8 Hbk. destruct (Hb b Hb8) as [Hoe Hdis].
    apply Z.eqb_neq in Hbk. rewrite Hbk in Hoe, Hdis. split; assumption.
Qed.

Lemma enable_output_keeps_others_witness :
  exists e1 w1 e2 w2 tail,
    idt24x_enable_output example_offsets 1 true world_125MHz = Ok (e1, w1) /\
    idt24x_enable_output example_offsets 2 true w1 = Ok (e2, w2) /\
    Z.testbit (regOUTENx (data w2)) 1 = true /\
    klog w2 = klog w1
              ++ I2C_write IDT24x_REG_OUTEN (regOUTENx (data w2)) :: tail /\
    (e2 = 0 -> regs w2 !! IDT24x_REG_OUTEN = Some (regOUTENx (data w2))).
Proof.
  apply (enable_output_keeps_others example_offsets world_125MHz); lia.
Defined.

(** ** Register footprints *)

Lemma bind_inv {A B} (m : M A) (k : A -> M B) w r w' :
  bind m k w = Ok (r, w') ->
  exists a w1, m w = Ok (a, w1) /\ k a w1 = Ok (r, w').
Proof.
  unfold bind. destruct (m w) as [[a w1] | f]; [| discriminate].
  intros H. exists a, w1. auto.
Qed.

Lemma try_inv (m : M Z) (k : M Z) w r w' :
  bind m (fun err => if negb (err =? 0) then (fun w => Ok (err, w)) else k) w
  = Ok (r, w') ->
  exists e w1, m w = Ok (e, w1) /\
               ((e <> 0 /\ r = e /\ w' = w1) \/
                (e = 0 /\ k w1 = Ok (r, w'))).
Proof.
  intros H. apply bind_inv in H as (e & w1 & Hm & Hk).
  exists e, w1. split; [exact Hm |].
  destruct (Z.eqb_spec e 0) as [-> | He]; cbn [negb] in Hk.
  - right. auto.
  - left. injection Hk as <- <-. auto.
Qed.

Lemma preserves_ret {A} P (a : A) : preserves P (ret a).
Proof. intros w r w' H. injection H as _ <-. reflexivity. Qed.

Lemma preserves_bind {A B} P (m : M A) (k : A -> M B) :
  preserves P m -> (forall a, preserves P (k a)) -> preserves P (bind m k).
Proof.
  intros Hm Hk w r w' H a Pa.
  apply bind_inv in H as (x & w1 & H1 & H2).
  rewrite (Hk x w1 r w' H2 a Pa). exact (Hm w x w1 H1 a Pa).
Qed.

Lemma preserves_if {A} P (b : bool) (m1 m2 : M A) :
  preserves P m1 -> preserves P m2 -> preserves P (if b then m1 else m2).
Proof. destruct b; auto. Qed.

Lemma preserves_get_data P : preserves P get_data.
Proof. intros w r w' H. injection H as _ <-. reflexivity. Qed.

Lemma preserves_put_data P d : preserves P (put_data d).
Proof. intros w r w' H a _. injection H as _ <-. reflexivity. Qed.

Lemma preserves_i2cwrite (P : Z -> Prop) reg val :
  ~ P (u32 reg) -> preserves P (i2cwrite reg val).
Proof.
  intros Hout w r w' H a Pa.
  destruct (i2cwrite_spec reg val w) as (e & w1 & Hrun & _ & _ & Hr).
  rewrite H in Hrun. injection Hrun as -> ->.
  destruct Hr as [[_ Hr] | [_ Hr]]; rewrite Hr; [| reflexivity].
  apply lookup_insert_ne. intros E. apply Hout. rewrite E. exact Pa.
Qed.

Lemma preserves_i2cwritewithmask (P : Z -> Prop) reg val orig mask :
  ~ P (u32 reg) -> preserves P (i2cwritewithmask reg val orig mask).
Proof. intros Hout. unfold i2cwritewithmask. apply preserves_i2cwrite, Hout. Qed.

Lemma preserves_enable_output (P : Z -> Prop) so k en :
  0 <= k <= 3 -> ~ P IDT24x_REG_OUTEN -> ~ P IDT24x_REG_Q_DIS ->
  preserves P (idt24x_enable_output so k en).
Proof.
  intros Hk Ho Hq w r w' H a Pa.
  destruct (enable_output_spec so k en w Hk)
    as (e & w1 & t & Hrun & _ & _ & _ & _ & _ & Hframe).
  rewrite H in Hrun. injection Hrun as -> ->.
  apply Hframe; intros E; subst a; auto.
Qed.

Ltac preserves_step :=
  lazymatch goal with
  | |- preserves _ (ret _) => apply preserves_ret
  | |- preserves _ (fun w => Ok (_, w)) => apply preserves_ret
  | |- preserves _ get_data => apply preserves_get_data
  | |- preserves _ (put_data _) => apply preserves_put_data
  | |- preserves _ (i2cwritewithmask _ _ _ _) =>
      apply preserves_i2cwritewithmask; vm_compute; discriminate
  | |- preserves _ (i2cwrite _ _) =>
      apply preserves_i2cwrite; vm_compute; discriminate
  | |- preserves _ (idt24x_enable_output _ _ _) =>
      apply preserves_enable_output;
      [ lia
      | vm_compute; discriminate
      | vm_compute; discriminate ]
  | |- preserves _ (bind _ _) => apply preserves_bind; [| intros ?]
  | |- preserves _ (if _ then _ else _) => apply preserves_if
  end.

Lemma preserves_update_output so divs x :
  1 <= x <= 3 -> preserves pll_reg (update_output so divs x).
Proof.
  intros Hx.
  assert (Hcases : x = 1 \/ x = 2 \/ x = 3) by lia.
  destruct Hcases as [-> | [-> | ->]]; unfold update_output;
    match goal with
    | |- context [idt24x_get_offsets ?k so] =>
        let o := eval cbv in (idt24x_get_offsets k so) in
        change (idt24x_get_offsets k so) with o
    end;
    cbv iota beta;
    cbn [n_17_16_offset n_17_16_mask n_15_8_offset n_7_0_offset
         nfrac_27_24_offset nfrac_27_24_mask nfrac_23_16_offset
         nfrac_15_8_offset nfrac_7_0_offset Z.eqb negb];
    repeat preserves_step.
Qed.

Lemma preserves_update_outputs so divs xs :
  Forall (fun x => 1 <= x <= 3) xs ->
  preserves pll_reg (update_outputs so divs xs).
Proof.
  induction 1 as [| x xs Hx _ IH]; cbn [update_outputs].
  - apply preserves_ret.
  - apply preserves_bind; [apply preserves_update_output, Hx |].
    intros e. apply preserves_if; [apply preserves_ret | exact IH].
Qed.

(** ** Applying the dividers *)

Lemma calc_divs_success_inv divs w divs' w' :
  idt24x_calc_divs divs w = Ok ((0, divs'), w') ->
  exists s,
    calc_divs_search (frequencies (data w) !!! 2%nat) w = Ok (s, w) /\
    div s <> 0 /\ pfd_of (data w) <> 0 /\
    divs' = divs_found (frequencies (data w) !!! 2%nat) (pfd_of (data w))
              (div s) divs /\
    w' = logged (unimplemented_log (data w)) w.
Proof.
  intros Hrun.
  destruct (Z.eq_dec (frequencies (data w) !!! 2%nat) 0) as [Hf0 | Hf0].
  { rewrite (calc_divs_no_freq divs w Hf0) in Hrun. discriminate Hrun. }
  destruct (Z.eq_dec (u32 (frequencies (data w) !!! 2%nat * 2)) 0)
    as [Hz | Hnz].
  { rewrite (calc_divs_fault divs w Hf0 Hz) in Hrun. discriminate Hrun. }
  destruct (calc_divs_run divs w Hf0 Hnz) as (s & Hsearch & _ & Hrun').
  rewrite Hrun in Hrun'.
  destruct (Z.eqb_spec (div s) 0) as [Hd | Hd]; [discriminate Hrun' |].
  destruct (Z.eqb_spec (pfd_of (data w)) 0) as [Hp | Hp];
    [discriminate Hrun' |].
  injection Hrun' as -> ->.
  exists s. auto.
Qed.

Lemma i2cwrite_sets reg val w w' :
  i2cwrite reg val w = Ok (0, w') -> regs w' !! u32 reg = Some (u32 val).
Proof.
  intros H.
  destruct (i2cwrite_spec reg val w) as (e & w1 & Hrun & _ & _ & Hr).
  rewrite H in Hrun. injection Hrun as <- <-.
  destruct Hr as [[_ Hr] | [Hne _]]; [| contradiction].
  rewrite Hr. apply lookup_insert_eq.
Qed.

Lemma i2cwrite_other reg val w e w' a :
  i2cwrite reg val w = Ok (e, w') -> a <> u32 reg ->
  regs w' !! a = regs w !! a.
Proof.
  intros H Ha.
  apply (preserves_i2cwrite (fun x => x = a) reg val) with (r := e);
    [congruence | exact H | reflexivity].
Qed.

(** What a successful [idt24x_update_device] leaves in the registers of
    output 0's divider. *)
Lemma update_device_q0_regs so divs w w' :
  idt24x_update_device so divs w = Ok (0, w') ->
  regs w' !! IDT24x_REG_DSMFRAC_20_16
  = Some (u32 (Z.lor
                 (Z.land (Z.shiftl (u8 (Z.land (Z.shiftr (dsmfrac divs) 16)
                                          IDT24x_REG_DSMFRAC_20_16_MASK))
                            (bits_to_shift (u8 IDT24x_REG_DSMFRAC_20_16_MASK)))
                         (u8 IDT24x_REG_DSMFRAC_20_16_MASK))
                 (Z.land (u8 (regDSM_INT_8 (data w)))
                         (Z.lnot (u8 IDT24x_REG_DSMFRAC_20_16_MASK))))) /\
  regs w' !! IDT24x_REG_NS1_Q0
  = Some (u32 (Z.lor
                 (Z.land (Z.shiftl (u8 (Z.land (Z.shiftr (ns1_q0 divs) 8)
                                               IDT24x_REG_NS1_Q0_MASK))
                                   (bits_to_shift (u8 IDT24x_REG_NS1_Q0_MASK)))
                         (u8 IDT24x_REG_NS1_Q0_MASK))
                 (Z.land (u8 (regNS1_Q0 (data w)))
                         (Z.lnot (u8 IDT24x_REG_NS1_Q0_MASK))))) /\
  regs w' !! IDT24x_REG_NS2_Q0_15_8
  = Some (u32 (Z.land (Z.shiftr (ns2_q0 divs) 8) 0xFF)) /\
  regs w' !! IDT24x_REG_NS2_Q0_7_0
  = Some (u32 (Z.land (ns2_q0 divs) 0xFF)).
Proof.
  unfold idt24x_update_device. intros H.
  apply bind_inv in H as (d & w0 & Hget & H).
  injection Hget as <- <-.
  repeat match type of H with
         | bind _ (fun err => if negb (err =? 0) then _ else _) _ = Ok (0, _) =>
             let e := fresh "e" in
             let wn := fresh "wn" in
             let Hw := fresh "Hw" in
             apply try_inv in H
               as (e & wn & Hw & [(Hne & Heq & _) | (-> & H)]);
             [ congruence | ]
         end.
  assert (Hrest : preserves pll_reg
            (let! _ := idt24x_enable_output so 0
                         (negb (frequencies (data w) !!! 0%nat =? 0)) in
             update_outputs so divs [1; 2; 3])).
  { apply preserves_bind; [preserves_step |].
    intros _. apply preserves_update_outputs.
    repeat constructor; lia. }
  pose proof (Hrest _ _ _ H) as Hkeep.
  unfold i2cwritewithmask in Hw1, Hw4.
  apply i2cwrite_sets in Hw1 as Hs1.
  apply i2cwrite_sets in Hw4 as Hs4.
  apply i2cwrite_sets in Hw5 as Hs5.
  apply i2cwrite_sets in Hw6 as Hs6.
  change (u32 IDT24x_REG_NS1_Q0) with IDT24x_REG_NS1_Q0 in Hs4.
  change (u32 IDT24x_REG_NS2_Q0_15_8) with IDT24x_REG_NS2_Q0_15_8 in Hs5.
  change (u32 IDT24x_REG_NS2_Q0_7_0) with IDT24x_REG_NS2_Q0_7_0 in Hs6.
  change (u32 IDT24x_REG_DSMFRAC_20_16) with IDT24x_REG_DSMFRAC_20_16 in Hs1.
  split; [| split; [| split]].
  - rewrite Hkeep by (vm_compute; reflexivity).
    rewrite (i2cwrite_other _ _ _ _ _ _ Hw6) by (vm_compute; discriminate).
    rewrite (i2cwrite_other _ _ _ _ _ _ Hw5) by (vm_compute; discriminate).
    rewrite (i2cwrite_other _ _ _ _ _ _ Hw4) by (vm_compute; discriminate).
    rewrite (i2cwrite_other _ _ _ _ _ _ Hw3) by (vm_compute; discriminate).
    rewrite (i2cwrite_other _ _ _ _ _ _ Hw2) by (vm_compute; discriminate).
    exact Hs1.
  - rewrite Hkeep by (vm_compute; reflexivity).
    rewrite (i2cwrite_other _ _ _ _ _ _ Hw6) by (vm_compute; discriminate).
    rewrite (i2cwrite_other _ _ _ _ _ _ Hw5) by (vm_compute; discriminate).
    exact Hs4.
  - rewrite Hkeep by (vm_compute; reflexivity).
    rewrite (i2cwrite_other _ _ _ _ _ _ Hw6) by (vm_compute; discriminate).
    exact Hs5.
  - rewrite Hkeep by (vm_compute; reflexivity).
    exact Hs6.
Qed.

(** C10: after a successful divider calculation [ns1_q0] and [ns2_q0]
    are 0; and whenever [idt24x_update_device] succeeds with these
    dividers, on any state of the device and of its registers, it leaves
    the two bits of the first-stage field in register NS1_Q0 at 0 and the
    value 0 in the registers NS2_Q0_15_8 and NS2_Q0_7_0. *)
Theorem update_device_zeroes_q0 divs w divs' w1 :
  idt24x_calc_divs divs w = Ok ((0, divs'), w1) ->
  (ns1_q0 divs' = 0 /\ ns2_q0 divs' = 0) /\
  (forall so w2 w3,
      idt24x_update_device so divs' w2 = Ok (0, w3) ->
      (exists v, regs w3 !! IDT24x_REG_NS1_Q0 = Some v /\
                 Z.land v IDT24x_REG_NS1_Q0_MASK = 0) /\
      regs w3 !! IDT24x_REG_NS2_Q0_15_8 = Some 0 /\
      regs w3 !! IDT24x_REG_NS2_Q0_7_0 = Some 0).
Proof.
  intros Hcalc.
  apply calc_divs_success_inv in Hcalc as (s & _ & _ & _ & -> & _).
  split; [split; reflexivity |].
  intros so w2 w3 Hupd.
  apply update_device_q0_regs in Hupd as (_ & H1 & H2 & H3).
  cbn [divs_found ns1_q0 ns2_q0] in *.
  split; [| split; assumption].
  eexists. split; [exact H1 |].
  change (Z.land (Z.shiftl (u8 (Z.land (Z.shiftr 0 8) IDT24x_REG_NS1_Q0_MASK))
                    (bits_to_shift (u8 IDT24x_REG_NS1_Q0_MASK)))
            (u8 IDT24x_REG_NS1_Q0_MASK)) with 0.
  rewrite Z.lor_0_l.
  assert (Hb : 0 <= Z.land (u8 (regNS1_Q0 (data w2)))
                      (Z.lnot (u8 IDT24x_REG_NS1_Q0_MASK)) < 256).
  { apply byte_of_bits.
    - apply Z.land_nonneg. left. unfold u8. apply Z.mod_pos_bound. lia.
    - intros i Hi. rewrite Z.land_spec.
      unfold u8 at 1. rewrite Z.mod_pow2_bits_high by lia. reflexivity. }
  rewrite u32_small by lia.
  rewrite <- Z.land_assoc.
  change (Z.land (Z.lnot (u8 IDT24x_REG_NS1_Q0_MASK)) IDT24x_REG_NS1_Q0_MASK)
    with 0.
  apply Z.land_0_r.
Qed.

Lemma update_device_zeroes_q0_witness :
  (ns1_q0 divs_125MHz = 0 /\ ns2_q0 divs_125MHz = 0) /\
  ((exists v, regs world_125MHz_applied !! IDT24x_REG_NS1_Q0 = Some v /\
              Z.land v IDT24x_REG_NS1_Q0_MASK = 0) /\
   regs world_125MHz_applied !! IDT24x_REG_NS2_Q0_15_8 = Some 0 /\
   regs world_125MHz_applied !! IDT24x_REG_NS2_Q0_7_0 = Some 0).
Proof.
  destruct (update_device_zeroes_q0 example_divs world_125MHz divs_125MHz
              world_125MHz) as [Hzero Hregs].
  - vm_compute. reflexivity.
  - split; [exact Hzero |].
    apply (Hregs example_offsets world_125MHz world_125MHz_applied).
    vm_compute. reflexivity.
Defined.

(** C6, at a failing input: the shadow of DSM_INT_8 is 0x40 and the
    shadow of DSMFRAC_20_16 is 0xE0; applying the dividers of the 125 MHz
    request writes 0x40 to register DSMFRAC_20_16, the field merged with
    the shadow of DSM_INT_8, where the merge with the register's own
    shadow gives 0xE0. *)
Theorem update_device_dsmfrac_shadow :
  regDSM_INT_8 (data world_125MHz) = 0x40 /\
  regDSMFRAC_20_16 (data world_125MHz) = 0xE0 /\
  idt24x_update_device example_offsets divs_125MHz world_125MHz
  = Ok (0, world_125MHz_applied) /\
  klog world_125MHz_applied !! 2%nat
  = Some (I2C_write IDT24x_REG_DSMFRAC_20_16 0x40) /\
  regs world_125MHz_applied !! IDT24x_REG_DSMFRAC_20_16 = Some 0x40 /\
  masked_byte (Z.land (Z.shiftr (dsmfrac divs_125MHz) 16)
                 IDT24x_REG_DSMFRAC_20_16_MASK)
    (regDSM_INT_8 (data world_125MHz)) IDT24x_REG_DSMFRAC_20_16_MASK = 0x40 /\
  masked_byte (Z.land (Z.shiftr (dsmfrac divs_125MHz) 16)
                 IDT24x_REG_DSMFRAC_20_16_MASK)
    (regDSMFRAC_20_16 (data world_125MHz)) IDT24x_REG_DSMFRAC_20_16_MASK
  = 0xE0.
Proof.
  eval_conj.
Qed.

(** C9, refuted as stated: on a device whose output 2 runs at 125 MHz,
    a request for 0 Hz through [idt24x_set_rate] returns [-EINVAL] and
    changes nothing; output 2 stays enabled. *)
Lemma set_rate_zero_counterexample :
  idt24x_set_rate example_offsets example_divs 0 25000000
    world_125MHz_applied
  = Ok (- EINVAL, world_125MHz_applied) /\
  min_freq (data world_125MHz_applied) = 1000000 /\
  Z.testbit (regOUTENx (data world_125MHz_applied)) 2 = true.
Proof.
  eval_conj.
Qed.

(** One register write with everything it does: the bus outcome decides
    between the register holding the value and the register file being as
    before; on a bus with no failing transaction the write succeeds. *)
Lemma i2cwrite_outcome reg val w :
  exists e w',
    i2cwrite reg val w = Ok (e, w') /\
    data w' = data w /\
    klog w' = klog w ++ [I2C_write (u32 reg) (u32 val)] /\
    ((e = 0 /\ regs w' = <[u32 reg := u32 val]> (regs w)) \/
     (e <> 0 /\ regs w' = regs w)) /\
    (bus_errors w = [] -> e = 0 /\ bus_errors w' = []).
Proof.
  destruct (i2cwrite_spec reg val w) as (e & w' & Hrun & Hd & Hk & Hr).
  exists e, w'. split; [exact Hrun |]. split; [exact Hd |].
  split; [exact Hk |]. split; [exact Hr |].
  intros Hbus. revert Hrun. unfold i2cwrite, regmapWriteWithRetry.
  erewrite bind_ok by apply printk_run.
  change (Z.to_nat 5) with 5%nat. cbn [write_attempts].
  unfold bind at 1, regmap_write. cbn [logged bus_errors]. rewrite Hbus.
  cbn [Z.eqb]. intros Hrun. injection Hrun as <- <-. split; reflexivity.
Qed.

(** The three ways [idt24x_enable_output] ends for an output from 0 to
    3: the write of the output-enable register fails and nothing is
    written; that write succeeds and the write of the output-disable
    register fails; both writes succeed.  The shadows are updated in all
    three. *)
Lemma enable_output_outcomes so k en w :
  0 <= k <= 3 ->
  exists e w',
    idt24x_enable_output so k en w = Ok (e, w') /\
    data w' = set_enable_regs (regOUTENx (data w')) (regQxDIS (data w'))
                (data w) /\
    (forall b, 0 <= b < 8 ->
       Z.testbit (regOUTENx (data w')) b
       = (if b =? k then en else Z.testbit (regOUTENx (data w)) b) /\
       Z.testbit (regQxDIS (data w')) b
       = (if b =? k then negb en else Z.testbit (regQxDIS (data w)) b)) /\
    ((e <> 0 /\
      klog w' = klog w ++ [I2C_write IDT24x_REG_OUTEN (regOUTENx (data w'))] /\
      regs w' = regs w) \/
     (e <> 0 /\
      klog w' = klog w ++ [I2C_write IDT24x_REG_OUTEN (regOUTENx (data w'));
                           I2C_write IDT24x_REG_Q_DIS (regQxDIS (data w'))] /\
      regs w' = <[IDT24x_REG_OUTEN := regOUTENx (data w')]> (regs w)) \/
     (e = 0 /\
      klog w' = klog w ++ [I2C_write IDT24x_REG_OUTEN (regOUTENx (data w'));
                           I2C_write IDT24x_REG_Q_DIS (regQxDIS (data w'))] /\
      regs w' = <[IDT24x_REG_Q_DIS := regQxDIS (data w')]>
                  (<[IDT24x_REG_OUTEN := regOUTENx (data w')]> (regs w)))) /\
    (bus_errors w = [] -> e = 0 /\ bus_errors w' = []).
Proof.
  intros Hk.
  destruct (get_offsets_masks so k Hk) as (o & Hget & Hoe & Hdis & Hshift).
  unfold idt24x_enable_output. rewrite Hget. cbn [Z.eqb negb].
  rewrite Hoe, Hdis, Hshift.
  erewrite bind_ok by reflexivity.
  set (outen := if en then _ else _).
  set (qdis := if negb en then _ else _).
  erewrite bind_ok by reflexivity.
  assert (Hbyte : forall x, u32 (u8 x) = u8 x).
  { intros x. apply u32_small. unfold u8.
    pose proof (Z.mod_pos_bound x (2 ^ 8) ltac:(lia)). lia. }
  assert (Ho32 : u32 outen = outen)
    by (subst outen; destruct en; apply Hbyte).
  assert (Hq32 : u32 qdis = qdis)
    by (subst qdis; destruct en; apply Hbyte).
  assert (Hbits : forall b, 0 <= b < 8 ->
            Z.testbit outen b
            = (if b =? k then en else Z.testbit (regOUTENx (data w)) b) /\
            Z.testbit qdis b
            = (if b =? k then negb en else Z.testbit (regQxDIS (data w)) b)).
  { intros b Hb. subst outen qdis. split; apply merge_bit; lia. }
  clearbody outen qdis.
  match goal with
  | |- context [bind (i2cwrite ?r ?v) ?k ?w0] =>
      destruct (i2cwrite_outcome r v w0)
        as (e1 & w1 & Hrun1 & Hd1 & Hk1 & Hr1 & Hb1);
      erewrite (bind_ok (i2cwrite r v) k w0) by exact Hrun1
  end.
  change (u32 IDT24x_REG_OUTEN) with IDT24x_REG_OUTEN in *.
  rewrite Ho32 in *. cbn [klog data regs bus_errors] in Hk1, Hd1, Hr1, Hb1.
  destruct Hr1 as [[-> Hr1] | [He1 Hr1]].
  - cbn [Z.eqb negb].
    match goal with
    | |- context [bind (i2cwrite ?r ?v) ?k ?w0] =>
        destruct (i2cwrite_outcome r v w0)
          as (e2 & w2 & Hrun2 & Hd2 & Hk2 & Hr2 & Hb2);
        erewrite (bind_ok (i2cwrite r v) k w0) by exact Hrun2
    end.
    change (u32 IDT24x_REG_Q_DIS) with IDT24x_REG_Q_DIS in *.
    rewrite Hq32 in *.
    assert (Hdata : data w2 = set_enable_regs outen qdis (data w))
      by congruence.
    assert (Hlog : klog w2 = klog w ++ [I2C_write IDT24x_REG_OUTEN outen;
                                        I2C_write IDT24x_REG_Q_DIS qdis]).
    { rewrite Hk2, Hk1, <- app_assoc. reflexivity. }
    assert (Hhealthy : bus_errors w = [] -> e2 = 0 /\ bus_errors w2 = []).
    { intros Hbus. apply Hb2. apply (Hb1 Hbus). }
    destruct Hr2 as [[-> Hr2] | [He2 Hr2]]; cbn [Z.eqb negb]; unfold ret.
    + exists 0, w2. split; [reflexivity |].
      rewrite Hdata. cbn [set_enable_regs regOUTENx regQxDIS].
      split; [reflexivity |]. split; [exact Hbits |].
      split; [| exact Hhealthy].
      right. right. split; [reflexivity |]. split; [exact Hlog |].
      rewrite Hr2, Hr1. reflexivity.
    + apply Z.eqb_neq in He2 as He2'. rewrite He2'. cbn [negb].
      exists e2, w2. split; [reflexivity |].
      rewrite Hdata. cbn [set_enable_regs regOUTENx regQxDIS].
      split; [reflexivity |]. split; [exact Hbits |].
      split; [| exact Hhealthy].
      right. left. split; [exact He2 |]. split; [exact Hlog |].
      rewrite Hr2, Hr1. reflexivity.
  - apply Z.eqb_neq in He1 as He1'. rewrite He1'. cbn [negb].
    exists e1, w1.
    assert (Hdata : data w1 = set_enable_regs outen qdis (data w))
      by congruence.
    split; [reflexivity |].
    rewrite Hdata. cbn [set_enable_regs regOUTENx regQxDIS].
    split; [reflexivity |]. split; [exact Hbits |].
    split.
    + left. split; [exact He1 |]. split; [exact Hk1 | exact Hr1].
    + intros Hbus. destruct (Hb1 Hbus) as (E & _). contradiction.
Qed.

(** C9, amended: with the lower bound of the device above zero (probe
    sets it to 1 MHz), a request for 0 Hz through [idt24x_set_rate] is
    rejected with [-EINVAL] before anything is stored or written.  The
    zero-frequency path is in [idt24x_set_frequency]: when the frequency
    stored for output 2 is 0 it always returns 0, with the enable bit of
    output 2 cleared and its disable bit set in the shadows and the other
    bits kept, and nothing else of the driver data changed.  It computes
    and writes no divider: no register other than the output-enable and
    the output-disable register changes, and the log gains the line of
    the output-enable write and, exactly when that write succeeded, the
    line of the output-disable write.  When the first write fails no
    register is written; when it succeeds the output-enable register
    holds its shadow, and the output-disable register holds its shadow
    or is as before.  On a bus with no failing transaction both registers
    hold their shadows: output 2 is disabled in the chip. *)
Theorem set_rate_zero so sd w :
  (0 < min_freq (data w) ->
   forall parent_rate,
     idt24x_set_rate so sd 0 parent_rate w = Ok (- EINVAL, w)) /\
  (frequencies (data w) !!! 2%nat = 0 ->
   exists w' tail,
     idt24x_set_frequency so sd w = Ok (0, w') /\
     Z.testbit (regOUTENx (data w')) 2 = false /\
     Z.testbit (regQxDIS (data w')) 2 = true /\
     (forall b, 0 <= b < 8 -> b <> 2 ->
        Z.testbit (regOUTENx (data w')) b = Z.testbit (regOUTENx (data w)) b /\
        Z.testbit (regQxDIS (data w')) b = Z.testbit (regQxDIS (data w)) b) /\
     klog w' = klog w
               ++ I2C_write IDT24x_REG_OUTEN (regOUTENx (data w')) :: tail /\
     (tail = [] \/
      tail = [I2C_write IDT24x_REG_Q_DIS (regQxDIS (data w'))]) /\
     data w' = set_enable_regs (regOUTENx (data w')) (regQxDIS (data w'))
                 (data w) /\
     (forall a, a <> IDT24x_REG_OUTEN -> a <> IDT24x_REG_Q_DIS ->
                regs w' !! a = regs w !! a) /\
     (tail = [] -> regs w' = regs w) /\
     (tail <> [] ->
      regs w' !! IDT24x_REG_OUTEN = Some (regOUTENx (data w')) /\
      (regs w' !! IDT24x_REG_Q_DIS = Some (regQxDIS (data w')) \/
       regs w' !! IDT24x_REG_Q_DIS = regs w !! IDT24x_REG_Q_DIS)) /\
     (bus_errors w = [] ->
      tail = [I2C_write IDT24x_REG_Q_DIS (regQxDIS (data w'))] /\
      regs w' = <[IDT24x_REG_Q_DIS := regQxDIS (data w')]>
                  (<[IDT24x_REG_OUTEN := regOUTENx (data w')]> (regs w)) /\
      Z.testbit (reg_value (regs w') IDT24x_REG_OUTEN) 2 = false /\
      Z.testbit (reg_value (regs w') IDT24x_REG_Q_DIS) 2 = true /\
      bus_errors w' = [])).
Proof.
  split.
  - intros Hmin parent_rate. unfold idt24x_set_rate.
    erewrite bind_ok by reflexivity.
    apply Z.ltb_lt in Hmin. rewrite Hmin. reflexivity.
  - intros Hf. unfold idt24x_set_frequency.
    erewrite bind_ok by reflexivity.
    rewrite Hf. cbn [Z.eqb].
    destruct (enable_output_outcomes so 2 false w ltac:(lia))
      as (e & w' & Hrun & Hdata & Hb & Hcases & Hhealthy).
    erewrite bind_ok by exact Hrun.
    destruct (Hb 2 ltac:(lia)) as [Hoe Hdis].
    assert (Hothers : forall b, 0 <= b < 8 -> b <> 2 ->
              Z.testbit (regOUTENx (data w')) b
              = Z.testbit (regOUTENx (data w)) b /\
              Z.testbit (regQxDIS (data w')) b
              = Z.testbit (regQxDIS (data w)) b).
    { intros b Hb8 Hb2. destruct (Hb b Hb8) as [Hoe' Hdis'].
      apply Z.eqb_neq in Hb2. rewrite Hb2 in Hoe', Hdis'. split; assumption. }
    destruct Hcases as [(He & Hlog & Hregs) | [(He & Hlog & Hregs)
                                              | (He & Hlog & Hregs)]].
    + (* the output-enable write failed *)
      exists w', []. split; [reflexivity |].
      split; [exact Hoe |]. split; [exact Hdis |]. split; [exact Hothers |].
      split; [exact Hlog |]. split; [left; reflexivity |].
      split; [exact Hdata |].
      split; [intros a _ _; rewrite Hregs; reflexivity |].
      split; [intros _; exact Hregs |].
      split; [intros Hne; contradiction |].
      intros Hbus. destruct (Hhealthy Hbus) as (E & _). contradiction.
    + (* the output-disable write failed *)
      exists w', [I2C_write IDT24x_REG_Q_DIS (regQxDIS (data w'))].
      split; [reflexivity |].
      split; [exact Hoe |]. split; [exact Hdis |]. split; [exact Hothers |].
      split; [exact Hlog |]. split; [right; reflexivity |].
      split; [exact Hdata |].
      split; [intros a Ha _; rewrite Hregs;
              apply lookup_insert_ne; congruence |].
      split; [intros E; discriminate E |].
      split.
      * intros _. rewrite Hregs. split; [apply lookup_insert_eq |].
        right. apply lookup_insert_ne. discriminate.
      * intros Hbus. destruct (Hhealthy Hbus) as (E & _). contradiction.
    + (* both writes succeeded *)
      exists w', [I2C_write IDT24x_REG_Q_DIS (regQxDIS (data w'))].
      split; [reflexivity |].
      split; [exact Hoe |]. split; [exact Hdis |]. split; [exact Hothers |].
      split; [exact Hlog |]. split; [right; reflexivity |].
      split; [exact Hdata |].
      assert (Ho : regs w' !! IDT24x_REG_OUTEN = Some (regOUTENx (data w'))).
      { rewrite Hregs. rewrite lookup_insert_ne by discriminate.
        apply lookup_insert_eq. }
      assert (Hq : regs w' !! IDT24x_REG_Q_DIS = Some (regQxDIS (data w'))).
      { rewrite Hregs. apply lookup_insert_eq. }
      split; [intros a Ha1 Ha2; rewrite Hregs;
              rewrite !lookup_insert_ne by congruence; reflexivity |].
      split; [intros E; discriminate E |].
      split; [intros _; split; [exact Ho | left; exact Hq] |].
      intros Hbus. destruct (Hhealthy Hbus) as (_ & Hbus').
      split; [reflexivity |]. split; [exact Hregs |].
      unfold reg_value. rewrite Ho, Hq. cbn [default from_option id].
      split; [exact Hoe |]. split; [exact Hdis | exact Hbus'].
Qed.

Lemma set_rate_zero_witness :
  let w := with_frequencies [0; 0; 0; 0] world_125MHz_applied in
  (Z.testbit (reg_value (regs w) IDT24x_REG_OUTEN) 2 = true /\
   Z.testbit (reg_value (regs w) IDT24x_REG_Q_DIS) 2 = false) /\
  (forall parent_rate,
      idt24x_set_rate example_offsets example_divs 0 parent_rate w
      = Ok (- EINVAL, w)) /\
  (exists w',
      idt24x_set_frequency example_offsets example_divs w = Ok (0, w') /\
      klog w' = klog w
                ++ [I2C_write IDT24x_REG_OUTEN (regOUTENx (data w'));
                    I2C_write IDT24x_REG_Q_DIS (regQxDIS (data w'))] /\
      regs w' = <[IDT24x_REG_Q_DIS := regQxDIS (data w')]>
                  (<[IDT24x_REG_OUTEN := regOUTENx (data w')]> (regs w)) /\
      Z.testbit (reg_value (regs w') IDT24x_REG_OUTEN) 2 = false /\
      Z.testbit (reg_value (regs w') IDT24x_REG_Q_DIS) 2 = true).
Proof.
  intros w.
  destruct (set_rate_zero example_offsets example_divs w)
    as [Hreject Hzero].
  split; [split; vm_compute; reflexivity |].
  split.
  - apply Hreject. vm_compute. reflexivity.
  - destruct Hzero as (w' & tail & Hrun & _ & _ & _ & Hlog & _ & _ & _ & _
                       & _ & Hhealthy); [vm_compute; reflexivity |].
    destruct Hhealthy as (Htail & Hregs & Ho & Hq & _);
      [vm_compute; reflexivity |].
    exists w'. split; [exact Hrun |].
    rewrite Htail in Hlog. auto.
Defined.

(** * Further properties *)

(** ** The divider search in closed form *)

Lemma even_le_floor f d B :
  0 < f -> d mod 2 = 0 -> f * d <= B -> d <= 2 * (B / (2 * f)).
Proof.
  intros Hf Hev Hle.
  assert (Hk : d = 2 * (d / 2)) by dlia.
  assert (d / 2 <= B / (2 * f)); [| lia].
  apply Z.div_le_lower_bound; [lia |]. nia.
Qed.

Lemma floor_divider_bounds f B :
  0 < f -> B - 2 * f < f * (2 * (B / (2 * f))) <= B.
Proof.
  intros Hf.
  pose proof (Z.mul_div_le B (2 * f) ltac:(lia)).
  pose proof (Z.mul_succ_div_gt B (2 * f) ltac:(lia)).
  nia.
Qed.

(** The two dividers of the closed form are candidates of the search for
    every supported frequency, and the larger one is always legal. *)
Lemma closed_form_candidates f :
  IDT24x_MIN_FREQ <= f <= IDT24x_MAX_FREQ ->
  candidate (max_div_of f) (2 * (IDT24x_VCO_OPT / (2 * f))) /\
  candidate (max_div_of f) (max_div_of f) /\
  legal f (max_div_of f) /\
  10 <= 2 * (IDT24x_VCO_OPT / (2 * f)) <= max_div_of f /\
  max_div_of f <= 4000.
Proof.
  intros Hf.
  destruct (max_div_in_range f Hf) as [_ Hmax].
  replace (f * 2) with (2 * f) in Hmax by lia.
  unfold IDT24x_MIN_FREQ, IDT24x_MAX_FREQ in Hf.
  assert (H5 : 5 <= IDT24x_VCO_OPT / (2 * f)).
  { apply Z.div_le_lower_bound; unfold IDT24x_VCO_OPT; lia. }
  assert (Hmono : IDT24x_VCO_OPT / (2 * f) <= IDT24x_VCO_MAX / (2 * f)).
  { apply Z.div_le_mono; unfold IDT24x_VCO_OPT, IDT24x_VCO_MAX; lia. }
  assert (Hup : IDT24x_VCO_MAX / (2 * f) < 2001).
  { apply Z.div_lt_upper_bound; unfold IDT24x_VCO_MAX; lia. }
  assert (Hc0 : candidate (max_div_of f) (2 * (IDT24x_VCO_OPT / (2 * f)))).
  { unfold candidate. rewrite Hmax. split; [lia |].
    rewrite Z.mul_comm. apply Z.mod_mul. lia. }
  assert (Hcm : candidate (max_div_of f) (max_div_of f)).
  { unfold candidate. rewrite Hmax. split; [lia |]. apply Z.mod_mul. lia. }
  split; [exact Hc0 |]. split; [exact Hcm |]. split; [| lia].
  unfold legal. destruct (vco_at_exact f _ ltac:(unfold IDT24x_MIN_FREQ,
    IDT24x_MAX_FREQ; lia) Hcm) as [-> Hle].
  split; [| exact Hle].
  pose proof (floor_divider_bounds f IDT24x_VCO_MAX ltac:(lia)) as Hb.
  rewrite Hmax. unfold IDT24x_VCO_MIN, IDT24x_VCO_MAX in *. lia.
Qed.

Lemma search_closed_form f s :
  IDT24x_MIN_FREQ <= f <= IDT24x_MAX_FREQ ->
  search_post f (max_div_of f) s ->
  div s = nearest_divider f.
Proof.
  intros Hf Hpost.
  destruct (closed_form_candidates f Hf) as (Hc0 & Hcm & Hlm & Hd0 & _).
  destruct (max_div_in_range f Hf) as [_ Hmax].
  replace (f * 2) with (2 * f) in Hmax by lia.
  assert (Hfpos : 0 < f) by (unfold IDT24x_MIN_FREQ in Hf; lia).
  destruct (vco_at_exact f _ Hf Hc0) as [Hv0 _].
  destruct (vco_at_exact f _ Hf Hcm) as [Hvm _].
  pose proof (floor_divider_bounds f IDT24x_VCO_OPT Hfpos) as Hb0.
  destruct Hpost as [[_ Hnone] | [_ (Hc & Hleg & Hpol)]].
  { exfalso. exact (Hnone _ Hcm Hlm). }
  destruct (vco_at_exact f _ Hf Hc) as [Hv _].
  unfold nearest_divider. cbv zeta.
  destruct (Z.leb_spec IDT24x_VCO_MIN (f * (2 * (IDT24x_VCO_OPT / (2 * f)))))
    as [Hlegal0 | Hillegal0].
  - (* the largest divider at or below the optimum is legal *)
    assert (Hl0 : legal f (2 * (IDT24x_VCO_OPT / (2 * f)))).
    { unfold legal. rewrite Hv0.
      unfold IDT24x_VCO_OPT, IDT24x_VCO_MAX in *. lia. }
    destruct Hpol as [[Hbelow Hbest] | [Habove _]].
    + specialize (Hbest _ Hc0 Hl0). rewrite Hv0, Hv in Hbest.
      rewrite Hv in Hbelow.
      specialize (Hbest ltac:(lia)).
      assert (div s <= 2 * (IDT24x_VCO_OPT / (2 * f))).
      { apply even_le_floor; [exact Hfpos | apply Hc | lia]. }
      assert (2 * (IDT24x_VCO_OPT / (2 * f)) <= div s).
      { apply (Z.mul_le_mono_pos_l _ _ f); assumption. }
      lia.
    + specialize (Habove _ Hc0 Hl0). rewrite Hv0 in Habove. lia.
  - (* it is below the legal range: every legal candidate is above the
       optimum *)
    destruct Hpol as [[Hbelow _] | [_ Hbest]].
    + rewrite Hv in Hbelow.
      assert (div s <= 2 * (IDT24x_VCO_OPT / (2 * f))).
      { apply even_le_floor; [exact Hfpos | apply Hc | lia]. }
      assert (f * div s <= f * (2 * (IDT24x_VCO_OPT / (2 * f)))).
      { apply Z.mul_le_mono_nonneg_l; lia. }
      unfold legal in Hleg. rewrite Hv in Hleg. lia.
    + specialize (Hbest _ Hcm Hlm). rewrite Hvm, Hv in Hbest.
      assert (max_div_of f <= div s).
      { apply (Z.mul_le_mono_pos_l _ _ f); assumption. }
      destruct Hc as [Hc _]. lia.
Qed.

(** X1: for every frequency of output 2 from 1 MHz to 300 MHz and every
    reference with a non-zero phase detector frequency the calculation
    succeeds, and the divider it selects is [nearest_divider]. *)
Theorem calc_divs_closed_form divs w :
  IDT24x_MIN_FREQ <= frequencies (data w) !!! 2%nat <= IDT24x_MAX_FREQ ->
  pfd_of (data w) <> 0 ->
  exists s divs' w',
    idt24x_calc_divs divs w = Ok ((0, divs'), w') /\
    calc_divs_search (frequencies (data w) !!! 2%nat) w = Ok (s, w) /\
    div s = nearest_divider (frequencies (data w) !!! 2%nat) /\
    nint divs'
    = <[1%nat := nearest_divider (frequencies (data w) !!! 2%nat) / 2]>
        (nint divs) /\
    10 <= div s <= 4000.
Proof.
  intros Hf Hpfd.
  destruct (max_div_in_range _ Hf) as [Hu _].
  assert (Hf0 : frequencies (data w) !!! 2%nat <> 0)
    by (unfold IDT24x_MIN_FREQ in Hf; lia).
  assert (Hnz : u32 (frequencies (data w) !!! 2%nat * 2) <> 0)
    by (rewrite Hu; lia).
  destruct (calc_divs_run divs w Hf0 Hnz) as (s & Hsearch & Hpost & Hrun).
  pose proof (search_closed_form _ s Hf Hpost) as Hdiv.
  destruct (closed_form_candidates _ Hf) as (_ & _ & _ & Hd0 & Hm).
  assert (Hrange : 10 <= div s <= 4000).
  { rewrite Hdiv. unfold nearest_divider. cbv zeta.
    destruct (_ <=? _); [lia |].
    destruct (max_div_in_range _ Hf) as [_ Hmax].
    replace (frequencies (data w) !!! 2%nat * 2)
      with (2 * frequencies (data w) !!! 2%nat) in Hmax by lia.
    lia. }
  assert (Hd : (div s =? 0) = false) by (apply Z.eqb_neq; lia).
  apply Z.eqb_neq in Hpfd. rewrite Hd, Hpfd in Hrun.
  eexists s, _, _. split; [exact Hrun |]. split; [exact Hsearch |].
  split; [exact Hdiv |]. split; [| exact Hrange].
  cbn [divs_found nint]. rewrite Hdiv. reflexivity.
Qed.

Lemma calc_divs_closed_form_witness :
  exists s divs' w',
    idt24x_calc_divs example_divs world_125MHz = Ok ((0, divs'), w') /\
    calc_divs_search 125000000 world_125MHz = Ok (s, world_125MHz) /\
    div s = nearest_divider 125000000 /\
    nint divs' = <[1%nat := nearest_divider 125000000 / 2]>
                   (nint example_divs) /\
    10 <= div s <= 4000.
Proof.
  apply (calc_divs_closed_form example_divs world_125MHz).
  - vm_compute. split; discriminate.
  - vm_compute. discriminate.
Defined.

(** ** Accuracy of the feedback divider *)

(** X2: after a successful calculation the fractional field is below
    2^21 and the integer field below 2^16; when the quotient of the VCO by
    the phase detector frequency fits in the 16 bits of [dsmint], the
    ratio [dsmint + dsmfrac / 2^21] times pfd is at most the VCO and
    misses it by less than [pfd / 2^21]. *)
Theorem calc_divs_dsm_accuracy divs w divs' w' :
  idt24x_calc_divs divs w = Ok ((0, divs'), w') ->
  exists s,
    calc_divs_search (frequencies (data w) !!! 2%nat) w = Ok (s, w) /\
    0 <= dsmfrac divs' < 2 ^ 21 /\
    0 <= dsmint divs' < 2 ^ 16 /\
    (vco_at (frequencies (data w) !!! 2%nat) (div s) / pfd_of (data w)
     < 2 ^ 16 ->
     0 <= vco_at (frequencies (data w) !!! 2%nat) (div s) * 2 ^ 21
          - (dsmint divs' * 2 ^ 21 + dsmfrac divs') * pfd_of (data w)
       < pfd_of (data w)).
Proof.
  intros Hrun.
  apply calc_divs_success_inv in Hrun as (s & Hsearch & _ & Hpfd & -> & _).
  exists s. split; [exact Hsearch |].
  set (vco := vco_at (frequencies (data w) !!! 2%nat) (div s)).
  set (pfd := pfd_of (data w)) in *.
  assert (Hpos : 0 < pfd).
  { pose proof (u32_range ((if input_clk_freq (data w) =? 0
                            then xtal_freq (data w)
                            else input_clk_freq (data w))
                           * (if doubler_disabled (data w) then 1 else 2))).
    subst pfd. unfold pfd_of in *. lia. }
  assert (Hvco : 0 <= vco) by (subst vco; unfold vco_at; apply u32_range).
  pose proof (Z.mod_pos_bound vco pfd Hpos) as Hr.
  cbn [divs_found dsmint dsmfrac]. fold vco.
  split.
  { split; [apply Z.div_pos; lia |].
    apply Z.div_lt_upper_bound; lia. }
  split; [apply Z.mod_pos_bound; lia |].
  intros Hq.
  rewrite (Z.mod_small (vco / pfd)) by (split; [apply Z.div_pos |]; lia).
  pose proof (Z.div_mod vco pfd ltac:(lia)) as Hdm.
  pose proof (Z.div_mod (vco mod pfd * 2 ^ 21) pfd ltac:(lia)) as Hdm2.
  pose proof (Z.mod_pos_bound (vco mod pfd * 2 ^ 21) pfd Hpos) as Hr2.
  nia.
Qed.

Lemma calc_divs_dsm_accuracy_witness :
  exists s,
    calc_divs_search (frequencies (data world_125MHz) !!! 2%nat) world_125MHz
    = Ok (s, world_125MHz) /\
    0 <= 0 < 2 ^ 21 /\
    0 <= 70 < 2 ^ 16 /\
    (vco_at (frequencies (data world_125MHz) !!! 2%nat) (div s)
     / pfd_of (data world_125MHz) < 2 ^ 16 ->
     0 <= vco_at (frequencies (data world_125MHz) !!! 2%nat) (div s) * 2 ^ 21
          - (70 * 2 ^ 21 + 0) * pfd_of (data world_125MHz)
       < pfd_of (data world_125MHz)).
Proof.
  apply (calc_divs_dsm_accuracy example_divs world_125MHz divs_125MHz
           world_125MHz).
  vm_compute. reflexivity.
Defined.

(** ** Reading a field back *)

Lemma trailing_zeros_range m : 0 <= trailing_zeros m <= 8.
Proof.
  unfold trailing_zeros. cbn [ctz_from].
  repeat match goal with
         | |- context [if ?b then _ else _] => destruct b
         end; lia.
Qed.

(** X3: [mask_and_shift] undoes the merge of a masked write: from the
    byte a masked write puts together it reads back the bits of the field
    value that the mask has room for, whatever the shadow byte was; a
    value that fits the field is read back as it was. *)
Theorem mask_and_shift_masked_byte V S M :
  0 <= S < 256 -> 0 <= M < 256 -> 0 <= V < 256 ->
  mask_and_shift (masked_byte V S M) M
  = Z.land V (Z.shiftr M (trailing_zeros M)) /\
  (Z.land V (Z.shiftr M (trailing_zeros M)) = V ->
   mask_and_shift (masked_byte V S M) M = V).
Proof.
  intros HS HM HV.
  assert (Hmain : mask_and_shift (masked_byte V S M) M
                  = Z.land V (Z.shiftr M (trailing_zeros M))).
  { unfold mask_and_shift.
    pose proof (masked_byte_range V S M HS HM) as Hb.
    rewrite (u32_small (masked_byte V S M)) by lia.
    unfold u8. rewrite (Z.mod_small M) by lia.
    destruct (Z.eq_dec M 0) as [-> | HM0].
    { rewrite Z.land_0_r, Z.shiftr_0_l, Z.shiftr_0_l, Z.land_0_r.
      reflexivity. }
    rewrite bits_to_shift_trailing_zeros by lia.
    pose proof (trailing_zeros_range M) as Ht.
    apply Z.bits_inj'. intros i Hi.
    rewrite Z.shiftr_spec, !Z.land_spec, Z.shiftr_spec by lia.
    rewrite masked_byte_bits by lia.
    rewrite Z.shiftl_spec by lia.
    replace (i + trailing_zeros M - trailing_zeros M) with i by lia.
    destruct (Z.testbit M (i + trailing_zeros M));
      rewrite ?andb_true_r, ?andb_false_r, ?orb_false_r; reflexivity. }
  split; [exact Hmain |]. intros Hfit. rewrite Hmain. exact Hfit.
Qed.

Lemma mask_and_shift_masked_byte_witness :
  mask_and_shift (masked_byte 0x1A 0xE0 0x1F) 0x1F
  = Z.land 0x1A (Z.shiftr 0x1F (trailing_zeros 0x1F)) /\
  (Z.land 0x1A (Z.shiftr 0x1F (trailing_zeros 0x1F)) = 0x1A ->
   mask_and_shift (masked_byte 0x1A 0xE0 0x1F) 0x1F = 0x1A).
Proof.
  apply (mask_and_shift_masked_byte 0x1A 0xE0 0x1F); lia.
Defined.

(** ** The retry loop of a register write *)

Lemma write_attempts_success n reg val : forall fails rest w,
  bus_errors w = fails ++ rest ->
  Forall (fun e => e <> 0) fails ->
  (rest = [] \/ exists rest', rest = 0 :: rest') ->
  (length fails <= n)%nat ->
  write_attempts n reg val w
  = Ok (0, with_bus (tail rest) (with_reg reg val w)).
Proof.
  induction n as [| n IH]; intros fails rest w Hbus Hfails Hrest Hlen.
  - destruct fails as [| e fs]; [| cbn in Hlen; lia].
    cbn [app] in Hbus. cbn [write_attempts]. unfold bind, regmap_write.
    rewrite Hbus.
    destruct Hrest as [-> | [rest' ->]]; reflexivity.
  - destruct fails as [| e fs].
    + cbn [app] in Hbus. cbn [write_attempts]. unfold bind, regmap_write.
      rewrite Hbus.
      destruct Hrest as [-> | [rest' ->]]; reflexivity.
    + inversion Hfails as [| ? ? He Hfs]; subst.
      cbn [write_attempts]. unfold bind at 1. unfold regmap_write.
      rewrite Hbus. cbn [app].
      apply Z.eqb_neq in He. rewrite He. cbv beta iota. rewrite He.
      rewrite (IH fs rest); [reflexivity | reflexivity | exact Hfs
                            | exact Hrest | cbn in Hlen; lia].
Qed.

Lemma write_attempts_failure n reg val : forall fails rest w,
  bus_errors w = fails ++ rest ->
  Forall (fun e => e <> 0) fails ->
  length fails = S n ->
  write_attempts n reg val w = Ok (List.last fails 0, with_bus rest w).
Proof.
  induction n as [| n IH]; intros fails rest w Hbus Hfails Hlen.
  - destruct fails as [| e [| e' fs]]; try discriminate Hlen.
    inversion Hfails as [| ? ? He _]; subst.
    cbn [write_attempts]. unfold bind, regmap_write.
    rewrite Hbus. cbn [app].
    apply Z.eqb_neq in He. rewrite He. cbv beta iota. rewrite He.
    reflexivity.
  - destruct fails as [| e fs]; [discriminate Hlen |].
    inversion Hfails as [| ? ? He Hfs]; subst.
    cbn [write_attempts]. unfold bind at 1. unfold regmap_write.
    rewrite Hbus. cbn [app].
    apply Z.eqb_neq in He. rewrite He. cbv beta iota. rewrite He.
    rewrite (IH fs rest); [| reflexivity | exact Hfs | cbn in Hlen; lia].
    destruct fs as [| e' fs']; [discriminate Hlen |]. reflexivity.
Qed.

(** X4: a register write that fails on at most five transactions in a
    row and then succeeds is reported as a success: [i2cwrite] returns 0,
    the register holds the value, and the transactions used are the
    failed ones and the successful one. *)
Theorem i2cwrite_retry_success reg val fails rest w :
  bus_errors w = fails ++ rest ->
  Forall (fun e => e <> 0) fails ->
  (rest = [] \/ exists rest', rest = 0 :: rest') ->
  (length fails <= 5)%nat ->
  exists w',
    i2cwrite reg val w = Ok (0, w') /\
    regs w' = <[u32 reg := u32 val]> (regs w) /\
    bus_errors w' = tail rest /\
    data w' = data w /\
    klog w' = klog w ++ [I2C_write (u32 reg) (u32 val)].
Proof.
  intros Hbus Hfails Hrest Hlen.
  unfold i2cwrite, regmapWriteWithRetry.
  erewrite bind_ok by apply printk_run.
  change (Z.to_nat 5) with 5%nat.
  rewrite (write_attempts_success 5 _ _ fails rest) by assumption.
  eexists. split; [reflexivity |]. repeat split.
Qed.

Lemma i2cwrite_retry_success_witness :
  exists w',
    i2cwrite IDT24x_REG_DSM_INT_7_0 70
      (with_bus [-5; -5; -5; -5; -5; 0; -5] world_idle) = Ok (0, w') /\
    regs w' = <[u32 IDT24x_REG_DSM_INT_7_0 := u32 70]> (regs world_idle) /\
    bus_errors w' = tail [0; -5] /\
    data w' = data world_idle /\
    klog w' = klog world_idle
              ++ [I2C_write (u32 IDT24x_REG_DSM_INT_7_0) (u32 70)].
Proof.
  apply (i2cwrite_retry_success IDT24x_REG_DSM_INT_7_0 70
           [-5; -5; -5; -5; -5] [0; -5]
           (with_bus [-5; -5; -5; -5; -5; 0; -5] world_idle)).
  - reflexivity.
  - repeat constructor; discriminate.
  - right. exists [-5]. reflexivity.
  - simpl. lia.
Defined.

(** X5: when six transactions in a row fail, [i2cwrite] gives up: it
    returns the code of the sixth failure, the register file is as
    before, and no seventh transaction is made. *)
Theorem i2cwrite_retry_exhausted reg val fails rest w :
  bus_errors w = fails ++ rest ->
  Forall (fun e => e <> 0) fails ->
  length fails = 6%nat ->
  exists w',
    i2cwrite reg val w = Ok (List.last fails 0, w') /\
    List.last fails 0 <> 0 /\
    regs w' = regs w /\
    bus_errors w' = rest /\
    data w' = data w /\
    klog w' = klog w ++ [I2C_write (u32 reg) (u32 val)].
Proof.
  intros Hbus Hfails Hlen.
  unfold i2cwrite, regmapWriteWithRetry.
  erewrite bind_ok by apply printk_run.
  change (Z.to_nat 5) with 5%nat.
  rewrite (write_attempts_failure 5 _ _ fails rest) by assumption.
  eexists. split; [reflexivity |]. repeat split.
  do 6 (destruct fails as [| ? fails]; [discriminate Hlen |]).
  destruct fails; [| discriminate Hlen].
  cbn [List.last].
  repeat match goal with
         | H : Forall _ (_ :: _) |- _ =>
             let He := fresh "He" in
             inversion H as [| ? ? He ?]; subst; clear H
         end.
  assumption.
Qed.

Lemma i2cwrite_retry_exhausted_witness :
  exists w',
    i2cwrite IDT24x_REG_DSM_INT_7_0 70
      (with_bus [-5; -5; -5; -5; -5; -6; 0] world_idle)
    = Ok (List.last [-5; -5; -5; -5; -5; -6] 0, w') /\
    List.last [-5; -5; -5; -5; -5; -6] 0 <> 0 /\
    regs w' = regs world_idle /\
    bus_errors w' = [0] /\
    data w' = data world_idle /\
    klog w' = klog world_idle
              ++ [I2C_write (u32 IDT24x_REG_DSM_INT_7_0) (u32 70)].
Proof.
  apply (i2cwrite_retry_exhausted IDT24x_REG_DSM_INT_7_0 70
           [-5; -5; -5; -5; -5; -6] [0]
           (with_bus [-5; -5; -5; -5; -5; -6; 0] world_idle)).
  - reflexivity.
  - repeat constructor; discriminate.
  - reflexivity.
Defined.

(** ** Enabling and disabling an output *)

(** X6: an output number from 4 to 255 is refused: [idt24x_get_offsets]
    returns [-EINVAL] without touching the structure, and
    [idt24x_enable_output] passes the error on without changing a shadow
    register or using the bus. *)
Theorem enable_output_bad_index so output en w :
  4 <= output <= 255 ->
  idt24x_get_offsets output so = (- EINVAL, so) /\
  idt24x_enable_output so output en w = Ok (- EINVAL, w).
Proof.
  intros Hout.
  assert (Hget : idt24x_get_offsets output so = (- EINVAL, so)).
  { unfold idt24x_get_offsets, u8. rewrite Z.mod_small by lia.
    destruct (Z.eqb_spec output 0); [lia |].
    destruct (Z.eqb_spec output 1); [lia |].
    destruct (Z.eqb_spec output 2); [lia |].
    destruct (Z.eqb_spec output 3); [lia |].
    reflexivity. }
  split; [exact Hget |].
  unfold idt24x_enable_output. rewrite Hget. reflexivity.
Qed.

Lemma enable_output_bad_index_witness :
  idt24x_get_offsets 4 example_offsets = (- EINVAL, example_offsets) /\
  idt24x_enable_output example_offsets 4 true world_idle
  = Ok (- EINVAL, world_idle).
Proof.
  apply (enable_output_bad_index example_offsets 4 true world_idle). lia.
Defined.

(** X7: for an output [k] from 0 to 3, [idt24x_enable_output] leaves bit
    [k] of the output-enable shadow equal to [en] and bit [k] of the
    output-disable shadow equal to its negation, and changes nothing else
    of the driver data but these two shadows; this holds also when a
    write fails.  When it returns 0 the two hardware registers hold the
    shadow bytes. *)
Theorem enable_output_sets_bits so k en w :
  0 <= k <= 3 ->
  exists e w',
    idt24x_enable_output so k en w = Ok (e, w') /\
    Z.testbit (regOUTENx (data w')) k = en /\
    Z.testbit (regQxDIS (data w')) k = negb en /\
    data w' = set_enable_regs (regOUTENx (data w')) (regQxDIS (data w'))
                (data w) /\
    (e = 0 ->
     regs w' !! IDT24x_REG_OUTEN = Some (regOUTENx (data w')) /\
     regs w' !! IDT24x_REG_Q_DIS = Some (regQxDIS (data w'))).
Proof.
  intros Hk.
  destruct (enable_output_spec so k en w Hk)
    as (e & w' & tail & Hrun & Hdata & Hb & _ & _ & Hregs & _).
  exists e, w'. split; [exact Hrun |].
  destruct (Hb k ltac:(lia)) as [Hoe Hdis].
  rewrite Z.eqb_refl in Hoe, Hdis. auto.
Qed.

Lemma enable_output_sets_bits_witness :
  exists e w',
    idt24x_enable_output example_offsets 2 true world_idle = Ok (e, w') /\
    Z.testbit (regOUTENx (data w')) 2 = true /\
    Z.testbit (regQxDIS (data w')) 2 = negb true /\
    data w' = set_enable_regs (regOUTENx (data w')) (regQxDIS (data w'))
                (data world_idle) /\
    (e = 0 ->
     regs w' !! IDT24x_REG_OUTEN = Some (regOUTENx (data w')) /\
     regs w' !! IDT24x_REG_Q_DIS = Some (regQxDIS (data w'))).
Proof.
  apply (enable_output_sets_bits example_offsets 2 true world_idle). lia.
Defined.

(** ** What the programming sequence leaves alone *)

Lemma set_enable_regs_same d :
  set_enable_regs (regOUTENx d) (regQxDIS d) d = d.
Proof. destruct d. reflexivity. Qed.

Lemma keeps_same {A} (m : M A) :
  (forall w r w', m w = Ok (r, w') -> data w' = data w) -> keeps_config m.
Proof.
  intros H w r w' Hrun. exists (regOUTENx (data w)), (regQxDIS (data w)).
  rewrite (H w r w' Hrun). symmetry. apply set_enable_regs_same.
Qed.

Lemma keeps_ret {A} (a : A) : keeps_config (ret a).
Proof. apply keeps_same. intros w r w' H. injection H as _ <-. reflexivity. Qed.

Lemma keeps_get_data : keeps_config get_data.
Proof. apply keeps_same. intros w r w' H. injection H as _ <-. reflexivity. Qed.

Lemma keeps_bind {A B} (m : M A) (k : A -> M B) :
  keeps_config m -> (forall a, keeps_config (k a)) -> keeps_config (bind m k).
Proof.
  intros Hm Hk w r w' H.
  apply bind_inv in H as (x & w1 & H1 & H2).
  destruct (Hm w x w1 H1) as (o1 & q1 & E1).
  destruct (Hk x w1 r w' H2) as (o2 & q2 & E2).
  exists o2, q2. rewrite E2, E1. reflexivity.
Qed.

Lemma keeps_if {A} (b : bool) (m1 m2 : M A) :
  keeps_config m1 -> keeps_config m2 -> keeps_config (if b then m1 else m2).
Proof. destruct b; auto. Qed.

Lemma keeps_i2cwrite reg val : keeps_config (i2cwrite reg val).
Proof.
  apply keeps_same. intros w r w' H.
  destruct (i2cwrite_spec reg val w) as (e & w1 & Hrun & Hd & _).
  rewrite H in Hrun. injection Hrun as -> ->. exact Hd.
Qed.

Lemma keeps_i2cwritewithmask reg val orig mask :
  keeps_config (i2cwritewithmask reg val orig mask).
Proof. unfold i2cwritewithmask. apply keeps_i2cwrite. Qed.

Lemma keeps_enable_output so k en :
  0 <= k <= 3 -> keeps_config (idt24x_enable_output so k en).
Proof.
  intros Hk w r w' H.
  destruct (enable_output_spec so k en w Hk)
    as (e & w1 & t & Hrun & Hdata & _).
  rewrite H in Hrun. injection Hrun as -> ->. eauto.
Qed.

Ltac keeps_step :=
  lazymatch goal with
  | |- keeps_config (ret _) => apply keeps_ret
  | |- keeps_config (fun w => Ok (_, w)) => apply keeps_ret
  | |- keeps_config get_data => apply keeps_get_data
  | |- keeps_config (i2cwritewithmask _ _ _ _) => apply keeps_i2cwritewithmask
  | |- keeps_config (i2cwrite _ _) => apply keeps_i2cwrite
  | |- keeps_config (idt24x_enable_output _ _ _) =>
      apply keeps_enable_output; lia
  | |- keeps_config (bind _ _) => apply keeps_bind; [| intros ?]
  | |- keeps_config (if _ then _ else _) => apply keeps_if
  end.

Lemma keeps_update_output so divs x :
  1 <= x <= 3 -> keeps_config (update_output so divs x).
Proof.
  intros Hx.
  assert (Hcases : x = 1 \/ x = 2 \/ x = 3) by lia.
  destruct Hcases as [-> | [-> | ->]]; unfold update_output;
    match goal with
    | |- context [idt24x_get_offsets ?k so] =>
        let o := eval cbv in (idt24x_get_offsets k so) in
        change (idt24x_get_offsets k so) with o
    end;
    cbv iota beta;
    cbn [n_17_16_offset n_17_16_mask n_15_8_offset n_7_0_offset
         nfrac_27_24_offset nfrac_27_24_mask nfrac_23_16_offset
         nfrac_15_8_offset nfrac_7_0_offset Z.eqb negb];
    repeat keeps_step.
Qed.

Lemma keeps_update_outputs so divs xs :
  Forall (fun x => 1 <= x <= 3) xs -> keeps_config (update_outputs so divs xs).
Proof.
  induction 1 as [| x xs Hx _ IH]; cbn [update_outputs].
  - apply keeps_ret.
  - apply keeps_bind; [apply keeps_update_output, Hx |].
    intros e. apply keeps_if; [apply keeps_ret | exact IH].
Qed.

Lemma keeps_update_device so divs : keeps_config (idt24x_update_device so divs).
Proof.
  unfold idt24x_update_device.
  repeat first [ apply keeps_update_outputs; repeat constructor; lia
               | keeps_step ].
Qed.

(** The divider calculation reads the driver data and prints; it changes
    neither the data, nor a register, nor the pending bus outcomes. *)
Lemma calc_divs_pure divs w r w' :
  idt24x_calc_divs divs w = Ok (r, w') ->
  data w' = data w /\ regs w' = regs w /\ bus_errors w' = bus_errors w.
Proof.
  intros Hrun.
  destruct (Z.eq_dec (frequencies (data w) !!! 2%nat) 0) as [Hf0 | Hf0].
  { rewrite (calc_divs_no_freq divs w Hf0) in Hrun.
    injection Hrun as _ <-. auto. }
  destruct (Z.eq_dec (u32 (frequencies (data w) !!! 2%nat * 2)) 0)
    as [Hz | Hnz].
  { rewrite (calc_divs_fault divs w Hf0 Hz) in Hrun. discriminate Hrun. }
  destruct (calc_divs_run divs w Hf0 Hnz) as (s & _ & _ & Hrun').
  rewrite Hrun in Hrun'.
  destruct (div s =? 0); [injection Hrun' as _ ->; auto |].
  destruct (pfd_of (data w) =? 0); [discriminate Hrun' |].
  injection Hrun' as _ ->. auto.
Qed.

Lemma keeps_set_frequency so sd : keeps_config (idt24x_set_frequency so sd).
Proof.
  unfold idt24x_set_frequency.
  apply keeps_bind; [apply keeps_get_data |]. intros d.
  apply keeps_if; [repeat keeps_step |].
  apply keeps_if; [apply keeps_ret |].
  apply keeps_bind.
  - apply keeps_same. intros w r w' H.
    apply calc_divs_pure in H. apply H.
  - intros r. apply keeps_if; [apply keeps_ret |].
    apply keeps_bind; [apply keeps_update_device |].
    intros e. apply keeps_if; apply keeps_ret.
Qed.

(** ** Setting and reading back the rate *)

(** X8: a rate inside the bounds of the device is stored before the
    device is programmed and stays stored whatever [idt24x_set_rate]
    returns, also an error: [idt24x_recalc_rate] then reports it, and the
    frequencies of the other outputs are as before.  A rate outside the
    bounds is refused with [-EINVAL] and nothing changes. *)
Theorem set_rate_stores_rate so sd rate parent_rate w :
  0 <= min_freq (data w) -> max_freq (data w) < 2 ^ 32 ->
  (2 < length (frequencies (data w)))%nat ->
  (min_freq (data w) <= rate <= max_freq (data w) ->
   forall r w',
     idt24x_set_rate so sd rate parent_rate w = Ok (r, w') ->
     idt24x_recalc_rate parent_rate w' = Ok (rate, w') /\
     forall i, i <> 2%nat ->
               frequencies (data w') !!! i = frequencies (data w) !!! i) /\
  (rate < min_freq (data w) \/ max_freq (data w) < rate ->
   idt24x_set_rate so sd rate parent_rate w = Ok (- EINVAL, w)).
Proof.
  intros Hmin Hmax Hlen. split.
  - intros Hrate r w' Hrun. unfold idt24x_set_rate in Hrun.
    apply bind_inv in Hrun as (d & w0 & Hget & Hrun).
    injection Hget as <- <-.
    destruct (Z.ltb_spec rate (min_freq (data w))) as [? | _]; [lia |].
    destruct (Z.ltb_spec (max_freq (data w)) rate) as [? | _]; [lia |].
    cbn [orb] in Hrun.
    apply bind_inv in Hrun as ([] & w1 & Hput & Hrun).
    injection Hput as <-.
    destruct (keeps_set_frequency so sd _ _ _ Hrun) as (o & q & Hdata).
    cbn [data set_frequencies] in Hdata.
    assert (Hfs : frequencies (data w')
                  = <[2%nat := rate]> (frequencies (data w))).
    { rewrite Hdata. cbn [set_enable_regs frequencies].
      unfold idt24x_get_output_num. change (Z.to_nat 2) with 2%nat.
      rewrite u32_small by lia. reflexivity. }
    split.
    + unfold idt24x_recalc_rate, bind, get_data, ret. rewrite Hfs.
      rewrite list_lookup_total_insert_eq by exact Hlen. reflexivity.
    + intros i Hi. rewrite Hfs.
      apply list_lookup_total_insert_ne. congruence.
  - intros Hout. unfold idt24x_set_rate.
    erewrite bind_ok by reflexivity.
    destruct (Z.ltb_spec rate (min_freq (data w)));
      destruct (Z.ltb_spec (max_freq (data w)) rate);
      try reflexivity; lia.
Qed.

Lemma set_rate_stores_rate_witness :
  (forall r w',
      idt24x_set_rate example_offsets example_divs 125000000 0
        world_no_reference = Ok (r, w') ->
      idt24x_recalc_rate 0 w' = Ok (125000000, w') /\
      forall i, i <> 2%nat ->
                frequencies (data w') !!! i
                = frequencies (data world_no_reference) !!! i) /\
  idt24x_set_rate example_offsets example_divs 125000000 0
    world_no_reference
  = Ok (- EINVAL,
        with_frequencies [0; 0; 125000000; 0]
          {| data := set_frequencies [0; 0; 0; 0] [0; 0; 125000000; 0]
                       (data world_no_reference);
             regs := ∅; bus_errors := []; klog := [] |}).
Proof.
  destruct (set_rate_stores_rate example_offsets example_divs 125000000 0
              world_no_reference) as [Hstore _].
  - vm_compute. discriminate.
  - vm_compute. reflexivity.
  - simpl. lia.
  - split.
    + apply Hstore. vm_compute. split; discriminate.
    + vm_compute. reflexivity.
Defined.

(** ** Reading the shadow registers from the hardware *)

Lemma update_data_run f w :
  update_data f w
  = Ok (tt, {| data := f (data w); regs := regs w;
               bus_errors := bus_errors w; klog := klog w |}).
Proof. reflexivity. Qed.

Lemma regmap_read_cases reg w :
  (exists e rest, bus_errors w = e :: rest /\ e <> 0 /\
                  regmap_read reg w = Ok (inl e, with_bus rest w)) \/
  (exists pre, (pre = [] \/ pre = [0]) /\
               bus_errors w = pre ++ tail (bus_errors w) /\
               regmap_read reg w
               = Ok (inr (reg_value (regs w) reg),
                     with_bus (tail (bus_errors w)) w)).
Proof.
  unfold regmap_read. destruct w as [d m bus l]. cbn.
  destruct bus as [| e rest].
  - right. exists []. auto.
  - destruct (Z.eqb_spec e 0) as [-> | He].
    + right. exists [0]. repeat split; auto.
    + left. exists e, rest. auto.
Qed.

Lemma stopped_ret w : stopped_at_first_error 0 w 0 w.
Proof.
  repeat split. exists []. split; [constructor |]. split; [reflexivity |].
  cbn. lia.
Qed.

Lemma stopped_weaken n n' w r w' :
  (n <= n')%nat ->
  stopped_at_first_error n w r w' -> stopped_at_first_error n' w r w'.
Proof.
  intros Hn (Hr & Hk & pre & Hp & Hb & Hl).
  split; [exact Hr |]. split; [exact Hk |].
  exists pre. split; [exact Hp |]. split; [exact Hb | lia].
Qed.

Lemma stopped_trans n1 n2 w w1 r w' :
  stopped_at_first_error n1 w 0 w1 -> stopped_at_first_error n2 w1 r w' ->
  stopped_at_first_error (n1 + n2) w r w'.
Proof.
  intros (Hr1 & Hk1 & pre1 & Hp1 & Hb1 & Hl1)
         (Hr2 & Hk2 & pre2 & Hp2 & Hb2 & Hl2).
  split; [congruence |]. split; [congruence |].
  exists (pre1 ++ pre2). split; [apply Forall_app; auto |]. split.
  - rewrite Hb1. cbn [Z.eqb app]. rewrite Hb2, <- app_assoc. reflexivity.
  - rewrite length_app. cbn [Z.eqb] in Hl1. lia.
Qed.

Lemma reads_ret_zero : reads_only 0 (ret 0).
Proof. intros w r w' H. injection H as <- <-. apply stopped_ret. Qed.

Lemma reads_read n reg (k : Z -> M Z) :
  (forall v, reads_only n (k v)) ->
  reads_only (S n)
    (bind (regmap_read reg)
       (fun r => match r with
                 | inl err => (fun w => Ok (err, w))
                 | inr x => k x
                 end)).
Proof.
  intros Hk w r w' Hrun.
  destruct (regmap_read_cases reg w)
    as [(e & rest & Hbus & He & Hread) | (pre & Hpre & Hbus & Hread)];
    rewrite (bind_ok _ _ _ _ _ Hread) in Hrun.
  - injection Hrun as <- <-. repeat split. exists [].
    split; [constructor |].
    apply Z.eqb_neq in He. rewrite He. split; [exact Hbus | cbn; lia].
  - apply (stopped_trans 1 n w (with_bus (tail (bus_errors w)) w)).
    + repeat split. exists pre. split; [| split].
      * destruct Hpre as [-> | ->]; repeat constructor.
      * exact Hbus.
      * destruct Hpre as [-> | ->]; cbn; lia.
    + apply (Hk _ _ _ _ Hrun).
Qed.

Lemma reads_update_data n f (k : M Z) :
  reads_only n k -> reads_only n (bind (update_data f) (fun _ => k)).
Proof.
  intros Hk w r w' Hrun.
  rewrite (bind_ok _ _ _ _ _ (update_data_run f w)) in Hrun.
  apply Hk in Hrun. exact Hrun.
Qed.

Lemma reads_try n1 n2 (m k : M Z) :
  reads_only n1 m -> reads_only n2 k ->
  reads_only (n1 + n2)
    (bind m (fun err => if negb (err =? 0)
                        then (fun w => Ok (err, w)) else k)).
Proof.
  intros Hm Hk w r w' Hrun.
  apply try_inv in Hrun as (e & w1 & H1 & [(He & -> & ->) | (-> & H2)]).
  - apply (stopped_weaken n1); [lia | apply (Hm _ _ _ H1)].
  - apply (stopped_trans n1 n2 w w1);
      [apply (Hm _ _ _ H1) | apply (Hk _ _ _ H2)].
Qed.

Ltac reads_step :=
  lazymatch goal with
  | |- reads_only _ (ret 0) => apply reads_ret_zero
  | |- reads_only _ (bind (regmap_read _) _) => apply reads_read; intros ?
  | |- reads_only _ (bind (update_data _) _) => apply reads_update_data
  end.

Lemma reads_read_output_shadows so output :
  1 <= output <= 3 -> reads_only 2 (read_output_shadows so output).
Proof.
  intros Ho.
  assert (Hcases : output = 1 \/ output = 2 \/ output = 3) by lia.
  destruct Hcases as [-> | [-> | ->]]; unfold read_output_shadows;
    match goal with
    | |- context [idt24x_get_offsets ?k so] =>
        let o := eval cbv in (idt24x_get_offsets k so) in
        change (idt24x_get_offsets k so) with o
    end;
    cbv iota beta; cbn [Z.eqb negb n_17_16_offset nfrac_27_24_offset];
    repeat reads_step.
Qed.

Lemma reads_read_outputs_shadows so outputs :
  Forall (fun o => 1 <= o <= 3) outputs ->
  reads_only (2 * length outputs) (read_outputs_shadows so outputs).
Proof.
  induction 1 as [| o os Ho _ IH]; cbn [read_outputs_shadows].
  - apply reads_ret_zero.
  - replace (2 * length (o :: os))%nat with (2 + 2 * length os)%nat
      by (cbn [length]; lia).
    apply reads_try; [apply reads_read_output_shadows, Ho | exact IH].
Qed.

Lemma reads_read_from_hw so : reads_only 12 (idt24x_read_from_hw so).
Proof.
  unfold idt24x_read_from_hw.
  do 10 reads_step.
  apply (reads_try 6 1).
  { apply (reads_read_outputs_shadows so [1; 2; 3]). repeat constructor; lia. }
  intros w r w' Hrun.
  apply bind_inv in Hrun as (d & w0 & Hget & Hrun).
  injection Hget as <- <-.
  destruct (xtal_freq (data w) =? 0).
  - apply (stopped_weaken 0); [lia |]. apply reads_ret_zero. exact Hrun.
  - revert Hrun. revert w r w'.
    change (reads_only 1
              (bind (regmap_read IDT24x_REG_DBL_DIS)
                 (fun r => match r with
                           | inl err => (fun w => Ok (err, w))
                           | inr tmp =>
                               let! _ := update_data
                                 (set_doubler_disabled
                                    (negb (mask_and_shift tmp
                                             IDT24x_REG_DBL_DIS_MASK =? 0))) in
                               ret 0
                           end))).
    repeat reads_step.
Qed.

(** X10: [idt24x_read_from_hw] never writes a register; the bus
    transactions it uses all succeeded, except the last one when its
    result is not zero, and that result is the return code of this failed
    read: it stops at the first read that fails.  It makes at most twelve
    reads. *)
Theorem read_from_hw_stops_at_first_error so w r w' :
  idt24x_read_from_hw so w = Ok (r, w') ->
  regs w' = regs w /\
  exists pre,
    Forall (fun e => e = 0) pre /\
    bus_errors w = pre ++ (if r =? 0 then [] else [r]) ++ bus_errors w' /\
    (length pre + (if (r =? 0)%Z then 0 else 1) <= 12)%nat.
Proof.
  intros Hrun.
  destruct (reads_read_from_hw so w r w' Hrun) as (Hregs & _ & Hbus).
  split; [exact Hregs | exact Hbus].
Qed.

Lemma read_from_hw_stops_at_first_error_witness :
  let w := with_bus [0; 0; -6; 7] world_idle in
  let w' := {| data := set_regDSMFRAC_20_16 0
                         (set_regDSM_INT_8 0 (data world_idle));
               regs := ∅; bus_errors := [7]; klog := [] |} in
  idt24x_read_from_hw example_offsets w = Ok (-6, w') /\
  regs w' = regs w /\
  exists pre,
    Forall (fun e => e = 0) pre /\
    bus_errors w = pre ++ (if -6 =? 0 then [] else [-6]) ++ bus_errors w' /\
    (length pre + (if (-6 =? 0)%Z then 0 else 1) <= 12)%nat.
Proof.
  intros w w'.
  assert (Hrun : idt24x_read_from_hw example_offsets w = Ok (-6, w'))
    by (vm_compute; reflexivity).
  split; [exact Hrun |].
  exact (read_from_hw_stops_at_first_error example_offsets w (-6) w' Hrun).
Defined.

Lemma read_success reg (k : Z -> M Z) d m bus l w' :
  bind (regmap_read reg)
    (fun r => match r with
              | inl err => (fun w => Ok (err, w))
              | inr x => k x
              end)
    {| data := d; regs := m; bus_errors := bus; klog := l |} = Ok (0, w') ->
  exists bus',
    k (reg_value m reg)
      {| data := d; regs := m; bus_errors := bus'; klog := l |} = Ok (0, w').
Proof.
  unfold bind, regmap_read. cbn [bus_errors regs data klog].
  destruct bus as [| e rest].
  - intros H. exists []. exact H.
  - destruct (Z.eqb_spec e 0) as [-> | He].
    + intros H. exists rest. exact H.
    + intros H. injection H as H _. contradiction.
Qed.

Lemma update_success f (k : M Z) d m bus l :
  bind (update_data f) (fun _ => k)
    {| data := d; regs := m; bus_errors := bus; klog := l |}
  = k {| data := f d; regs := m; bus_errors := bus; klog := l |}.
Proof. reflexivity. Qed.

Lemma ret_success d m bus l w' :
  ret 0 {| data := d; regs := m; bus_errors := bus; klog := l |} = Ok (0, w') ->
  w' = {| data := d; regs := m; bus_errors := bus; klog := l |}.
Proof. intros H. injection H as <-. reflexivity. Qed.

Lemma read_output_shadows_success so output d m bus l w' :
  1 <= output <= 3 ->
  read_output_shadows so output
    {| data := d; regs := m; bus_errors := bus; klog := l |} = Ok (0, w') ->
  let offsets := snd (idt24x_get_offsets output so) in
  let i := Z.to_nat (output - 1) in
  exists bus',
    w' = {| data := set_regNFRAC_Qx_27_24 i
                      (u8 (reg_value m (nfrac_27_24_offset offsets)))
                      (set_regN_Qx_17_16 i
                         (u8 (reg_value m (n_17_16_offset offsets))) d);
            regs := m; bus_errors := bus'; klog := l |}.
Proof.
  intros Ho.
  assert (Hcases : output = 1 \/ output = 2 \/ output = 3) by lia.
  destruct Hcases as [-> | [-> | ->]]; unfold read_output_shadows;
    match goal with
    | |- context [idt24x_get_offsets ?k so] =>
        let o := eval cbv in (idt24x_get_offsets k so) in
        change (idt24x_get_offsets k so) with o
    end;
    cbv iota beta;
    cbn [Z.eqb negb n_17_16_offset nfrac_27_24_offset snd];
    intros H;
    apply read_success in H as (b1 & H); rewrite update_success in H;
    apply read_success in H as (b2 & H); rewrite update_success in H;
    apply ret_success in H; exists b2; exact H.
Qed.

Lemma doubler_bit tmp :
  negb (mask_and_shift tmp IDT24x_REG_DBL_DIS_MASK =? 0) = Z.odd tmp.
Proof.
  unfold mask_and_shift.
  change (u8 IDT24x_REG_DBL_DIS_MASK) with (Z.ones 1).
  change (bits_to_shift (Z.ones 1)) with 0.
  rewrite Z.shiftr_0_r, Z.land_ones by lia.
  unfold u32. change (2 ^ 1) with 2. change (2 ^ 32) with 4294967296.
  replace ((tmp mod 4294967296) mod 2) with (tmp mod 2) by dlia.
  rewrite Zmod_odd. destruct (Z.odd tmp); reflexivity.
Qed.

(** The driver data after a successful read-back. *)
Lemma read_from_hw_data so w w' :
  idt24x_read_from_hw so w = Ok (0, w') ->
  data w' =
    if xtal_freq (data w) =? 0 then shadows_read (regs w) (data w)
    else set_doubler_disabled
           (Z.odd (reg_value (regs w) IDT24x_REG_DBL_DIS))
           (shadows_read (regs w) (data w)).
Proof.
  destruct w as [d m bus l]. cbn [data regs].
  unfold idt24x_read_from_hw. intros H.
  do 5 (apply read_success in H as (? & H); rewrite update_success in H).
  cbn [read_outputs_shadows] in H.
  apply try_inv in H as (e0 & w0 & H0 & [(He & Hr & _) | (-> & H)]);
    [congruence |].
  apply try_inv in H0 as (e1 & w1 & H1 & [(He & Hr & _) | (-> & H0)]);
    [congruence |].
  apply read_output_shadows_success in H1 as (b1 & ->); [| lia].
  apply try_inv in H0 as (e2 & w2 & H2 & [(He & Hr & _) | (-> & H0)]);
    [congruence |].
  apply read_output_shadows_success in H2 as (b2 & ->); [| lia].
  apply try_inv in H0 as (e3 & w3 & H3 & [(He & Hr & _) | (-> & H0)]);
    [congruence |].
  apply read_output_shadows_success in H3 as (b3 & ->); [| lia].
  apply ret_success in H0. subst w0.
  apply bind_inv in H as (d' & w5 & Hget & H).
  injection Hget as <- <-.
  cbn [data xtal_freq set_regNFRAC_Qx_27_24 set_regN_Qx_17_16 set_shadows
       set_regNS1_Q0 set_regQxDIS set_regOUTENx set_regDSMFRAC_20_16
       set_regDSM_INT_8] in H.
  destruct (xtal_freq d =? 0).
  - apply ret_success in H. subst w'. reflexivity.
  - apply read_success in H as (b4 & H). rewrite update_success in H.
    apply ret_success in H. subst w'. cbn [data].
    rewrite doubler_bit. reflexivity.
Qed.

(** X11: when [idt24x_read_from_hw] returns 0, every shadow byte holds
    the low byte of a register of the chip as it was when the function
    started: DSM_INT_8, OUTEN, Q_DIS, NS1_Q0 and the N_Qx_17_16 and
    NFRAC_Qx_27_24 bytes of outputs 1 to 3 each from their own address,
    the regDSMFRAC_20_16 shadow from address 0x1F (the mask constant),
    not from register 0x28.  [doubler_disabled] becomes bit 0 of register
    0x6C when a crystal frequency is configured and is left alone
    otherwise; nothing else of the driver data changes. *)
Theorem read_from_hw_fills_shadows so w w' :
  idt24x_read_from_hw so w = Ok (0, w') ->
  data w' =
    if xtal_freq (data w) =? 0 then shadows_read (regs w) (data w)
    else set_doubler_disabled
           (Z.odd (reg_value (regs w) IDT24x_REG_DBL_DIS))
           (shadows_read (regs w) (data w)).
Proof. exact (read_from_hw_data so w w'). Qed.

Lemma read_from_hw_fills_shadows_witness :
  let w := with_reg IDT24x_REG_DBL_DIS 0x01
             (with_reg IDT24x_REG_DSMFRAC_20_16 0x77
                (with_reg IDT24x_REG_DSMFRAC_20_16_MASK 0x55
                   (with_reg IDT24x_REG_NFRAC_Q2_27_24 0x1A3 world_idle))) in
  let w' := {| data := set_doubler_disabled true
                         (shadows_read (regs w) (data w));
               regs := regs w; bus_errors := []; klog := [] |} in
  idt24x_read_from_hw example_offsets w = Ok (0, w') /\
  regDSMFRAC_20_16 (data w') = 0x55 /\
  regNFRAC_Qx_27_24 (data w') = [0; 0xA3; 0] /\
  data w' =
    if xtal_freq (data w) =? 0 then shadows_read (regs w) (data w)
    else set_doubler_disabled
           (Z.odd (reg_value (regs w) IDT24x_REG_DBL_DIS))
           (shadows_read (regs w) (data w)).
Proof.
  intros w w'.
  assert (Hrun : idt24x_read_from_hw example_offsets w = Ok (0, w'))
    by (vm_compute; reflexivity).
  split; [exact Hrun |].
  split; [vm_compute; reflexivity |].
  split; [vm_compute; reflexivity |].
  exact (read_from_hw_fills_shadows example_offsets w w' Hrun).
Defined.

(** ** The registers after the dividers were applied *)

Lemma i2cwrite_data reg val w e w' :
  i2cwrite reg val w = Ok (e, w') -> data w' = data w.
Proof.
  intros H.
  destruct (i2cwrite_spec reg val w) as (e1 & w1 & Hrun & Hd & _).
  rewrite H in Hrun. injection Hrun as -> ->. exact Hd.
Qed.

Lemma keeps_view {A} (m : M A) w r w' :
  keeps_config m -> m w = Ok (r, w') ->
  frequencies (data w') = frequencies (data w) /\
  regN_Qx_17_16 (data w') = regN_Qx_17_16 (data w) /\
  regNFRAC_Qx_27_24 (data w') = regNFRAC_Qx_27_24 (data w).
Proof.
  intros K H. destruct (K _ _ _ H) as (o & q & ->). repeat split.
Qed.

(** After a run of writes, the content of a register: the value of the
    last write to it. *)
Ltac last_write :=
  repeat match goal with
         | Hj : i2cwrite _ _ _ = Ok (_, ?wb) |- regs ?wb !! _ = _ =>
             first [ rewrite (i2cwrite_other _ _ _ _ _ _ Hj)
                       by (vm_compute; discriminate)
                   | exact (i2cwrite_sets _ _ _ _ Hj) ]
         end.

Ltac all_tries H :=
  repeat match type of H with
         | bind _ (fun err => if negb (err =? 0) then _ else _) _
           = Ok (0, _) =>
             let e := fresh "e" in
             let wn := fresh "wn" in
             let Hw := fresh "Hw" in
             apply try_inv in H
               as (e & wn & Hw & [(Hne & Heq & _) | (-> & H)]);
             [ congruence | ]
         end.

Ltac offsets_of so :=
  match goal with
  | |- context [idt24x_get_offsets ?k so] =>
      let o := eval cbv in (idt24x_get_offsets k so) in
      change (idt24x_get_offsets k so) with o
  end;
  cbv iota beta zeta;
  cbn [n_17_16_offset n_17_16_mask n_15_8_offset n_7_0_offset
       nfrac_27_24_offset nfrac_27_24_mask nfrac_23_16_offset
       nfrac_15_8_offset nfrac_7_0_offset Z.eqb negb snd];
  repeat match goal with
         | |- context [Z.to_nat ?z] =>
             let n := eval vm_compute in (Z.to_nat z) in
             change (Z.to_nat z) with n
         end.

Lemma update_output_regs so divs x w w' :
  1 <= x <= 3 ->
  frequencies (data w) !!! Z.to_nat x <> 0 ->
  update_output so divs x w = Ok (0, w') ->
  divider_written (regs w') (snd (idt24x_get_offsets x so))
    (nint divs !!! Z.to_nat (x - 1)) (nfrac divs !!! Z.to_nat (x - 1))
    (regN_Qx_17_16 (data w) !!! Z.to_nat (x - 1))
    (regNFRAC_Qx_27_24 (data w) !!! Z.to_nat (x - 1)).
Proof.
  intros Hx.
  assert (Hcases : x = 1 \/ x = 2 \/ x = 3) by lia.
  destruct Hcases as [-> | [-> | ->]];
    unfold update_output, divider_written; offsets_of so;
    intros Hf H;
    apply bind_inv in H as (d & w0 & Hget & H);
    injection Hget as <- <-;
    apply try_inv in H as (e & w1 & Hblock & [(Hne & Heq & _) | (-> & H)]);
    try congruence;
    match type of Hblock with
    | context [negb (?f =? 0)] =>
        destruct (Z.eqb_spec f 0) as [Hz | _]; [contradiction |]
    end;
    cbn [negb] in Hblock;
    all_tries Hblock;
    injection Hblock as <-;
    unfold i2cwritewithmask in *;
    match type of H with
    | ?rest _ = _ =>
        match rest with
        | context [idt24x_enable_output so ?k _] =>
            assert (Hrest : preserves (divider_reg k) rest)
              by (repeat preserves_step)
        end
    end;
    pose proof (Hrest _ _ _ H) as Hkeep;
    repeat lazymatch goal with
           | |- _ /\ _ => split
           end;
    (rewrite Hkeep by (vm_compute; reflexivity)); last_write.
Qed.

Lemma preserves_divider_reg so divs x y :
  1 <= x <= 3 -> 1 <= y <= 3 -> x <> y ->
  preserves (divider_reg x) (update_output so divs y).
Proof.
  intros Hx Hy Hxy.
  assert (Hcx : x = 1 \/ x = 2 \/ x = 3) by lia.
  assert (Hcy : y = 1 \/ y = 2 \/ y = 3) by lia.
  destruct Hcx as [-> | [-> | ->]]; destruct Hcy as [-> | [-> | ->]];
    try contradiction;
    unfold update_output; offsets_of so; repeat preserves_step.
Qed.

(** The registers of output [x]'s divider after the loop of
    [idt24x_update_device] went through the three outputs. *)
Lemma update_outputs_regs so divs x w w' :
  1 <= x <= 3 ->
  frequencies (data w) !!! Z.to_nat x <> 0 ->
  update_outputs so divs [1; 2; 3] w = Ok (0, w') ->
  divider_written (regs w') (snd (idt24x_get_offsets x so))
    (nint divs !!! Z.to_nat (x - 1)) (nfrac divs !!! Z.to_nat (x - 1))
    (regN_Qx_17_16 (data w) !!! Z.to_nat (x - 1))
    (regNFRAC_Qx_27_24 (data w) !!! Z.to_nat (x - 1)).
Proof.
  intros Hx Hf H. cbn [update_outputs] in H.
  apply try_inv in H as (e1 & w1 & H1 & [(Hne & Heq & _) | (-> & H)]);
    [congruence |].
  apply try_inv in H as (e2 & w2 & H2 & [(Hne & Heq & _) | (-> & H)]);
    [congruence |].
  apply try_inv in H as (e3 & w3 & H3 & [(Hne & Heq & _) | (-> & H)]);
    [congruence |].
  injection H as <-.
  destruct (keeps_view _ _ _ _ (keeps_update_output so divs 1 ltac:(lia)) H1)
    as (Hf1 & Hn1 & Hq1).
  destruct (keeps_view _ _ _ _ (keeps_update_output so divs 2 ltac:(lia)) H2)
    as (Hf2 & Hn2 & Hq2).
  assert (Hcases : x = 1 \/ x = 2 \/ x = 3) by lia.
  destruct Hcases as [-> | [-> | ->]].
  - pose proof (update_output_regs so divs 1 w w1 Hx Hf H1) as Hregs.
    pose proof (preserves_divider_reg so divs 1 2 Hx ltac:(lia) ltac:(lia)
                  _ _ _ H2) as K2.
    pose proof (preserves_divider_reg so divs 1 3 Hx ltac:(lia) ltac:(lia)
                  _ _ _ H3) as K3.
    unfold divider_written in Hregs |- *.
    rewrite !K3, !K2 by (vm_compute; reflexivity). exact Hregs.
  - rewrite <- Hf1 in Hf.
    pose proof (update_output_regs so divs 2 w1 w2 Hx Hf H2) as Hregs.
    pose proof (preserves_divider_reg so divs 2 3 Hx ltac:(lia) ltac:(lia)
                  _ _ _ H3) as K3.
    unfold divider_written in Hregs |- *. rewrite Hn1, Hq1 in Hregs.
    rewrite !K3 by (vm_compute; reflexivity). exact Hregs.
  - rewrite <- Hf1, <- Hf2 in Hf.
    pose proof (update_output_regs so divs 3 w2 w3 Hx Hf H3) as Hregs.
    rewrite Hn2, Hq2, Hn1, Hq1 in Hregs. exact Hregs.
Qed.

(** The registers of the feedback divider and of output 0's first stage,
    and of the dividers of the requested outputs, after a successful
    [idt24x_update_device]. *)
Lemma update_device_regs so divs w w' :
  idt24x_update_device so divs w = Ok (0, w') ->
  (regs w' !! IDT24x_REG_DSM_INT_8
   = Some (written_byte
             (Z.land (Z.shiftr (dsmint divs) 8) IDT24x_REG_DSM_INT_8_MASK)
             (regDSM_INT_8 (data w)) IDT24x_REG_DSM_INT_8_MASK) /\
   regs w' !! IDT24x_REG_DSM_INT_7_0
   = Some (u32 (Z.land (dsmint divs) 0xFF)) /\
   regs w' !! IDT24x_REG_DSMFRAC_20_16
   = Some (written_byte
             (Z.land (Z.shiftr (dsmfrac divs) 16)
                IDT24x_REG_DSMFRAC_20_16_MASK)
             (regDSM_INT_8 (data w)) IDT24x_REG_DSMFRAC_20_16_MASK) /\
   regs w' !! IDT24x_REG_DSMFRAC_15_8
   = Some (u32 (Z.land (Z.shiftr (dsmfrac divs) 8) 0xFF)) /\
   regs w' !! IDT24x_REG_DSMFRAC_7_0
   = Some (u32 (Z.land (dsmfrac divs) 0xFF)) /\
   regs w' !! IDT24x_REG_NS1_Q0
   = Some (written_byte
             (Z.land (Z.shiftr (ns1_q0 divs) 8) IDT24x_REG_NS1_Q0_MASK)
             (regNS1_Q0 (data w)) IDT24x_REG_NS1_Q0_MASK)) /\
  forall x,
    1 <= x <= 3 -> frequencies (data w) !!! Z.to_nat x <> 0 ->
    divider_written (regs w') (snd (idt24x_get_offsets x so))
      (nint divs !!! Z.to_nat (x - 1)) (nfrac divs !!! Z.to_nat (x - 1))
      (regN_Qx_17_16 (data w) !!! Z.to_nat (x - 1))
      (regNFRAC_Qx_27_24 (data w) !!! Z.to_nat (x - 1)).
Proof.
  unfold idt24x_update_device. intros H.
  apply bind_inv in H as (d & w0 & Hget & H).
  injection Hget as <- <-.
  all_tries H.
  apply bind_inv in H as (u & w9 & Hen & H).
  pose proof (preserves_update_outputs so divs [1; 2; 3]
                ltac:(repeat constructor; lia) _ _ _ H) as Hloop.
  assert (Hen' : preserves pll_reg
                   (idt24x_enable_output so 0
                      (negb (frequencies (data w) !!! 0%nat =? 0))))
    by preserves_step.
  pose proof (Hen' _ _ _ Hen) as Hkeep.
  destruct (keeps_view _ _ _ _ (keeps_enable_output so 0 _ ltac:(lia)) Hen)
    as (Hf9 & Hn9 & Hq9).
  unfold i2cwritewithmask in *.
  assert (Hd : data wn6 = data w).
  { repeat match goal with
           | Hj : i2cwrite _ _ _ = Ok (_, ?wb) |- data ?wb = _ =>
               rewrite (i2cwrite_data _ _ _ _ _ Hj)
           end.
    reflexivity. }
  split.
  - repeat lazymatch goal with
           | |- _ /\ _ => split
           end;
      rewrite Hloop, Hkeep by (vm_compute; reflexivity); last_write.
  - intros x Hx Hf.
    rewrite <- Hd, <- Hf9 in Hf. rewrite <- Hd, <- Hn9, <- Hq9.
    exact (update_outputs_regs so divs x w9 w' Hx Hf H).
Qed.

Lemma ones_byte k :
  1 <= k <= 8 -> u8 (Z.ones k) = Z.ones k /\ bits_to_shift (Z.ones k) = 0.
Proof.
  intros Hk.
  assert (Hc : k = 1 \/ k = 2 \/ k = 3 \/ k = 4 \/ k = 5 \/ k = 6 \/ k = 7
               \/ k = 8) by lia.
  repeat destruct Hc as [-> | Hc]; try subst k; split;
    vm_compute; reflexivity.
Qed.

(** [mask_and_shift] reads the field of a masked write back when the
    mask is the low [k] bits. *)
Lemma written_byte_decode V S k :
  1 <= k <= 8 ->
  mask_and_shift (written_byte V S (Z.ones k)) (Z.ones k) = V mod 2 ^ k.
Proof.
  intros Hk. destruct (ones_byte k Hk) as (Hu & Hs).
  unfold mask_and_shift, written_byte. rewrite Hu, Hs.
  rewrite Z.shiftl_0_r, Z.shiftr_0_r.
  apply Z.bits_inj'. intros i Hi.
  rewrite Z.land_spec.
  destruct (Z.lt_ge_cases i k) as [Hlt | Hge].
  - rewrite Z.ones_spec_low, andb_true_r by lia.
    unfold u32. rewrite !Z.mod_pow2_bits_low by lia.
    rewrite Z.lor_spec, !Z.land_spec, Z.lnot_spec by lia.
    rewrite Z.ones_spec_low by lia.
    unfold u8. rewrite !Z.mod_pow2_bits_low by lia.
    cbn [negb]. rewrite andb_true_r, andb_false_r, orb_false_r. reflexivity.
  - rewrite Z.ones_spec_high, andb_false_r by lia.
    symmetry. apply Z.mod_pow2_bits_high. lia.
Qed.

Lemma low_byte y : u32 (Z.land y 0xFF) = y mod 2 ^ 8.
Proof.
  change 0xFF with (Z.ones 8). rewrite Z.land_ones by lia.
  apply u32_small. pose proof (Z.mod_pos_bound y (2 ^ 8) ltac:(lia)). lia.
Qed.

Lemma field_of_low_mask y k :
  0 <= k -> Z.land y (Z.ones k) mod 2 ^ k = y mod 2 ^ k.
Proof.
  intros Hk. rewrite Z.land_ones by lia. apply Z.mod_mod. lia.
Qed.

Lemma divider_written_decodes m o n f sn sf :
  n_17_16_mask o = 0x03 -> nfrac_27_24_mask o = 0x0F ->
  divider_written m o n f sn sf ->
  output_divider_in m o (n mod 2 ^ 18) (f mod 2 ^ 28).
Proof.
  intros Hm1 Hm2 (H1 & H2 & H3 & H4 & H5 & H6 & H7).
  unfold output_divider_in, reg_value.
  rewrite H1, H2, H3, H4, H5, H6, H7, Hm1, Hm2. cbn [default from_option id].
  change 0x03 with (Z.ones 2). change 0x0F with (Z.ones 4).
  rewrite !written_byte_decode, !field_of_low_mask, !low_byte by lia.
  rewrite !Z.shiftr_div_pow2 by lia.
  change (2 ^ 2) with 4. change (2 ^ 4) with 16. change (2 ^ 8) with 256.
  change (2 ^ 16) with 65536. change (2 ^ 24) with 16777216.
  change (2 ^ 18) with 262144. change (2 ^ 28) with 268435456.
  split; dlia.
Qed.

(** The dividers read back from the registers after a successful
    [idt24x_update_device]. *)
Lemma update_device_decodes so divs w w' :
  idt24x_update_device so divs w = Ok (0, w') ->
  mask_and_shift (reg_value (regs w') IDT24x_REG_DSM_INT_8)
    IDT24x_REG_DSM_INT_8_MASK * 2 ^ 8
  + reg_value (regs w') IDT24x_REG_DSM_INT_7_0 = dsmint divs mod 2 ^ 9 /\
  mask_and_shift (reg_value (regs w') IDT24x_REG_DSMFRAC_20_16)
    IDT24x_REG_DSMFRAC_20_16_MASK * 2 ^ 16
  + reg_value (regs w') IDT24x_REG_DSMFRAC_15_8 * 2 ^ 8
  + reg_value (regs w') IDT24x_REG_DSMFRAC_7_0 = dsmfrac divs mod 2 ^ 21 /\
  forall x,
    1 <= x <= 3 -> frequencies (data w) !!! Z.to_nat x <> 0 ->
    output_divider_in (regs w') (snd (idt24x_get_offsets x so))
      (nint divs !!! Z.to_nat (x - 1) mod 2 ^ 18)
      (nfrac divs !!! Z.to_nat (x - 1) mod 2 ^ 28).
Proof.
  intros H.
  destruct (update_device_regs so divs w w' H)
    as ((H1 & H2 & H3 & H4 & H5 & _) & Hout).
  unfold reg_value. rewrite H1, H2, H3, H4, H5. cbn [default from_option id].
  change IDT24x_REG_DSM_INT_8_MASK with (Z.ones 1).
  change IDT24x_REG_DSMFRAC_20_16_MASK with (Z.ones 5).
  rewrite !written_byte_decode, !field_of_low_mask, !low_byte by lia.
  rewrite !Z.shiftr_div_pow2 by lia.
  change (2 ^ 1) with 2. change (2 ^ 5) with 32. change (2 ^ 8) with 256.
  change (2 ^ 16) with 65536.
  change (2 ^ 9) with 512. change (2 ^ 21) with 2097152.
  split; [dlia |]. split; [dlia |].
  intros x Hx Hf.
  apply (divider_written_decodes _ _ _ _ _ _) with (3 := Hout x Hx Hf);
    assert (Hc : x = 1 \/ x = 2 \/ x = 3) by lia;
    destruct Hc as [-> | [-> | ->]]; reflexivity.
Qed.

(** X12: after a successful [idt24x_update_device] the registers hold
    the dividers: read back with the driver's [mask_and_shift], the
    DSM_INT registers give the low 9 bits of [dsmint], the DSMFRAC
    registers the low 21 bits of [dsmfrac], and for each output 1 to 3
    with a requested frequency the N_Qx registers give the low 18 bits of
    its integer divider and the NFRAC_Qx registers the low 28 bits of its
    fraction; what is above the width of a field is dropped. *)
Theorem update_device_encodes_dividers so divs w w' :
  idt24x_update_device so divs w = Ok (0, w') ->
  mask_and_shift (reg_value (regs w') IDT24x_REG_DSM_INT_8)
    IDT24x_REG_DSM_INT_8_MASK * 2 ^ 8
  + reg_value (regs w') IDT24x_REG_DSM_INT_7_0 = dsmint divs mod 2 ^ 9 /\
  mask_and_shift (reg_value (regs w') IDT24x_REG_DSMFRAC_20_16)
    IDT24x_REG_DSMFRAC_20_16_MASK * 2 ^ 16
  + reg_value (regs w') IDT24x_REG_DSMFRAC_15_8 * 2 ^ 8
  + reg_value (regs w') IDT24x_REG_DSMFRAC_7_0 = dsmfrac divs mod 2 ^ 21 /\
  forall x,
    1 <= x <= 3 -> frequencies (data w) !!! Z.to_nat x <> 0 ->
    output_divider_in (regs w') (snd (idt24x_get_offsets x so))
      (nint divs !!! Z.to_nat (x - 1) mod 2 ^ 18)
      (nfrac divs !!! Z.to_nat (x - 1) mod 2 ^ 28).
Proof. exact (update_device_decodes so divs w w'). Qed.

Lemma update_device_encodes_dividers_witness :
  let w := with_frequencies [0; 0; 125000000; 0] world_idle in
  let w' := match idt24x_update_device example_offsets divs_wide w with
            | Ok (_, w') => w'
            | Fault _ => w
            end in
  idt24x_update_device example_offsets divs_wide w = Ok (0, w') /\
  reg_value (regs w') IDT24x_REG_DSM_INT_8 = 0x41 /\
  reg_value (regs w') IDT24x_REG_N_Q2_17_16 = 0x02 /\
  mask_and_shift (reg_value (regs w') IDT24x_REG_DSM_INT_8)
    IDT24x_REG_DSM_INT_8_MASK * 2 ^ 8
  + reg_value (regs w') IDT24x_REG_DSM_INT_7_0 = 0x1A5 /\
  mask_and_shift (reg_value (regs w') IDT24x_REG_DSMFRAC_20_16)
    IDT24x_REG_DSMFRAC_20_16_MASK * 2 ^ 16
  + reg_value (regs w') IDT24x_REG_DSMFRAC_15_8 * 2 ^ 8
  + reg_value (regs w') IDT24x_REG_DSMFRAC_7_0 = 0x1ABCDE /\
  output_divider_in (regs w') (snd (idt24x_get_offsets 2 example_offsets))
    0x2BEEF 0xF123456.
Proof.
  intros w w'.
  assert (Hrun : idt24x_update_device example_offsets divs_wide w
                 = Ok (0, w')) by (vm_compute; reflexivity).
  destruct (update_device_encodes_dividers example_offsets divs_wide w w'
              Hrun) as (H1 & H2 & H3).
  split; [exact Hrun |].
  split; [vm_compute; reflexivity |].
  split; [vm_compute; reflexivity |].
  split; [exact H1 |]. split; [exact H2 |].
  apply (H3 2); [lia | vm_compute; discriminate].
Defined.

(** ** Probe-time read-back followed by programming *)

Lemma written_byte_other_bits V S M n :
  0 <= n < 8 -> 0 <= M < 256 -> Z.testbit M n = false ->
  Z.testbit (written_byte V S M) n = Z.testbit S n.
Proof.
  intros Hn HM Hbit. unfold written_byte, u32.
  rewrite Z.mod_pow2_bits_low by lia.
  rewrite Z.lor_spec, !Z.land_spec, Z.lnot_spec by lia.
  replace (u8 M) with M by (unfold u8; rewrite Z.mod_small; lia).
  rewrite Hbit, andb_false_r. cbn [negb orb]. rewrite andb_true_r.
  unfold u8. apply Z.mod_pow2_bits_low. lia.
Qed.

Lemma u8_bit v n : 0 <= n < 8 -> Z.testbit (u8 v) n = Z.testbit v n.
Proof. intros Hn. unfold u8. apply Z.mod_pow2_bits_low. lia. Qed.

(** The shadows of the masked registers after a successful read-back. *)
Lemma read_from_hw_masked_shadows so w w1 :
  length (regN_Qx_17_16 (data w)) = 3%nat ->
  length (regNFRAC_Qx_27_24 (data w)) = 3%nat ->
  idt24x_read_from_hw so w = Ok (0, w1) ->
  regs w1 = regs w /\
  frequencies (data w1) = frequencies (data w) /\
  regDSM_INT_8 (data w1) = u8 (reg_value (regs w) IDT24x_REG_DSM_INT_8) /\
  regNS1_Q0 (data w1) = u8 (reg_value (regs w) IDT24x_REG_NS1_Q0) /\
  forall so' x,
    1 <= x <= 3 ->
    regN_Qx_17_16 (data w1) !!! Z.to_nat (x - 1)
    = u8 (reg_value (regs w)
            (n_17_16_offset (snd (idt24x_get_offsets x so')))) /\
    regNFRAC_Qx_27_24 (data w1) !!! Z.to_nat (x - 1)
    = u8 (reg_value (regs w)
            (nfrac_27_24_offset (snd (idt24x_get_offsets x so')))).
Proof.
  intros Hl1 Hl2 Hrun.
  destruct (reads_read_from_hw so w 0 w1 Hrun) as (Hregs & _).
  pose proof (read_from_hw_data so w w1 Hrun) as Hd.
  split; [exact Hregs |].
  destruct (regN_Qx_17_16 (data w)) as [| a1 [| a2 [| a3 [| ? ?]]]] eqn:En;
    try discriminate Hl1.
  destruct (regNFRAC_Qx_27_24 (data w)) as [| b1 [| b2 [| b3 [| ? ?]]]] eqn:Eq;
    try discriminate Hl2.
  assert (Hview :
    frequencies (data w1) = frequencies (data w) /\
    regDSM_INT_8 (data w1) = u8 (reg_value (regs w) IDT24x_REG_DSM_INT_8) /\
    regNS1_Q0 (data w1) = u8 (reg_value (regs w) IDT24x_REG_NS1_Q0) /\
    regN_Qx_17_16 (data w1)
    = [u8 (reg_value (regs w) IDT24x_REG_N_Q1_17_16);
       u8 (reg_value (regs w) IDT24x_REG_N_Q2_17_16);
       u8 (reg_value (regs w) IDT24x_REG_N_Q3_17_16)] /\
    regNFRAC_Qx_27_24 (data w1)
    = [u8 (reg_value (regs w) IDT24x_REG_NFRAC_Q1_27_24);
       u8 (reg_value (regs w) IDT24x_REG_NFRAC_Q2_27_24);
       u8 (reg_value (regs w) IDT24x_REG_NFRAC_Q3_27_24)]).
  { rewrite Hd.
    destruct (xtal_freq (data w) =? 0);
      unfold shadows_read; cbn [set_doubler_disabled set_shadows frequencies
        regDSM_INT_8 regNS1_Q0 regN_Qx_17_16 regNFRAC_Qx_27_24];
      rewrite En, Eq; repeat split. }
  destruct Hview as (Hf & H8 & Hns & Hn & Hq).
  split; [exact Hf |]. split; [exact H8 |]. split; [exact Hns |].
  intros so' x Hx. rewrite Hn, Hq.
  assert (Hc : x = 1 \/ x = 2 \/ x = 3) by lia.
  destruct Hc as [-> | [-> | ->]]; split; reflexivity.
Qed.

(** X13: programming the dividers after the probe-time read-back keeps
    the bits the driver does not own.  When [idt24x_read_from_hw] and
    then [idt24x_update_device] succeed, every bit outside the field mask
    of the registers DSM_INT_8 and NS1_Q0, and of the N_Qx_17_16 and
    NFRAC_Qx_27_24 registers of each requested output, is as it was in
    the chip before the read-back.  Register DSMFRAC_20_16 is the
    exception: its bits outside the mask become those of register
    DSM_INT_8. *)
Theorem read_then_update_keeps_other_bits so so' divs w w1 w2 :
  length (regN_Qx_17_16 (data w)) = 3%nat ->
  length (regNFRAC_Qx_27_24 (data w)) = 3%nat ->
  idt24x_read_from_hw so w = Ok (0, w1) ->
  idt24x_update_device so' divs w1 = Ok (0, w2) ->
  forall n,
    0 <= n < 8 ->
    (Z.testbit IDT24x_REG_DSM_INT_8_MASK n = false ->
     Z.testbit (reg_value (regs w2) IDT24x_REG_DSM_INT_8) n
     = Z.testbit (reg_value (regs w) IDT24x_REG_DSM_INT_8) n) /\
    (Z.testbit IDT24x_REG_NS1_Q0_MASK n = false ->
     Z.testbit (reg_value (regs w2) IDT24x_REG_NS1_Q0) n
     = Z.testbit (reg_value (regs w) IDT24x_REG_NS1_Q0) n) /\
    (Z.testbit IDT24x_REG_DSMFRAC_20_16_MASK n = false ->
     Z.testbit (reg_value (regs w2) IDT24x_REG_DSMFRAC_20_16) n
     = Z.testbit (reg_value (regs w) IDT24x_REG_DSM_INT_8) n) /\
    forall x,
      1 <= x <= 3 -> frequencies (data w) !!! Z.to_nat x <> 0 ->
      let o := snd (idt24x_get_offsets x so') in
      (Z.testbit (n_17_16_mask o) n = false ->
       Z.testbit (reg_value (regs w2) (n_17_16_offset o)) n
       = Z.testbit (reg_value (regs w) (n_17_16_offset o)) n) /\
      (Z.testbit (nfrac_27_24_mask o) n = false ->
       Z.testbit (reg_value (regs w2) (nfrac_27_24_offset o)) n
       = Z.testbit (reg_value (regs w) (nfrac_27_24_offset o)) n).
Proof.
  intros Hl1 Hl2 Hread Hupd n Hn.
  destruct (read_from_hw_masked_shadows so w w1 Hl1 Hl2 Hread)
    as (Hregs & Hf & H8 & Hns & Hout).
  destruct (update_device_regs so' divs w1 w2 Hupd)
    as ((R1 & _ & R3 & _ & _ & R6) & Rout).
  rewrite H8 in R1, R3. rewrite Hns in R6.
  split; [| split; [| split]].
  - intros Hbit. unfold reg_value at 1. rewrite R1.
    cbn [default from_option id].
    rewrite written_byte_other_bits by (auto; vm_compute; split; congruence).
    apply u8_bit, Hn.
  - intros Hbit. unfold reg_value at 1. rewrite R6.
    cbn [default from_option id].
    rewrite written_byte_other_bits by (auto; vm_compute; split; congruence).
    apply u8_bit, Hn.
  - intros Hbit. unfold reg_value at 1. rewrite R3.
    cbn [default from_option id].
    rewrite written_byte_other_bits by (auto; vm_compute; split; congruence).
    apply u8_bit, Hn.
  - intros x Hx Hfx. rewrite <- Hf in Hfx.
    destruct (Rout x Hx Hfx) as (Q1 & _ & _ & Q4 & _).
    destruct (Hout so' x Hx) as (S1 & S4). rewrite S1 in Q1. rewrite S4 in Q4.
    assert (Hm : 0 <= n_17_16_mask (snd (idt24x_get_offsets x so')) < 256 /\
                 0 <= nfrac_27_24_mask (snd (idt24x_get_offsets x so')) < 256).
    { assert (Hc : x = 1 \/ x = 2 \/ x = 3) by lia.
      destruct Hc as [-> | [-> | ->]]; vm_compute; repeat split; congruence. }
    cbv zeta. split; intros Hbit.
    + unfold reg_value at 1. rewrite Q1. cbn [default from_option id].
      rewrite written_byte_other_bits by (auto; apply Hm).
      apply u8_bit, Hn.
    + unfold reg_value at 1. rewrite Q4. cbn [default from_option id].
      rewrite written_byte_other_bits by (auto; apply Hm).
      apply u8_bit, Hn.
Qed.

Lemma read_then_update_keeps_other_bits_witness :
  let w := world_foreign_bits in
  let w1 := match idt24x_read_from_hw example_offsets w with
            | Ok (_, w1) => w1
            | Fault _ => w
            end in
  let w2 := match idt24x_update_device example_offsets divs_wide w1 with
            | Ok (_, w2) => w2
            | Fault _ => w1
            end in
  (idt24x_read_from_hw example_offsets w = Ok (0, w1) /\
   idt24x_update_device example_offsets divs_wide w1 = Ok (0, w2)) /\
  (reg_value (regs w2) IDT24x_REG_DSM_INT_8 = 0xA5 /\
   reg_value (regs w2) IDT24x_REG_N_Q2_17_16 = 0xF2 /\
   reg_value (regs w2) IDT24x_REG_NFRAC_Q2_27_24 = 0xAF /\
   reg_value (regs w2) IDT24x_REG_DSMFRAC_20_16 = 0xBA) /\
  Z.testbit (reg_value (regs w2) IDT24x_REG_N_Q2_17_16) 7
  = Z.testbit (reg_value (regs w) IDT24x_REG_N_Q2_17_16) 7.
Proof.
  intros w w1 w2.
  assert (Hr : idt24x_read_from_hw example_offsets w = Ok (0, w1))
    by (vm_compute; reflexivity).
  assert (Hu : idt24x_update_device example_offsets divs_wide w1
               = Ok (0, w2)) by (vm_compute; reflexivity).
  split; [split; [exact Hr | exact Hu] |].
  split; [eval_conj |].
  destruct (read_then_update_keeps_other_bits example_offsets example_offsets
              divs_wide w w1 w2 eq_refl eq_refl Hr Hu 7 ltac:(lia))
    as (_ & _ & _ & Hout).
  destruct (Hout 2 ltac:(lia) ltac:(vm_compute; discriminate)) as (Hn & _).
  apply Hn. reflexivity.
Defined.

(** ** Bulk writes *)

Lemma store_block_app base a b m :
  store_block base (a ++ b) m
  = store_block (base + Z.of_nat (length a)) b (store_block base a m).
Proof.
  revert base m. induction a as [| v a IH]; intros base m; cbn [app length].
  - cbn [store_block]. f_equal. lia.
  - cbn [store_block]. rewrite IH. f_equal. lia.
Qed.

Lemma store_block_lookup_out bytes base m a :
  a < base \/ base + Z.of_nat (length bytes) <= a ->
  store_block base bytes m !! a = m !! a.
Proof.
  revert base m. induction bytes as [| v bytes IH]; intros base m Ha;
    cbn [store_block]; [reflexivity |].
  cbn [length] in Ha. rewrite IH by lia.
  apply lookup_insert_ne. lia.
Qed.

Lemma store_block_lookup_in bytes base m i v :
  bytes !! i = Some v ->
  store_block base bytes m !! (base + Z.of_nat i) = Some v.
Proof.
  revert base m i.
  induction bytes as [| b bytes IH]; intros base m i Hi; [discriminate Hi |].
  cbn [store_block]. destruct i as [| i].
  - injection Hi as ->. rewrite store_block_lookup_out by lia.
    replace (base + Z.of_nat 0) with base by lia. apply lookup_insert_eq.
  - replace (base + Z.of_nat (S i)) with (base + 1 + Z.of_nat i) by lia.
    apply IH. exact Hi.
Qed.

Lemma bulk_attempts_spec n off vals w :
  exists e w',
    bulk_attempts n off vals w = Ok (e, w') /\
    data w' = data w /\ klog w' = klog w /\
    ((e = 0 /\ regs w' = store_block off vals (regs w)) \/
     (e <> 0 /\ regs w' = regs w)).
Proof.
  revert w. induction n as [| n IH]; intros w; cbn [bulk_attempts];
    unfold bind, regmap_bulk_write, ret;
    destruct (bus_errors w) as [| e rest]; cbn;
    try (eexists 0, _; split; [reflexivity |]; cbn; auto; fail);
    destruct (Z.eqb_spec e 0) as [-> | He]; cbn;
    try (eexists 0, _; split; [reflexivity |]; cbn; auto; fail).
  - apply Z.eqb_neq in He as He'. rewrite He'.
    eexists e, _. split; [reflexivity |]. cbn. auto.
  - apply Z.eqb_neq in He as He'. rewrite He'.
    destruct (IH {| data := data w; regs := regs w; bus_errors := rest;
                    klog := klog w |}) as (e2 & w2 & Hrun & Hd & Hk & Hr).
    exists e2, w2. auto.
Qed.

(** Invariant of the copy loop of [i2cwritebulk]: writing the pending
    bytes at the block offset would complete the transfer. *)
Lemma bulk_loop_ok vals :
  forall x s w s' w',
    length (block s) = 32%nat ->
    0 <= currentOffset s < 32 -> x mod 32 = currentOffset s -> 0 <= x ->
    0 <= blockOffset s ->
    blockOffset s + currentOffset s + Z.of_nat (length vals) < 2 ^ 32 ->
    bulk_loop vals x s w = Ok (s', w') -> bulk_err s = 0 -> bulk_err s' = 0 ->
    length (block s') = 32%nat /\ 0 <= currentOffset s' < 32 /\
    data w' = data w /\
    store_block (blockOffset s') (pending s') (regs w')
    = store_block (blockOffset s) (pending s ++ map u8 vals) (regs w).
Proof.
  induction vals as [| v rest IH];
    intros x s w s' w' Hlen Hcur Hx Hx0 Hbo Hfit Hrun Herr Herr'.
  - injection Hrun as <- <-. rewrite app_nil_r. auto.
  - cbn [bulk_loop] in Hrun. cbn [length] in Hfit.
    assert (Hpend : take (S (Z.to_nat (currentOffset s)))
                      (<[Z.to_nat (currentOffset s) := u8 v]> (block s))
                    = pending s ++ [u8 v]).
    { unfold pending.
      rewrite (take_S_r _ _ (u8 v))
        by (apply list_lookup_insert_eq; lia).
      rewrite take_insert_ge by lia. reflexivity. }
    destruct ((0 <? x) && ((x + 1) mod WRITE_BLOCK_SIZE =? 0)) eqn:Hflush.
    + apply andb_true_iff in Hflush as (_ & Hmod).
      apply Z.eqb_eq in Hmod. unfold WRITE_BLOCK_SIZE in Hmod.
      assert (Hc : currentOffset s = 31) by dlia.
      apply bind_inv in Hrun as (e & w1 & Hwrite & Hrun).
      unfold regmapBulkWriteWithRetry in Hwrite.
      destruct (bulk_attempts_spec (Z.to_nat 5) (blockOffset s)
                  (take (Z.to_nat WRITE_BLOCK_SIZE)
                     (<[Z.to_nat (currentOffset s) := u8 v]> (block s))) w)
        as (e1 & w1' & Hrun1 & Hd1 & _ & Hr1).
      rewrite Hwrite in Hrun1. injection Hrun1 as <- <-.
      destruct (Z.eqb_spec e 0) as [-> | He]; cbn [negb] in Hrun.
      2: { injection Hrun as <- <-. cbn [bulk_err] in Herr'. contradiction. }
      destruct Hr1 as [(_ & Hr1) | (Hne & _)]; [| contradiction].
      replace (Z.to_nat WRITE_BLOCK_SIZE) with (S (Z.to_nat (currentOffset s)))
        in Hr1 by (unfold WRITE_BLOCK_SIZE; lia).
      rewrite Hpend in Hr1.
      assert (Hu : u32 (blockOffset s + WRITE_BLOCK_SIZE)
                   = blockOffset s + 32).
      { unfold WRITE_BLOCK_SIZE. apply u32_small. lia. }
      rewrite Hu in Hrun.
      apply IH in Hrun; cbn [block currentOffset blockOffset bulk_err];
        try rewrite length_insert; try lia; try reflexivity; try exact Herr';
        try dlia.
      destruct Hrun as (Hl' & Hc' & Hd' & Hst).
      split; [exact Hl' |]. split; [exact Hc' |].
      split; [congruence |].
      rewrite Hst. unfold pending at 1.
      cbn [block currentOffset blockOffset take Z.to_nat app].
      rewrite Hr1.
      replace (pending s ++ map u8 (v :: rest))
        with ((pending s ++ [u8 v]) ++ map u8 rest)
        by (rewrite <- app_assoc; reflexivity).
      rewrite (store_block_app _ (pending s ++ [u8 v])).
      f_equal. rewrite <- Hpend, length_take, length_insert. lia.
    + assert (Hc : currentOffset s + 1 < 32).
      { apply andb_false_iff in Hflush.
        unfold WRITE_BLOCK_SIZE in Hflush.
        destruct Hflush as [Hf | Hf];
          [apply Z.ltb_ge in Hf | apply Z.eqb_neq in Hf]; dlia. }
      apply IH in Hrun; cbn [block currentOffset blockOffset bulk_err];
        try rewrite length_insert; try lia; try exact Herr; try exact Herr';
        try dlia.
      destruct Hrun as (Hl' & Hc' & Hd' & Hst).
      split; [exact Hl' |]. split; [exact Hc' |]. split; [exact Hd' |].
      rewrite Hst. unfold pending at 1.
      cbn [block currentOffset blockOffset].
      replace (Z.to_nat (currentOffset s + 1))
        with (S (Z.to_nat (currentOffset s))) by lia.
      rewrite Hpend, <- app_assoc. reflexivity.
Qed.

Lemma i2cwritebulk_regs sb reg val w w' :
  length sb = 32%nat -> 0 <= reg ->
  reg + Z.of_nat (length val) < 2 ^ 32 ->
  i2cwritebulk sb reg val w = Ok (0, w') ->
  regs w' = store_block reg (map u8 val) (regs w) /\ data w' = data w.
Proof.
  intros Hlen Hreg Hfit Hrun. unfold i2cwritebulk in Hrun.
  apply bind_inv in Hrun as (s & w1 & Hloop & Hrun).
  assert (Hu : u32 reg = reg) by (apply u32_small; lia).
  rewrite Hu in Hloop.
  destruct (Z.eqb_spec (bulk_err s) 0) as [He | He]; cbn [andb] in Hrun.
  2: { injection Hrun as Hr _. congruence. }
  apply bulk_loop_ok in Hloop;
    cbn [block currentOffset blockOffset bulk_err];
    try lia; try reflexivity; try exact He; try exact Hlen.
  destruct Hloop as (Hl & Hc & Hd & Hst).
  change (pending {| bulk_err := 0; block := sb; currentOffset := 0;
                     blockOffset := reg |}) with (@nil Z) in Hst.
  cbn [app blockOffset] in Hst.
  destruct (Z.ltb_spec 0 (currentOffset s)) as [Hpos | Hzero].
  - unfold regmapBulkWriteWithRetry in Hrun.
    destruct (bulk_attempts_spec (Z.to_nat 5) (blockOffset s)
                (take (Z.to_nat (currentOffset s)) (block s)) w1)
      as (e1 & w2 & Hrun1 & Hd1 & _ & Hr1).
    rewrite Hrun in Hrun1. injection Hrun1 as <- <-.
    destruct Hr1 as [(_ & Hr1) | (Hne & _)]; [| contradiction].
    split; [| congruence].
    rewrite Hr1. exact Hst.
  - injection Hrun as _ <-. split; [| exact Hd].
    rewrite <- Hst. unfold pending.
    replace (currentOffset s) with 0 by lia. reflexivity.
Qed.

(** X14: when [i2cwritebulk] returns 0, every byte of the array is in
    its register, byte [i] at address [reg + i], whatever the length of
    the array (also one that is not a multiple of the block size of 32,
    and the empty one) and however many transfers had to be retried; no
    register outside [reg .. reg + val_count - 1] has changed, and the
    driver data is as before. *)
Theorem i2cwritebulk_writes_all sb reg val w w' :
  length sb = 32%nat -> 0 <= reg ->
  reg + Z.of_nat (length val) < 2 ^ 32 ->
  i2cwritebulk sb reg val w = Ok (0, w') ->
  (forall i v, val !! i = Some v ->
               regs w' !! (reg + Z.of_nat i) = Some (u8 v)) /\
  (forall a, a < reg \/ reg + Z.of_nat (length val) <= a ->
             regs w' !! a = regs w !! a) /\
  data w' = data w.
Proof.
  intros Hlen Hreg Hfit Hrun.
  destruct (i2cwritebulk_regs sb reg val w w' Hlen Hreg Hfit Hrun)
    as (Hregs & Hd).
  split; [| split; [| exact Hd]].
  - intros i v Hi. rewrite Hregs. apply store_block_lookup_in.
    rewrite list_lookup_fmap, Hi. reflexivity.
  - intros a Ha. rewrite Hregs. apply store_block_lookup_out.
    rewrite length_map. exact Ha.
Qed.

Lemma i2cwritebulk_writes_all_witness :
  let sb := replicate 32 0xEE in
  let val := seqZ 0x100 40 in
  let w := with_bus [-5; 0; -5; -5; 0] world_idle in
  let w' := match i2cwritebulk sb 0x10 val w with
            | Ok (_, w') => w'
            | Fault _ => w
            end in
  i2cwritebulk sb 0x10 val w = Ok (0, w') /\
  bus_errors w' = [] /\
  regs w' !! 0x37 = Some 0x27 /\
  (forall i v, val !! i = Some v ->
               regs w' !! (0x10 + Z.of_nat i) = Some (u8 v)) /\
  (forall a, a < 0x10 \/ 0x10 + Z.of_nat (length val) <= a ->
             regs w' !! a = regs w !! a) /\
  data w' = data w.
Proof.
  intros sb val w w'.
  assert (Hrun : i2cwritebulk sb 0x10 val w = Ok (0, w'))
    by (vm_compute; reflexivity).
  split; [exact Hrun |].
  split; [vm_compute; reflexivity |].
  split; [vm_compute; reflexivity |].
  apply (i2cwritebulk_writes_all sb 0x10 val w w');
    [reflexivity | lia | vm_compute; reflexivity | exact Hrun].
Defined.

(** ** A bus on which every transaction succeeds *)

Lemma succeeds_run (m : M Z) w r w' :
  succeeds m -> bus_errors w = [] -> m w = Ok (r, w') ->
  r = 0 /\ bus_errors w' = [].
Proof.
  intros Hs Hbus Hrun. destruct (Hs w Hbus) as (w1 & Hrun1 & Hbus1).
  rewrite Hrun in Hrun1. injection Hrun1 as -> ->. auto.
Qed.

Lemma succeeds_ret : succeeds (ret 0).
Proof. intros w Hbus. exists w. auto. Qed.

Lemma succeeds_i2cwrite reg val : succeeds (i2cwrite reg val).
Proof.
  intros w Hbus. unfold i2cwrite, regmapWriteWithRetry.
  erewrite bind_ok by apply printk_run.
  rewrite (write_attempts_success _ _ _ [] []);
    [| exact Hbus | constructor | left; reflexivity | cbn; lia].
  eexists. split; reflexivity.
Qed.

Lemma succeeds_try (m k : M Z) :
  succeeds m -> succeeds k ->
  succeeds (bind m (fun err => if negb (err =? 0)
                               then (fun w => Ok (err, w)) else k)).
Proof.
  intros Hm Hk w Hbus. destruct (Hm w Hbus) as (w1 & H1 & Hb1).
  rewrite (bind_ok _ _ _ _ _ H1). cbn [Z.eqb negb]. apply Hk, Hb1.
Qed.

Lemma succeeds_seq (m k : M Z) :
  succeeds m -> succeeds k -> succeeds (bind m (fun _ => k)).
Proof.
  intros Hm Hk w Hbus. destruct (Hm w Hbus) as (w1 & H1 & Hb1).
  rewrite (bind_ok _ _ _ _ _ H1). apply Hk, Hb1.
Qed.

Lemma succeeds_get_data (k : clk_idt24x -> M Z) :
  (forall d, succeeds (k d)) -> succeeds (bind get_data k).
Proof. intros Hk w Hbus. apply (Hk (data w) w Hbus). Qed.

Lemma succeeds_put_data d (k : M Z) :
  succeeds k -> succeeds (bind (put_data d) (fun _ => k)).
Proof. intros Hk w Hbus. apply Hk. exact Hbus. Qed.

Lemma succeeds_if (b : bool) (m1 m2 : M Z) :
  succeeds m1 -> succeeds m2 -> succeeds (if b then m1 else m2).
Proof. destruct b; auto. Qed.

Ltac succeeds_basic :=
  lazymatch goal with
  | |- succeeds (ret 0) => apply succeeds_ret
  | |- succeeds (i2cwritewithmask _ _ _ _) =>
      unfold i2cwritewithmask; apply succeeds_i2cwrite
  | |- succeeds (i2cwrite _ _) => apply succeeds_i2cwrite
  | |- succeeds (bind get_data _) => apply succeeds_get_data; intros ?
  | |- succeeds (bind (put_data _) _) => apply succeeds_put_data
  | |- succeeds (bind _ _) =>
      first [apply succeeds_try | apply succeeds_seq]
  | |- succeeds (if _ then _ else _) => apply succeeds_if
  end.

Lemma succeeds_enable_output so k en :
  0 <= k <= 3 -> succeeds (idt24x_enable_output so k en).
Proof.
  intros Hk.
  assert (Hc : k = 0 \/ k = 1 \/ k = 2 \/ k = 3) by lia.
  destruct Hc as [-> | [-> | [-> | ->]]];
    unfold idt24x_enable_output; offsets_of so; repeat succeeds_basic.
Qed.

Ltac succeeds_step :=
  lazymatch goal with
  | |- succeeds (idt24x_enable_output _ _ _) =>
      apply succeeds_enable_output; lia
  | |- _ => succeeds_basic
  end.

Lemma succeeds_update_output so divs x :
  1 <= x <= 3 -> succeeds (update_output so divs x).
Proof.
  intros Hx.
  assert (Hc : x = 1 \/ x = 2 \/ x = 3) by lia.
  destruct Hc as [-> | [-> | ->]];
    unfold update_output; offsets_of so; repeat succeeds_step.
Qed.

Lemma succeeds_update_device so divs :
  succeeds (idt24x_update_device so divs).
Proof.
  unfold idt24x_update_device. cbn [update_outputs].
  repeat first [ apply succeeds_update_output; lia | succeeds_step ].
Qed.

(** [idt24x_enable_output] on such a bus. *)
Lemma enable_output_healthy so k en w :
  0 <= k <= 3 -> bus_errors w = [] ->
  exists w',
    idt24x_enable_output so k en w = Ok (0, w') /\
    bus_errors w' = [] /\
    frequencies (data w') = frequencies (data w) /\
    (forall b, 0 <= b < 8 ->
       Z.testbit (regOUTENx (data w')) b
       = (if b =? k then en else Z.testbit (regOUTENx (data w)) b) /\
       Z.testbit (regQxDIS (data w')) b
       = (if b =? k then negb en else Z.testbit (regQxDIS (data w)) b)) /\
    regs w' !! IDT24x_REG_OUTEN = Some (regOUTENx (data w')) /\
    regs w' !! IDT24x_REG_Q_DIS = Some (regQxDIS (data w')).
Proof.
  intros Hk Hbus.
  destruct (enable_output_spec so k en w Hk)
    as (e & w' & t & Hrun & Hdata & Hbits & _ & _ & Hregs & _).
  destruct (succeeds_run _ _ _ _ (succeeds_enable_output so k en Hk) Hbus Hrun)
    as (-> & Hbus').
  exists w'. split; [exact Hrun |]. split; [exact Hbus' |].
  split; [rewrite Hdata; reflexivity |].
  split; [exact Hbits |]. apply Hregs. reflexivity.
Qed.

(** One iteration of the loop of [idt24x_update_device] on such a bus. *)
Lemma update_output_healthy so divs x w :
  1 <= x <= 3 -> bus_errors w = [] ->
  exists w',
    update_output so divs x w = Ok (0, w') /\
    bus_errors w' = [] /\
    frequencies (data w') = frequencies (data w) /\
    (forall b, 0 <= b < 8 ->
       Z.testbit (regOUTENx (data w')) b
       = (if b =? x then negb (frequencies (data w) !!! Z.to_nat x =? 0)
          else Z.testbit (regOUTENx (data w)) b) /\
       Z.testbit (regQxDIS (data w')) b
       = (if b =? x then negb (negb (frequencies (data w) !!! Z.to_nat x =? 0))
          else Z.testbit (regQxDIS (data w)) b)) /\
    regs w' !! IDT24x_REG_OUTEN = Some (regOUTENx (data w')) /\
    regs w' !! IDT24x_REG_Q_DIS = Some (regQxDIS (data w')).
Proof.
  intros Hx Hbus.
  destruct (succeeds_update_output so divs x Hx w Hbus) as (w' & Hrun & Hbus').
  exists w'. split; [exact Hrun |]. split; [exact Hbus' |].
  revert Hrun.
  assert (Hc : x = 1 \/ x = 2 \/ x = 3) by lia.
  destruct Hc as [-> | [-> | ->]];
    unfold update_output; offsets_of so; intros H;
    apply bind_inv in H as (d & w0 & Hget & H);
    injection Hget as <- <-;
    apply try_inv in H as (e & w1 & Hblock & [(Hne & Heq & _) | (-> & H)]);
    try congruence;
    match type of Hblock with
    | ?blk w = _ =>
        assert (Hs : succeeds blk) by (repeat succeeds_step);
        destruct (succeeds_run _ _ _ _ Hs Hbus Hblock) as (_ & Hb1)
    end;
    (assert (Hd1 : data w1 = data w);
     [ match type of Hblock with
       | context [negb (?f =? 0)] => destruct (negb (f =? 0))
       end;
       [ all_tries Hblock; injection Hblock as <-;
         unfold i2cwritewithmask in *;
         repeat match goal with
                | Hj : i2cwrite _ _ _ = Ok (_, ?wb) |- data ?wb = _ =>
                    rewrite (i2cwrite_data _ _ _ _ _ Hj)
                end; reflexivity
       | injection Hblock as <-; reflexivity ]
     | ]);
    apply bind_inv in H as (d & w0 & Hget & H);
    injection Hget as <- <-;
    apply bind_inv in H as (u & w2 & Hen & H);
    injection H as <-;
    match type of Hen with
    | idt24x_enable_output so ?k ?en w1 = _ =>
        destruct (enable_output_healthy so k en w1 ltac:(lia) Hb1)
          as (w2' & Hen' & _ & Hf & Hbits & Hregs)
    end;
    rewrite Hen in Hen'; injection Hen' as _ <-;
    rewrite Hd1 in Hf, Hbits; auto.
Qed.

Ltac closed_to_nat :=
  repeat match goal with
         | |- context [Z.to_nat ?z] =>
             let n := eval vm_compute in (Z.to_nat z) in
             change (Z.to_nat z) with n
         end.

(** [idt24x_update_device] on such a bus: it succeeds, and the enable
    and disable registers follow the requested frequencies. *)
Lemma update_device_healthy so divs w :
  bus_errors w = [] ->
  exists w',
    idt24x_update_device so divs w = Ok (0, w') /\
    bus_errors w' = [] /\
    frequencies (data w') = frequencies (data w) /\
    forall x,
      0 <= x <= 3 ->
      Z.testbit (reg_value (regs w') IDT24x_REG_OUTEN) x
      = negb (frequencies (data w) !!! Z.to_nat x =? 0) /\
      Z.testbit (reg_value (regs w') IDT24x_REG_Q_DIS) x
      = (frequencies (data w) !!! Z.to_nat x =? 0).
Proof.
  intros Hbus.
  destruct (succeeds_update_device so divs w Hbus) as (w' & Hrun & Hbus').
  exists w'. split; [exact Hrun |]. split; [exact Hbus' |].
  unfold idt24x_update_device in Hrun.
  apply bind_inv in Hrun as (d & w0 & Hget & H).
  injection Hget as <- <-.
  all_tries H.
  repeat match goal with
         | Hj : ?m ?wa = Ok (0, ?wb), Hb : bus_errors ?wa = [] |- _ =>
             lazymatch goal with
             | _ : bus_errors wb = [] |- _ => fail
             | _ => idtac
             end;
             let Hn := fresh "Hhealthy" in
             destruct (succeeds_run m wa 0 wb ltac:(succeeds_step) Hb Hj)
               as (_ & Hn)
         end.
  unfold i2cwritewithmask in *.
  assert (Hd : data wn6 = data w).
  { repeat match goal with
           | Hj : i2cwrite _ _ _ = Ok (_, ?wb) |- data ?wb = _ =>
               rewrite (i2cwrite_data _ _ _ _ _ Hj)
           end.
    reflexivity. }
  apply bind_inv in H as (u & w9 & Hen & H).
  match goal with
  | Hb : bus_errors wn6 = [] |- _ =>
      destruct (enable_output_healthy so 0
                  (negb (frequencies (data w) !!! 0%nat =? 0)) wn6
                  ltac:(lia) Hb)
        as (w9' & Hen' & Hb9 & Hf0 & Hbits0 & _)
  end.
  rewrite Hen in Hen'. injection Hen' as _ <-.
  cbn [update_outputs] in H.
  apply try_inv in H as (e1 & w1 & H1 & [(Hne & Heq & _) | (-> & H)]);
    [congruence |].
  apply try_inv in H as (e2 & w2 & H2 & [(Hne & Heq & _) | (-> & H)]);
    [congruence |].
  apply try_inv in H as (e3 & w3 & H3 & [(Hne & Heq & _) | (-> & H)]);
    [congruence |].
  injection H as <-.
  destruct (update_output_healthy so divs 1 w9 ltac:(lia) Hb9)
    as (w1' & H1' & Hb1 & Hf1 & Hbits1 & _).
  rewrite H1 in H1'. injection H1' as <-.
  destruct (update_output_healthy so divs 2 w1 ltac:(lia) Hb1)
    as (w2' & H2' & Hb2 & Hf2 & Hbits2 & _).
  rewrite H2 in H2'. injection H2' as <-.
  destruct (update_output_healthy so divs 3 w2 ltac:(lia) Hb2)
    as (w3' & H3' & Hb3 & Hf3 & Hbits3 & Ho & Hq).
  rewrite H3 in H3'. injection H3' as <-.
  rewrite Hd in Hf0, Hbits0. rewrite Hf0 in Hf1, Hbits1.
  rewrite Hf1 in Hf2, Hbits2. rewrite Hf2 in Hf3, Hbits3.
  split; [exact Hf3 |].
  intros x Hx. unfold reg_value. rewrite Ho, Hq. cbn [default from_option id].
  destruct (Hbits0 x ltac:(lia)) as (A0 & B0).
  destruct (Hbits1 x ltac:(lia)) as (A1 & B1).
  destruct (Hbits2 x ltac:(lia)) as (A2 & B2).
  destruct (Hbits3 x ltac:(lia)) as (A3 & B3).
  rewrite negb_involutive in B0, B1, B2, B3.
  change (Z.to_nat 1) with 1%nat in A1, B1.
  change (Z.to_nat 2) with 2%nat in A2, B2.
  change (Z.to_nat 3) with 3%nat in A3, B3.
  assert (Hc : x = 0 \/ x = 1 \/ x = 2 \/ x = 3) by lia.
  destruct Hc as [-> | [-> | [-> | ->]]];
    cbn [Z.eqb Pos.eqb] in A0, B0, A1, B1, A2, B2, A3, B3;
    closed_to_nat; split; congruence.
Qed.

(** The divider calculation in closed form, for a frequency the device
    supports and a usable reference. *)
Lemma calc_divs_nearest divs w :
  IDT24x_MIN_FREQ <= frequencies (data w) !!! 2%nat <= IDT24x_MAX_FREQ ->
  pfd_of (data w) <> 0 ->
  exists s,
    calc_divs_search (frequencies (data w) !!! 2%nat) w = Ok (s, w) /\
    div s = nearest_divider (frequencies (data w) !!! 2%nat) /\
    10 <= div s <= 4000 /\
    idt24x_calc_divs divs w
    = Ok ((0, divs_found (frequencies (data w) !!! 2%nat) (pfd_of (data w))
                (div s) divs),
          logged (unimplemented_log (data w)) w).
Proof.
  intros Hf Hpfd.
  destruct (max_div_in_range _ Hf) as [Hu _].
  assert (Hf0 : frequencies (data w) !!! 2%nat <> 0)
    by (unfold IDT24x_MIN_FREQ in Hf; lia).
  assert (Hnz : u32 (frequencies (data w) !!! 2%nat * 2) <> 0)
    by (rewrite Hu; lia).
  destruct (calc_divs_run divs w Hf0 Hnz) as (s & Hsearch & Hpost & Hrun).
  pose proof (search_closed_form _ s Hf Hpost) as Hdiv.
  destruct (closed_form_candidates _ Hf) as (_ & _ & _ & Hd0 & Hm).
  assert (Hrange : 10 <= div s <= 4000).
  { rewrite Hdiv. unfold nearest_divider. cbv zeta.
    destruct (_ <=? _); [lia |].
    destruct (max_div_in_range _ Hf) as [_ Hmax].
    replace (frequencies (data w) !!! 2%nat * 2)
      with (2 * frequencies (data w) !!! 2%nat) in Hmax by lia.
    lia. }
  assert (Hd : (div s =? 0) = false) by (apply Z.eqb_neq; lia).
  apply Z.eqb_neq in Hpfd. rewrite Hd, Hpfd in Hrun.
  exists s. auto.
Qed.

(** X15: when no bus transaction fails, [idt24x_update_device] returns
    0, and it leaves the output-enable register with bit [x] set exactly
    for the outputs [x] from 0 to 3 whose requested frequency is not zero,
    and the output-disable register with bit [x] set exactly for the
    others; the requested frequencies are as before. *)
Theorem update_device_enables_requested so divs w :
  bus_errors w = [] ->
  exists w',
    idt24x_update_device so divs w = Ok (0, w') /\
    bus_errors w' = [] /\
    frequencies (data w') = frequencies (data w) /\
    forall x,
      0 <= x <= 3 ->
      Z.testbit (reg_value (regs w') IDT24x_REG_OUTEN) x
      = negb (frequencies (data w) !!! Z.to_nat x =? 0) /\
      Z.testbit (reg_value (regs w') IDT24x_REG_Q_DIS) x
      = (frequencies (data w) !!! Z.to_nat x =? 0).
Proof. exact (update_device_healthy so divs w). Qed.

Lemma update_device_enables_requested_witness :
  reg_value (regs world_q0_requested) IDT24x_REG_OUTEN = 0 /\
  exists w',
    idt24x_update_device example_offsets divs_125MHz world_q0_requested
    = Ok (0, w') /\
    bus_errors w' = [] /\
    frequencies (data w') = frequencies (data world_q0_requested) /\
    forall x,
      0 <= x <= 3 ->
      Z.testbit (reg_value (regs w') IDT24x_REG_OUTEN) x
      = negb (frequencies (data world_q0_requested) !!! Z.to_nat x =? 0) /\
      Z.testbit (reg_value (regs w') IDT24x_REG_Q_DIS) x
      = (frequencies (data world_q0_requested) !!! Z.to_nat x =? 0).
Proof.
  split; [reflexivity |].
  apply (update_device_enables_requested example_offsets divs_125MHz
           world_q0_requested).
  reflexivity.
Defined.

(** ** Setting a rate, end to end *)

Lemma nearest_divider_vco f :
  IDT24x_MIN_FREQ <= f <= IDT24x_MAX_FREQ ->
  vco_at f (nearest_divider f) = f * nearest_divider f.
Proof.
  intros Hf.
  destruct (closed_form_candidates f Hf) as (Hc0 & Hcm & _).
  destruct (max_div_in_range f Hf) as [_ Hmax].
  unfold nearest_divider. cbv zeta.
  destruct (_ <=? _).
  - apply (vco_at_exact f _ Hf Hc0).
  - replace (f * 2) with (2 * f) in Hmax by lia.
    replace (2 * (IDT24x_VCO_MAX / (2 * f))) with (max_div_of f)
      by (rewrite Hmax; lia).
    apply (vco_at_exact f _ Hf Hcm).
Qed.

(** [idt24x_set_frequency] on a bus where no transaction fails, for a
    frequency of output 2 the device supports and a usable reference. *)
Lemma set_frequency_healthy so sd w :
  bus_errors w = [] ->
  IDT24x_MIN_FREQ <= frequencies (data w) !!! 2%nat <= IDT24x_MAX_FREQ ->
  pfd_of (data w) <> 0 ->
  (1 < length (nint sd))%nat -> (1 < length (nfrac sd))%nat ->
  exists w',
    idt24x_set_frequency so sd w = Ok (0, w') /\
    data w' = set_enable_regs (regOUTENx (data w')) (regQxDIS (data w'))
                (data w) /\
    output_divider_in (regs w') (snd (idt24x_get_offsets 2 so))
      (nearest_divider (frequencies (data w) !!! 2%nat) / 2) 0 /\
    mask_and_shift (reg_value (regs w') IDT24x_REG_DSM_INT_8)
      IDT24x_REG_DSM_INT_8_MASK * 2 ^ 8
    + reg_value (regs w') IDT24x_REG_DSM_INT_7_0
    = (frequencies (data w) !!! 2%nat
       * nearest_divider (frequencies (data w) !!! 2%nat)
       / pfd_of (data w)) mod 2 ^ 9 /\
    mask_and_shift (reg_value (regs w') IDT24x_REG_DSMFRAC_20_16)
      IDT24x_REG_DSMFRAC_20_16_MASK * 2 ^ 16
    + reg_value (regs w') IDT24x_REG_DSMFRAC_15_8 * 2 ^ 8
    + reg_value (regs w') IDT24x_REG_DSMFRAC_7_0
    = (frequencies (data w) !!! 2%nat
       * nearest_divider (frequencies (data w) !!! 2%nat))
        mod pfd_of (data w) * 2 ^ 21 / pfd_of (data w) /\
    Z.testbit (reg_value (regs w') IDT24x_REG_OUTEN) 2 = true /\
    Z.testbit (reg_value (regs w') IDT24x_REG_Q_DIS) 2 = false.
Proof.
  intros Hbus Hrate Hpfd Hln Hlf.
  remember (frequencies (data w) !!! 2%nat) as rate eqn:Hfa.
  symmetry in Hfa.
  assert (Hrate0 : rate <> 0) by (unfold IDT24x_MIN_FREQ in Hrate; lia).
  unfold idt24x_set_frequency. erewrite bind_ok by reflexivity.
  rewrite Hfa. destruct (Z.eqb_spec rate 0) as [? | _]; [contradiction |].
  assert (Href : (input_clk_freq (data w) =? 0) && (xtal_freq (data w) =? 0)
                 = false).
  { destruct (Z.eqb_spec (input_clk_freq (data w)) 0) as [Hi | _];
      [| reflexivity].
    destruct (Z.eqb_spec (xtal_freq (data w)) 0) as [Hx | _];
      [| reflexivity].
    exfalso. apply Hpfd. unfold pfd_of. rewrite Hi, Hx. reflexivity. }
  rewrite Href.
  destruct (calc_divs_nearest sd w) as (s & _ & Hdiv & Hrange & Hcalc);
    [rewrite Hfa; exact Hrate | exact Hpfd |].
  rewrite Hfa in Hdiv, Hcalc.
  rewrite (bind_ok _ _ _ _ _ Hcalc). cbn [fst snd Z.eqb negb].
  set (divs' := divs_found rate (pfd_of (data w)) (div s) sd) in *.
  set (wb := logged (unimplemented_log (data w)) w) in *.
  destruct (update_device_healthy so divs' wb Hbus)
    as (w' & Hupd & _ & Hf' & Hen).
  rewrite (bind_ok _ _ _ _ _ Hupd). cbn [Z.eqb negb].
  exists w'. split; [reflexivity |].
  assert (Hfb : frequencies (data wb) !!! 2%nat = rate) by exact Hfa.
  split.
  { destruct (keeps_update_device so divs' wb 0 w' Hupd) as (o & q & ->).
    reflexivity. }
  destruct (update_device_decodes so divs' wb w' Hupd) as (Hint & Hfrac & Hout).
  assert (Hpos : 0 < pfd_of (data w)).
  { pose proof (u32_range ((if input_clk_freq (data w) =? 0
                            then xtal_freq (data w)
                            else input_clk_freq (data w))
                           * (if doubler_disabled (data w) then 1 else 2))).
    unfold pfd_of in *. lia. }
  assert (Hvco : vco_at rate (div s) = rate * nearest_divider rate)
    by (rewrite Hdiv; apply nearest_divider_vco, Hrate).
  split; [| split; [| split; [| split]]].
  - specialize (Hout 2 ltac:(lia)).
    change (Z.to_nat 2) with 2%nat in Hout.
    change (Z.to_nat (2 - 1)) with 1%nat in Hout.
    rewrite Hfb in Hout. specialize (Hout Hrate0).
    subst divs'. cbn [divs_found nint nfrac] in Hout.
    rewrite !list_lookup_total_insert_eq in Hout by assumption.
    rewrite Hdiv in Hout. rewrite Hdiv in Hrange.
    rewrite (Z.mod_small (nearest_divider rate / 2)) in Hout by dlia.
    exact Hout.
  - rewrite Hint. subst divs'. cbn [divs_found dsmint]. rewrite Hvco.
    generalize (rate * nearest_divider rate / pfd_of (data w)). intros q.
    dlia.
  - rewrite Hfrac. subst divs'. cbn [divs_found dsmfrac]. rewrite Hvco.
    apply Z.mod_small.
    pose proof (Z.mod_pos_bound (rate * nearest_divider rate)
                  (pfd_of (data w)) Hpos).
    split; [apply Z.div_pos; lia |].
    apply Z.div_lt_upper_bound; lia.
  - destruct (Hen 2 ltac:(lia)) as (Ho & _). rewrite Ho.
    change (Z.to_nat 2) with 2%nat. rewrite Hfb.
    destruct (Z.eqb_spec rate 0); [contradiction | reflexivity].
  - destruct (Hen 2 ltac:(lia)) as (_ & Hq). rewrite Hq.
    change (Z.to_nat 2) with 2%nat. rewrite Hfb.
    destruct (Z.eqb_spec rate 0); [contradiction | reflexivity].
Qed.

(** X16: on a bus where no transaction fails, a rate the device
    supports and a usable reference, [idt24x_set_rate] returns 0 and
    leaves the chip programmed for that rate: the divider registers of
    output 2 hold half the even divider nearest to the optimal VCO
    frequency and a zero fraction, the feedback divider registers hold
    the integer part (its low 9 bits) and the 21-bit fraction of the
    ratio of the VCO to the phase detector frequency, and output 2 is
    enabled and not disabled. *)
Theorem set_rate_programs_device so sd rate parent_rate w :
  bus_errors w = [] ->
  min_freq (data w) <= rate <= max_freq (data w) ->
  IDT24x_MIN_FREQ <= rate <= IDT24x_MAX_FREQ ->
  pfd_of (data w) <> 0 ->
  (2 < length (frequencies (data w)))%nat ->
  (1 < length (nint sd))%nat -> (1 < length (nfrac sd))%nat ->
  exists w',
    idt24x_set_rate so sd rate parent_rate w = Ok (0, w') /\
    frequencies (data w') !!! 2%nat = rate /\
    output_divider_in (regs w') (snd (idt24x_get_offsets 2 so))
      (nearest_divider rate / 2) 0 /\
    mask_and_shift (reg_value (regs w') IDT24x_REG_DSM_INT_8)
      IDT24x_REG_DSM_INT_8_MASK * 2 ^ 8
    + reg_value (regs w') IDT24x_REG_DSM_INT_7_0
    = (rate * nearest_divider rate / pfd_of (data w)) mod 2 ^ 9 /\
    mask_and_shift (reg_value (regs w') IDT24x_REG_DSMFRAC_20_16)
      IDT24x_REG_DSMFRAC_20_16_MASK * 2 ^ 16
    + reg_value (regs w') IDT24x_REG_DSMFRAC_15_8 * 2 ^ 8
    + reg_value (regs w') IDT24x_REG_DSMFRAC_7_0
    = (rate * nearest_divider rate) mod pfd_of (data w) * 2 ^ 21
      / pfd_of (data w) /\
    Z.testbit (reg_value (regs w') IDT24x_REG_OUTEN) 2 = true /\
    Z.testbit (reg_value (regs w') IDT24x_REG_Q_DIS) 2 = false.
Proof.
  intros Hbus Hbounds Hrate Hpfd Hlen Hln Hlf.
  assert (Hu : u32 rate = rate).
  { apply u32_small. unfold IDT24x_MIN_FREQ, IDT24x_MAX_FREQ in Hrate. lia. }
  unfold idt24x_set_rate. erewrite bind_ok by reflexivity.
  destruct (Z.ltb_spec rate (min_freq (data w))) as [? | _]; [lia |].
  destruct (Z.ltb_spec (max_freq (data w)) rate) as [? | _]; [lia |].
  cbn [orb]. erewrite bind_ok by reflexivity.
  unfold idt24x_get_output_num. change (Z.to_nat 2) with 2%nat. rewrite Hu.
  set (wa := {| data := _; regs := regs w |}).
  assert (Hfa : frequencies (data wa) !!! 2%nat = rate).
  { subst wa. cbn [data set_frequencies frequencies].
    apply list_lookup_total_insert_eq. exact Hlen. }
  assert (Hpa : pfd_of (data wa) = pfd_of (data w)) by reflexivity.
  destruct (set_frequency_healthy so sd wa Hbus) as (w' & Hrun & Hd & Hrest);
    [rewrite Hfa; exact Hrate | rewrite Hpa; exact Hpfd | exact Hln
    | exact Hlf |].
  rewrite Hfa, Hpa in Hrest.
  exists w'. split; [exact Hrun |]. split; [| exact Hrest].
  rewrite Hd. exact Hfa.
Qed.

Lemma set_rate_programs_device_witness :
  nearest_divider 125000000 = 28 /\
  exists w',
    idt24x_set_rate example_offsets example_divs 125000000 0 world_idle
    = Ok (0, w') /\
    frequencies (data w') !!! 2%nat = 125000000 /\
    output_divider_in (regs w')
      (snd (idt24x_get_offsets 2 example_offsets))
      (nearest_divider 125000000 / 2) 0 /\
    mask_and_shift (reg_value (regs w') IDT24x_REG_DSM_INT_8)
      IDT24x_REG_DSM_INT_8_MASK * 2 ^ 8
    + reg_value (regs w') IDT24x_REG_DSM_INT_7_0
    = (125000000 * nearest_divider 125000000 / pfd_of (data world_idle))
        mod 2 ^ 9 /\
    mask_and_shift (reg_value (regs w') IDT24x_REG_DSMFRAC_20_16)
      IDT24x_REG_DSMFRAC_20_16_MASK * 2 ^ 16
    + reg_value (regs w') IDT24x_REG_DSMFRAC_15_8 * 2 ^ 8
    + reg_value (regs w') IDT24x_REG_DSMFRAC_7_0
    = (125000000 * nearest_divider 125000000) mod pfd_of (data world_idle)
      * 2 ^ 21 / pfd_of (data world_idle) /\
    Z.testbit (reg_value (regs w') IDT24x_REG_OUTEN) 2 = true /\
    Z.testbit (reg_value (regs w') IDT24x_REG_Q_DIS) 2 = false.
Proof.
  split; [vm_compute; reflexivity |].
  apply (set_rate_programs_device example_offsets example_divs 125000000 0
           world_idle).
  - reflexivity.
  - vm_compute. split; discriminate.
  - vm_compute. split; discriminate.
  - vm_compute. discriminate.
  - vm_compute. lia.
  - vm_compute. lia.
  - vm_compute. lia.
Defined.

(** ** Absence of faults *)

Lemma returns_ret {A} (a : A) : returns (ret a).
Proof. intros w. exists a, w. reflexivity. Qed.

Lemma returns_bind {A B} (m : M A) (k : A -> M B) :
  returns m -> (forall a, returns (k a)) -> returns (bind m k).
Proof.
  intros Hm Hk w. destruct (Hm w) as (a & w1 & H1).
  rewrite (bind_ok _ _ _ _ _ H1). apply Hk.
Qed.

Lemma returns_if {A} (b : bool) (m1 m2 : M A) :
  returns m1 -> returns m2 -> returns (if b then m1 else m2).
Proof. destruct b; auto. Qed.

Lemma returns_i2cwrite reg val : returns (i2cwrite reg val).
Proof.
  intros w. destruct (i2cwrite_spec reg val w) as (e & w' & Hrun & _).
  exists e, w'. exact Hrun.
Qed.

Lemma returns_enable_output so k en :
  0 <= k <= 3 -> returns (idt24x_enable_output so k en).
Proof.
  intros Hk w.
  destruct (enable_output_spec so k en w Hk) as (e & w' & t & Hrun & _).
  exists e, w'. exact Hrun.
Qed.

Ltac returns_step :=
  lazymatch goal with
  | |- returns (ret _) => apply returns_ret
  | |- returns (fun w => Ok (_, w)) => apply returns_ret
  | |- returns get_data => intros w; eexists _, _; reflexivity
  | |- returns (put_data _) => intros w; eexists _, _; reflexivity
  | |- returns (i2cwritewithmask _ _ _ _) =>
      unfold i2cwritewithmask; apply returns_i2cwrite
  | |- returns (i2cwrite _ _) => apply returns_i2cwrite
  | |- returns (idt24x_enable_output _ _ _) =>
      apply returns_enable_output; lia
  | |- returns (bind _ _) => apply returns_bind; [| intros ?]
  | |- returns (if _ then _ else _) => apply returns_if
  end.

Lemma returns_update_output so divs x :
  1 <= x <= 3 -> returns (update_output so divs x).
Proof.
  intros Hx.
  assert (Hc : x = 1 \/ x = 2 \/ x = 3) by lia.
  destruct Hc as [-> | [-> | ->]];
    unfold update_output; offsets_of so; repeat returns_step.
Qed.

Lemma returns_update_device so divs : returns (idt24x_update_device so divs).
Proof.
  unfold idt24x_update_device. cbn [update_outputs].
  repeat first [ apply returns_update_output; lia | returns_step ].
Qed.

Lemma returns_set_frequency so sd w :
  0 <= frequencies (data w) !!! 2%nat < 2 ^ 31 ->
  0 <= reference_of (data w) < 2 ^ 31 ->
  exists r w', idt24x_set_frequency so sd w = Ok (r, w').
Proof.
  intros Hf Href. unfold idt24x_set_frequency.
  erewrite bind_ok by reflexivity.
  destruct (Z.eqb_spec (frequencies (data w) !!! 2%nat) 0) as [Hz | Hnz].
  { apply (returns_bind _ _ (returns_enable_output so 2 false ltac:(lia))).
    intros _. apply returns_ret. }
  destruct ((input_clk_freq (data w) =? 0) && (xtal_freq (data w) =? 0))
    eqn:Hnone.
  { eexists _, _. reflexivity. }
  assert (Hpfd : pfd_of (data w) <> 0).
  { apply pfd_of_nonzero. fold (reference_of (data w)).
    split; [| lia].
    unfold reference_of in *.
    destruct (Z.eqb_spec (input_clk_freq (data w)) 0) as [Hi | Hi];
      destruct (Z.eqb_spec (xtal_freq (data w)) 0) as [Hx | Hx];
      try discriminate Hnone; lia. }
  assert (Hu : u32 (frequencies (data w) !!! 2%nat * 2) <> 0)
    by (rewrite u32_small; lia).
  destruct (calc_divs_run sd w Hnz Hu) as (s & _ & _ & Hcalc).
  apply Z.eqb_neq in Hpfd. rewrite Hpfd in Hcalc.
  destruct (div s =? 0); rewrite (bind_ok _ _ _ _ _ Hcalc).
  - eexists _, _. reflexivity.
  - cbn [fst snd Z.eqb negb].
    apply (returns_bind _ _ (returns_update_device so _)).
    intros e. apply returns_if; apply returns_ret.
Qed.

(** X17: [idt24x_set_rate] always returns, whatever the bus does: when
    the frequency bounds of the device and the reference frequency are
    below 2^31 Hz, the divider search ends and nothing is divided by
    zero, for every rate and every state of the driver and of the chip. *)
Theorem set_rate_returns so sd rate parent_rate w :
  0 <= min_freq (data w) -> max_freq (data w) < 2 ^ 31 ->
  0 <= reference_of (data w) < 2 ^ 31 ->
  (2 < length (frequencies (data w)))%nat ->
  exists r w', idt24x_set_rate so sd rate parent_rate w = Ok (r, w').
Proof.
  intros Hmin Hmax Href Hlen. unfold idt24x_set_rate.
  erewrite bind_ok by reflexivity.
  destruct (Z.ltb_spec rate (min_freq (data w))) as [? | Hlo];
    [eexists _, _; reflexivity |].
  destruct (Z.ltb_spec (max_freq (data w)) rate) as [? | Hhi];
    [eexists _, _; reflexivity |].
  cbn [orb]. erewrite bind_ok by reflexivity.
  apply returns_set_frequency; cbn [data set_frequencies frequencies].
  - unfold idt24x_get_output_num. change (Z.to_nat 2) with 2%nat.
    rewrite list_lookup_total_insert_eq by exact Hlen.
    rewrite u32_small by lia. lia.
  - exact Href.
Qed.

Lemma set_rate_returns_witness :
  exists r w',
    idt24x_set_rate example_offsets example_divs 125000000 0
      (with_bus [-5; -5; -5; 0; -5; -5; -5; -5; -5; -5] world_idle)
    = Ok (r, w').
Proof.
  apply (set_rate_returns example_offsets example_divs 125000000 0
           (with_bus [-5; -5; -5; 0; -5; -5; -5; -5; -5; -5] world_idle)).
  - vm_compute. discriminate.
  - vm_compute. reflexivity.
  - vm_compute. split; [discriminate | reflexivity].
  - vm_compute. lia.
Defined.

(** ** Writing the settings array, then reading the shadows *)

Lemma settings_written sb settings w w1 a :
  length sb = 32%nat ->
  Z.of_nat (length settings) = NUM_CONFIG_REGISTERS ->
  i2cwritebulk sb 0 settings w = Ok (0, w1) ->
  0 <= a < NUM_CONFIG_REGISTERS ->
  reg_value (regs w1) a = setting settings a.
Proof.
  intros Hsb Hlen Hrun Ha.
  destruct (i2cwritebulk_regs sb 0 settings w w1 Hsb ltac:(lia)) as (Hregs & _);
    [rewrite Hlen; vm_compute; reflexivity | exact Hrun |].
  unfold reg_value, setting. rewrite Hregs.
  replace a with (0 + Z.of_nat (Z.to_nat a)) at 1 by lia.
  rewrite (store_block_lookup_in _ _ _ _ (u8 (settings !!! Z.to_nat a)));
    [reflexivity |].
  rewrite list_lookup_fmap.
  rewrite (list_lookup_lookup_total_lt settings (Z.to_nat a)) by lia.
  reflexivity.
Qed.

(** X18: the two steps of probe on a device tree with a settings array:
    when [i2cwritebulk] has written the 0x317 settings bytes from
    register 0 and [idt24x_read_from_hw] has then succeeded, the shadow
    registers hold the bytes of the array: DSM_INT_8 byte 0x25, OUTEN
    byte 0x39, Q_DIS byte 0x6F, NS1_Q0 byte 0x3F, the N_Qx_17_16 shadows
    bytes 0x42, 0x45, 0x48 and the NFRAC_Qx_27_24 shadows bytes 0x57,
    0x5B, 0x5F; the DSMFRAC_20_16 shadow holds byte 0x1F, not byte 0x28. *)
Theorem settings_then_read_back sb so settings w w1 w2 :
  length sb = 32%nat ->
  Z.of_nat (length settings) = NUM_CONFIG_REGISTERS ->
  length (regN_Qx_17_16 (data w)) = 3%nat ->
  length (regNFRAC_Qx_27_24 (data w)) = 3%nat ->
  i2cwritebulk sb 0 settings w = Ok (0, w1) ->
  idt24x_read_from_hw so w1 = Ok (0, w2) ->
  regDSM_INT_8 (data w2) = setting settings IDT24x_REG_DSM_INT_8 /\
  regDSMFRAC_20_16 (data w2) = setting settings 0x1F /\
  regOUTENx (data w2) = setting settings IDT24x_REG_OUTEN /\
  regQxDIS (data w2) = setting settings IDT24x_REG_Q_DIS /\
  regNS1_Q0 (data w2) = setting settings IDT24x_REG_NS1_Q0 /\
  regN_Qx_17_16 (data w2)
  = [setting settings IDT24x_REG_N_Q1_17_16;
     setting settings IDT24x_REG_N_Q2_17_16;
     setting settings IDT24x_REG_N_Q3_17_16] /\
  regNFRAC_Qx_27_24 (data w2)
  = [setting settings IDT24x_REG_NFRAC_Q1_27_24;
     setting settings IDT24x_REG_NFRAC_Q2_27_24;
     setting settings IDT24x_REG_NFRAC_Q3_27_24].
Proof.
  intros Hsb Hlen Hl1 Hl2 Hbulk Hread.
  destruct (i2cwritebulk_regs sb 0 settings w w1 Hsb ltac:(lia)) as (_ & Hd1);
    [rewrite Hlen; vm_compute; reflexivity | exact Hbulk |].
  assert (Hu : forall a, 0 <= a < NUM_CONFIG_REGISTERS ->
                         u8 (reg_value (regs w1) a) = setting settings a).
  { intros a Ha.
    rewrite (settings_written sb settings w w1 a Hsb Hlen Hbulk Ha).
    unfold setting, u8. apply Z.mod_mod. lia. }
  pose proof (read_from_hw_data so w1 w2 Hread) as Hd.
  rewrite <- Hd1 in Hl1, Hl2.
  destruct (regN_Qx_17_16 (data w1)) as [| a1 [| a2 [| a3 [| ? ?]]]] eqn:En;
    try discriminate Hl1.
  destruct (regNFRAC_Qx_27_24 (data w1)) as [| b1 [| b2 [| b3 [| ? ?]]]] eqn:Eq;
    try discriminate Hl2.
  rewrite Hd.
  destruct (xtal_freq (data w1) =? 0);
    unfold shadows_read;
    cbn [set_doubler_disabled set_shadows regDSM_INT_8 regDSMFRAC_20_16
         regOUTENx regQxDIS regNS1_Q0 regN_Qx_17_16 regNFRAC_Qx_27_24];
    rewrite En, Eq; cbn [list_insert insert];
    change IDT24x_REG_DSMFRAC_20_16_MASK with 0x1F;
    rewrite !Hu by (vm_compute; split; congruence);
    repeat split.
Qed.

Lemma settings_then_read_back_witness :
  let settings := seqZ 0x40 NUM_CONFIG_REGISTERS in
  let sb := replicate 32 0 in
  let w1 := match i2cwritebulk sb 0 settings world_idle with
            | Ok (_, w1) => w1
            | Fault _ => world_idle
            end in
  let w2 := match idt24x_read_from_hw example_offsets w1 with
            | Ok (_, w2) => w2
            | Fault _ => w1
            end in
  (i2cwritebulk sb 0 settings world_idle = Ok (0, w1) /\
   idt24x_read_from_hw example_offsets w1 = Ok (0, w2)) /\
  (setting settings 0x1F = 0x5F /\ setting settings 0x28 = 0x68) /\
  regDSM_INT_8 (data w2) = setting settings IDT24x_REG_DSM_INT_8 /\
  regDSMFRAC_20_16 (data w2) = setting settings 0x1F /\
  regOUTENx (data w2) = setting settings IDT24x_REG_OUTEN /\
  regQxDIS (data w2) = setting settings IDT24x_REG_Q_DIS /\
  regNS1_Q0 (data w2) = setting settings IDT24x_REG_NS1_Q0 /\
  regN_Qx_17_16 (data w2)
  = [setting settings IDT24x_REG_N_Q1_17_16;
     setting settings IDT24x_REG_N_Q2_17_16;
     setting settings IDT24x_REG_N_Q3_17_16] /\
  regNFRAC_Qx_27_24 (data w2)
  = [setting settings IDT24x_REG_NFRAC_Q1_27_24;
     setting settings IDT24x_REG_NFRAC_Q2_27_24;
     setting settings IDT24x_REG_NFRAC_Q3_27_24].
Proof.
  intros settings sb w1 w2.
  assert (H1 : i2cwritebulk sb 0 settings world_idle = Ok (0, w1))
    by (vm_compute; reflexivity).
  assert (H2 : idt24x_read_from_hw example_offsets w1 = Ok (0, w2))
    by (vm_compute; reflexivity).
  split; [split; [exact H1 | exact H2] |].
  split; [split; vm_compute; reflexivity |].
  apply (settings_then_read_back sb example_offsets settings world_idle w1 w2);
    [reflexivity | vm_compute; reflexivity | reflexivity | reflexivity
    | exact H1 | exact H2].
Defined.

(** ** The dump of the configuration registers *)

Lemma length_sprintf_02x b : length (sprintf_02x b) = 3%nat.
Proof. reflexivity. Qed.

(** Invariant of the dump loop: what was printed is the dump of the
    bytes gone through, it ends with success only after the last byte,
    and the string with its terminator stays inside [count] bytes. *)
Lemma dump_loop_spec settings count :
  forall buf r out,
    Z.of_nat (length buf) + 3 * Z.of_nat (length settings) + 4 < 2 ^ 64 ->
    dump_loop settings count buf = (r, out) ->
    exists k,
      (k <= length settings)%nat /\
      out = buf ++ dump_of k settings /\
      ((r = 0 /\ k = length settings /\
        (settings <> [] ->
         Z.of_nat (length buf) + 3 * Z.of_nat (length settings) + 1
         <= u64 count)) \/
       (r = - EINVAL /\ (k < length settings)%nat /\
        u64 count < Z.of_nat (length buf) + 3 * Z.of_nat k + 4)) /\
      (Z.of_nat (length buf) + 1 <= u64 count ->
       Z.of_nat (length out) + 1 <= u64 count).
Proof.
  induction settings as [| b rest IH]; intros buf r out Hfit Hrun;
    cbn [dump_loop] in Hrun.
  - injection Hrun as <- <-. exists 0%nat.
    split; [lia |]. split; [unfold dump_of; cbn; now rewrite app_nil_r |].
    split; [left; repeat split; congruence | auto].
  - cbn [length] in Hfit.
    rewrite (u64_small (Z.of_nat (length buf) + 4)) in Hrun by lia.
    destruct (Z.ltb_spec (u64 count) (Z.of_nat (length buf) + 4))
      as [Hsmall | Hroom].
    + injection Hrun as <- <-. exists 0%nat.
      split; [cbn [length]; lia |].
      split; [unfold dump_of; cbn; now rewrite app_nil_r |].
      split; [right; cbn [length]; repeat split; lia | auto].
    + apply IH in Hrun;
        [| rewrite length_app, length_sprintf_02x; lia].
      destruct Hrun as (k & Hk & Hout & Hres & Hin).
      rewrite length_app, length_sprintf_02x in Hres, Hin.
      exists (S k). split; [cbn [length]; lia |].
      split.
      { rewrite Hout, <- app_assoc. reflexivity. }
      split.
      * destruct Hres as [(-> & -> & Hall) | (-> & Hlt & Hc)].
        -- left. split; [reflexivity |]. split; [reflexivity |].
           intros _. cbn [length].
           destruct rest as [| b' rest']; [cbn [length]; lia |].
           specialize (Hall ltac:(discriminate)). lia.
        -- right. split; [reflexivity |]. cbn [length]. split; lia.
      * intros _. apply Hin. lia.
Qed.

Lemma config_bytes_length m :
  length (config_bytes m) = Z.to_nat NUM_CONFIG_REGISTERS.
Proof. unfold config_bytes. rewrite length_map. apply length_seqZ. Qed.

Lemma dump_of_length k : forall bytes,
  (k <= length bytes)%nat -> length (dump_of k bytes) = (3 * k)%nat.
Proof.
  induction k as [| k IH]; intros bytes Hk; [reflexivity |].
  destruct bytes as [| b l]; [cbn in Hk; lia |].
  change (dump_of (S k) (b :: l)) with (sprintf_02x b ++ dump_of k l).
  cbn [length] in Hk.
  rewrite length_app, length_sprintf_02x, IH by lia. lia.
Qed.

Lemma bulk_read_config w :
  bus_errors w = [] \/ (exists rest, bus_errors w = 0 :: rest) ->
  exists w1,
    regmap_bulk_read 0 NUM_CONFIG_REGISTERS w
    = Ok (inr (config_bytes (regs w)), w1).
Proof.
  intros Hbus. unfold regmap_bulk_read, config_bytes.
  destruct Hbus as [Hb | (rest & Hb)]; rewrite Hb;
    eexists; reflexivity.
Qed.

(** X19: when its bulk read succeeds, [idt24x_read_all_settings]
    returns 0 exactly when [count], taken as an unsigned 64-bit number,
    is at least 3 * 0x317 + 1 = 2374, and -EINVAL otherwise.  The string
    it leaves is the dump, three characters a byte, of the first [k]
    configuration registers, all of them when it returns 0; with its
    terminator the string stays inside [count] bytes whenever [count] is
    not zero. *)
Theorem read_all_settings_fits buf count w r out w' :
  bus_errors w = [] \/ (exists rest, bus_errors w = 0 :: rest) ->
  idt24x_read_all_settings buf count w = Ok ((r, out), w') ->
  (r = 0 \/ r = - EINVAL) /\
  (r = 0 <-> 3 * NUM_CONFIG_REGISTERS + 1 <= u64 count) /\
  (exists k,
      (k <= Z.to_nat NUM_CONFIG_REGISTERS)%nat /\
      (r = 0 -> k = Z.to_nat NUM_CONFIG_REGISTERS) /\
      out = dump_of k (config_bytes (regs w)) /\
      length out = (3 * k)%nat) /\
  (1 <= u64 count -> Z.of_nat (length out) + 1 <= u64 count).
Proof.
  intros Hbus Hrun. unfold idt24x_read_all_settings in Hrun.
  destruct (bulk_read_config w Hbus) as (w1 & Hread).
  rewrite (bind_ok _ _ _ _ _ Hread) in Hrun.
  pose proof (config_bytes_length (regs w)) as Hlen.
  remember (config_bytes (regs w)) as bytes eqn:Hbytes.
  unfold ret in Hrun. injection Hrun as Hrun _.
  apply dump_loop_spec in Hrun;
    [| rewrite Hlen; vm_compute; reflexivity].
  destruct Hrun as (k & Hk & Hout & Hres & Hin).
  cbn [app length] in Hout, Hres, Hin. rewrite Hlen in Hk, Hres.
  assert (Hne : bytes <> []).
  { intros E. rewrite E in Hlen. vm_compute in Hlen. discriminate Hlen. }
  assert (Hout3 : length out = (3 * k)%nat)
    by (rewrite Hout; apply dump_of_length; rewrite Hlen; exact Hk).
  unfold NUM_CONFIG_REGISTERS in *.
  split; [destruct Hres as [(-> & _) | (-> & _)]; auto |].
  split.
  - destruct Hres as [(-> & -> & Hall) | (-> & Hlt & Hc)].
    + split; [intros _; specialize (Hall Hne); lia | reflexivity].
    + unfold EINVAL. split; [discriminate | lia].
  - split; [| exact Hin].
    exists k. split; [exact Hk |]. split; [| split; [exact Hout | exact Hout3]].
    intros ->. destruct Hres as [(_ & -> & _) | (Hr & _)];
      [reflexivity | unfold EINVAL in Hr; discriminate Hr].
Qed.

Lemma read_all_settings_fits_witness :
  let w := with_reg 0x25 0xA4 world_idle in
  let out := match idt24x_read_all_settings [] 100 w with
             | Ok ((_, out), _) => out
             | Fault _ => []
             end in
  idt24x_read_all_settings [] 100 w = Ok ((- EINVAL, out), w) /\
  length out = 99%nat /\
  (- EINVAL = 0 \/ - EINVAL = - EINVAL) /\
  (- EINVAL = 0 <-> 3 * NUM_CONFIG_REGISTERS + 1 <= u64 100) /\
  (exists k,
      (k <= Z.to_nat NUM_CONFIG_REGISTERS)%nat /\
      (- EINVAL = 0 -> k = Z.to_nat NUM_CONFIG_REGISTERS) /\
      out = dump_of k (config_bytes (regs w)) /\
      length out = (3 * k)%nat) /\
  (1 <= u64 100 -> Z.of_nat (length out) + 1 <= u64 100).
Proof.
  intros w out.
  assert (Hrun : idt24x_read_all_settings [] 100 w = Ok ((- EINVAL, out), w))
    by (vm_compute; reflexivity).
  split; [exact Hrun |].
  split; [vm_compute; reflexivity |].
  apply (read_all_settings_fits [] 100 w (- EINVAL) out w);
    [left; reflexivity | exact Hrun].
Defined.

(** ** The rate-change notifier *)

(** X9: the notifier never refuses a change of the input clock: it
    answers NOTIFY_OK to a pre-change or abort event and NOTIFY_DONE to
    an unknown event, and changes nothing then.  On a post-change event
    it stores the new input rate and programs the device again: what it
    leaves is what [idt24x_set_frequency] leaves when run on the driver
    data with the new rate, and its answer is NOTIFY_OK whatever that
    call returned.  It does return, for every behaviour of the bus, when
    the frequency of output 2 and the reference after the change are
    below 2^31 Hz.  On a bus with no failing transaction, with a
    frequency of output 2 from 1 MHz to 300 MHz and a phase detector
    frequency that is not zero after the change, the chip is programmed
    for the new reference: the registers of output 2 hold half the
    divider nearest to the optimal VCO, the feedback divider registers
    the ratio of the VCO to the new phase detector frequency, and output
    2 is enabled. *)
Theorem clk_notifier_cb_acknowledges so sd event new_rate w :
  (event <> POST_RATE_CHANGE ->
   idt24x_clk_notifier_cb so sd event new_rate w
   = Ok (match event with OTHER_EVENT => NOTIFY_DONE | _ => NOTIFY_OK end,
         w)) /\
  (forall r w',
      idt24x_clk_notifier_cb so sd POST_RATE_CHANGE new_rate w = Ok (r, w') ->
      r = NOTIFY_OK /\
      (exists e,
          idt24x_set_frequency so sd (with_input_clk (u32 new_rate) w)
          = Ok (e, w')) /\
      input_clk_freq (data w') = u32 new_rate /\
      frequencies (data w') = frequencies (data w) /\
      xtal_freq (data w') = xtal_freq (data w) /\
      doubler_disabled (data w') = doubler_disabled (data w)) /\
  (0 <= frequencies (data w) !!! 2%nat < 2 ^ 31 ->
   0 <= reference_of (data (with_input_clk (u32 new_rate) w)) < 2 ^ 31 ->
   exists e w',
     idt24x_set_frequency so sd (with_input_clk (u32 new_rate) w)
     = Ok (e, w') /\
     idt24x_clk_notifier_cb so sd POST_RATE_CHANGE new_rate w
     = Ok (NOTIFY_OK, w')) /\
  (bus_errors w = [] ->
   IDT24x_MIN_FREQ <= frequencies (data w) !!! 2%nat <= IDT24x_MAX_FREQ ->
   pfd_of (data (with_input_clk (u32 new_rate) w)) <> 0 ->
   (1 < length (nint sd))%nat -> (1 < length (nfrac sd))%nat ->
   exists w',
     idt24x_clk_notifier_cb so sd POST_RATE_CHANGE new_rate w
     = Ok (NOTIFY_OK, w') /\
     input_clk_freq (data w') = u32 new_rate /\
     output_divider_in (regs w') (snd (idt24x_get_offsets 2 so))
       (nearest_divider (frequencies (data w) !!! 2%nat) / 2) 0 /\
     mask_and_shift (reg_value (regs w') IDT24x_REG_DSM_INT_8)
       IDT24x_REG_DSM_INT_8_MASK * 2 ^ 8
     + reg_value (regs w') IDT24x_REG_DSM_INT_7_0
     = (frequencies (data w) !!! 2%nat
        * nearest_divider (frequencies (data w) !!! 2%nat)
        / pfd_of (data (with_input_clk (u32 new_rate) w))) mod 2 ^ 9 /\
     mask_and_shift (reg_value (regs w') IDT24x_REG_DSMFRAC_20_16)
       IDT24x_REG_DSMFRAC_20_16_MASK * 2 ^ 16
     + reg_value (regs w') IDT24x_REG_DSMFRAC_15_8 * 2 ^ 8
     + reg_value (regs w') IDT24x_REG_DSMFRAC_7_0
     = (frequencies (data w) !!! 2%nat
        * nearest_divider (frequencies (data w) !!! 2%nat))
         mod pfd_of (data (with_input_clk (u32 new_rate) w)) * 2 ^ 21
       / pfd_of (data (with_input_clk (u32 new_rate) w)) /\
     Z.testbit (reg_value (regs w') IDT24x_REG_OUTEN) 2 = true /\
     Z.testbit (reg_value (regs w') IDT24x_REG_Q_DIS) 2 = false).
Proof.
  assert (Hpost : forall e w',
            idt24x_set_frequency so sd (with_input_clk (u32 new_rate) w)
            = Ok (e, w') ->
            idt24x_clk_notifier_cb so sd POST_RATE_CHANGE new_rate w
            = Ok (NOTIFY_OK, w')).
  { intros e w' Hrun. cbn [idt24x_clk_notifier_cb].
    rewrite (bind_ok _ _ _ _ _ (update_data_run _ w)).
    fold (with_input_clk (u32 new_rate) w).
    rewrite (bind_ok _ _ _ _ _ Hrun). reflexivity. }
  split; [| split; [| split]].
  - intros Hev. destruct event; try reflexivity. contradiction.
  - intros r w' Hrun. cbn [idt24x_clk_notifier_cb] in Hrun.
    rewrite (bind_ok _ _ _ _ _ (update_data_run _ w)) in Hrun.
    fold (with_input_clk (u32 new_rate) w) in Hrun.
    apply bind_inv in Hrun as (e & w2 & Hset & Hret).
    injection Hret as <- <-.
    split; [reflexivity |]. split; [exists e; exact Hset |].
    destruct (keeps_set_frequency so sd _ _ _ Hset) as (o & q & Hdata).
    rewrite Hdata. cbn. auto.
  - intros Hf Href.
    destruct (returns_set_frequency so sd (with_input_clk (u32 new_rate) w)
                Hf Href) as (e & w' & Hrun).
    exists e, w'. split; [exact Hrun | exact (Hpost e w' Hrun)].
  - intros Hbus Hrate Hpfd Hln Hlf.
    destruct (set_frequency_healthy so sd (with_input_clk (u32 new_rate) w)
                Hbus Hrate Hpfd Hln Hlf) as (w' & Hrun & Hd & Hrest).
    exists w'. split; [exact (Hpost 0 w' Hrun) |].
    split; [rewrite Hd; reflexivity | exact Hrest].
Qed.

Lemma clk_notifier_cb_acknowledges_witness :
  idt24x_clk_notifier_cb example_offsets example_divs PRE_RATE_CHANGE
    50000000 world_125MHz = Ok (NOTIFY_OK, world_125MHz) /\
  pfd_of (data (with_input_clk (u32 50000000) world_125MHz)) = 100000000 /\
  (exists e w',
      idt24x_set_frequency example_offsets example_divs
        (with_input_clk (u32 50000000)
           (with_bus [-5; -5; -5; -5; -5; -5] world_125MHz))
      = Ok (e, w') /\
      idt24x_clk_notifier_cb example_offsets example_divs POST_RATE_CHANGE
        50000000 (with_bus [-5; -5; -5; -5; -5; -5] world_125MHz)
      = Ok (NOTIFY_OK, w')) /\
  (exists w',
      idt24x_clk_notifier_cb example_offsets example_divs POST_RATE_CHANGE
        50000000 world_125MHz = Ok (NOTIFY_OK, w') /\
      input_clk_freq (data w') = u32 50000000 /\
      output_divider_in (regs w')
        (snd (idt24x_get_offsets 2 example_offsets))
        (nearest_divider (frequencies (data world_125MHz) !!! 2%nat) / 2) 0 /\
      mask_and_shift (reg_value (regs w') IDT24x_REG_DSM_INT_8)
        IDT24x_REG_DSM_INT_8_MASK * 2 ^ 8
      + reg_value (regs w') IDT24x_REG_DSM_INT_7_0
      = (frequencies (data world_125MHz) !!! 2%nat
         * nearest_divider (frequencies (data world_125MHz) !!! 2%nat)
         / pfd_of (data (with_input_clk (u32 50000000) world_125MHz)))
          mod 2 ^ 9 /\
      mask_and_shift (reg_value (regs w') IDT24x_REG_DSMFRAC_20_16)
        IDT24x_REG_DSMFRAC_20_16_MASK * 2 ^ 16
      + reg_value (regs w') IDT24x_REG_DSMFRAC_15_8 * 2 ^ 8
      + reg_value (regs w') IDT24x_REG_DSMFRAC_7_0
      = (frequencies (data world_125MHz) !!! 2%nat
         * nearest_divider (frequencies (data world_125MHz) !!! 2%nat))
          mod pfd_of (data (with_input_clk (u32 50000000) world_125MHz))
        * 2 ^ 21
        / pfd_of (data (with_input_clk (u32 50000000) world_125MHz)) /\
      Z.testbit (reg_value (regs w') IDT24x_REG_OUTEN) 2 = true /\
      Z.testbit (reg_value (regs w') IDT24x_REG_Q_DIS) 2 = false).
Proof.
  destruct (clk_notifier_cb_acknowledges example_offsets example_divs
              PRE_RATE_CHANGE 50000000 world_125MHz) as (Hpre & _).
  destruct (clk_notifier_cb_acknowledges example_offsets example_divs
              POST_RATE_CHANGE 50000000
              (with_bus [-5; -5; -5; -5; -5; -5] world_125MHz))
    as (_ & _ & Hreturns & _).
  destruct (clk_notifier_cb_acknowledges example_offsets example_divs
              POST_RATE_CHANGE 50000000 world_125MHz)
    as (_ & _ & _ & Hprogram).
  split; [apply Hpre; discriminate |].
  split; [vm_compute; reflexivity |].
  split.
  - apply Hreturns; vm_compute; split; congruence.
  - apply Hprogram.
    + reflexivity.
    + vm_compute. split; discriminate.
    + vm_compute. discriminate.
    + vm_compute. lia.
    + vm_compute. lia.
Defined.
